(** * Smart Teaching Assistance: the generation pipeline of [app2.py] and [app.py]

    A shallow embedding of the pure and stateful parts of the two Streamlit
    applications, and the properties of the outline parser, the generation
    cache, the recursive walkers, and the document writers.

    Conventions of the embedding.
    - A Python [str] is a Rocq [string]; a character is a code point below
      256.  The one literal character of the sources outside that range (an
      en dash in a prompt template) is written as its UTF-8 bytes.
    - A Python [int] is a [Z] (or an [N] where the source only builds it from
      digits).
    - A [dict] whose iteration order is observable is an association list
      with the update rule of Python dicts ([dict_set]); the process-wide
      [generation_cache], which is only probed and extended, is a [gmap].
    - The text-generation service is an oracle [llm]: it receives the number
      of earlier requests, the prompt and the sampling configuration, and
      answers with the response text or with [None] when the request (or
      reading [response.text]) raises.
    - Calls of [st.success], [st.error], [st.spinner], [st.progress] and
      [print] only draw on the page or the console; they are not modelled,
      except the parser's warning lines, which are collected. *)

From Stdlib Require Import ZArith NArith QArith.QArith_base Ascii String List Lia Bool.
From stdpp Require Import gmap strings list.

Set Warnings "-register-all".
Open Scope Z_scope.

(** ** Python string operations *)

Module Py.

Definition len (s : string) : Z := Z.of_nat (String.length s).

(** [str.isspace] on one character (code points below 256). *)
Definition isspace (c : ascii) : bool :=
  let n := N_of_ascii c in
  ((9 <=? n) && (n <=? 13) || (28 <=? n) && (n <=? 32)
   || (n =? 133) || (n =? 160))%N.

(** [\d] and [int()] accept the decimal digits; below 256 these are 0-9. *)
Definition isdigit (c : ascii) : bool :=
  let n := N_of_ascii c in ((48 <=? n) && (n <=? 57))%N.

Definition mem_char (c : ascii) (chars : string) : bool :=
  existsb (Ascii.eqb c) (list_ascii_of_string chars).

Fixpoint lstrip_by (p : ascii -> bool) (s : string) : string :=
  match s with
  | EmptyString => EmptyString
  | String c s' => if p c then lstrip_by p s' else s
  end.

Fixpoint rstrip_by (p : ascii -> bool) (s : string) : string :=
  match s with
  | EmptyString => EmptyString
  | String c s' =>
      match rstrip_by p s' with
      | EmptyString => if p c then EmptyString else String c EmptyString
      | r => String c r
      end
  end.

(** [s.strip()], [s.lstrip()], [s.lstrip(chars)] *)
Definition lstrip (s : string) : string := lstrip_by isspace s.
Definition strip (s : string) : string := rstrip_by isspace (lstrip_by isspace s).
Definition lstrip_chars (chars s : string) : string :=
  lstrip_by (fun c => mem_char c chars) s.

(** [s.startswith(p)] *)
Definition startswith (p s : string) : bool := String.prefix p s.

Fixpoint drop (n : nat) (s : string) : string :=
  match n, s with
  | O, _ => s
  | S n', String _ s' => drop n' s'
  | S _, EmptyString => EmptyString
  end.

Fixpoint take (n : nat) (s : string) : string :=
  match n, s with
  | S n', String c s' => String c (take n' s')
  | _, _ => EmptyString
  end.

(** Index of the first occurrence of [sub] in [s], if any. *)
Fixpoint index_of (sub s : string) : option nat :=
  if String.prefix sub s then Some O
  else match s with
       | EmptyString => None
       | String _ s' => option_map S (index_of sub s')
       end.

(** [s.find(sub, start)] for [start >= 0]: the lowest index at or after
    [start] where [sub] occurs, or -1. *)
Definition find (sub s : string) (start : Z) : Z :=
  if len s <? start then -1
  else match index_of sub (drop (Z.to_nat start) s) with
       | Some i => start + Z.of_nat i
       | None => -1
       end.

(** [sub in s] *)
Definition contains (sub s : string) : bool :=
  match index_of sub s with Some _ => true | None => false end.

(** Clamping of one slice bound, as Python's [slice.indices] does for a
    step of 1. *)
Definition clamp (n i : Z) : Z :=
  if i <? 0 then Z.max 0 (i + n) else Z.min i n.

(** [s[a:b]]; an omitted bound is [None]. *)
Definition slice (s : string) (a b : option Z) : string :=
  let n := len s in
  let lo := match a with Some i => clamp n i | None => 0 end in
  let hi := match b with Some i => clamp n i | None => n end in
  if lo <? hi then take (Z.to_nat (hi - lo)) (drop (Z.to_nat lo) s)
  else EmptyString.

(** Scanning left to right for non-overlapping occurrences of a non-empty
    [sub]: [skip] counts the characters of the current occurrence that are
    still to be passed over. *)
Fixpoint count_from (sub s : string) (skip : nat) : Z :=
  match s with
  | EmptyString => 0
  | String _ s' =>
      match skip with
      | S k => count_from sub s' k
      | O => if String.prefix sub s
             then 1 + count_from sub s' (String.length sub - 1)
             else count_from sub s' 0
      end
  end.

(** [s.count(sub)] for a non-empty [sub] *)
Definition count (sub s : string) : Z := count_from sub s 0.

Fixpoint split_from (sep s : string) (skip : nat) (cur : string) : list string :=
  match s with
  | EmptyString => [cur]
  | String c s' =>
      match skip with
      | S k => split_from sep s' k cur
      | O => if String.prefix sep s
             then cur :: split_from sep s' (String.length sep - 1) EmptyString
             else split_from sep s' 0 (cur +:+ String c EmptyString)
      end
  end.

(** [s.split(sep)] for a non-empty [sep] *)
Definition split (sep s : string) : list string := split_from sep s 0 EmptyString.

Fixpoint replace_from (old new s : string) (skip : nat) : string :=
  match s with
  | EmptyString => EmptyString
  | String c s' =>
      match skip with
      | S k => replace_from old new s' k
      | O => if String.prefix old s
             then new +:+ replace_from old new s' (String.length old - 1)
             else String c (replace_from old new s' 0)
      end
  end.

(** [s.replace(old, new)] for a non-empty [old] *)
Definition replace (old new s : string) : string := replace_from old new s 0.

(** [int(s)] on a string of decimal digits *)
Definition int_of_digits (s : string) : N :=
  fold_left (fun acc c => (10 * acc + (N_of_ascii c - 48))%N)
            (list_ascii_of_string s) 0%N.

Definition digit_char (d : N) : ascii := ascii_of_N (48 + d).

Fixpoint str_of_pos_fuel (fuel : nat) (n : N) (acc : string) : string :=
  match fuel with
  | O => acc
  | S f =>
      let acc' := String (digit_char (n mod 10)) acc in
      if (n / 10 =? 0)%N then acc' else str_of_pos_fuel f (n / 10)%N acc'
  end.

(** [str(n)] for a non-negative integer: its decimal digits, no leading
    zero.  A number has no more digits than bits. *)
Definition str_of_N (n : N) : string :=
  str_of_pos_fuel (S (N.to_nat (N.log2 n))) n EmptyString.

(** [str(z)] for any integer *)
Definition str_of_Z (z : Z) : string :=
  if z <? 0 then String "-"%char (str_of_N (Z.to_N (- z))) else str_of_N (Z.to_N z).

(** Truth value of a string: non-empty. *)
Definition truthy (s : string) : bool :=
  match s with EmptyString => false | _ => true end.

End Py.

(** ** Insertion-ordered dictionaries *)

Definition dict (V : Type) := list (string * V).

Fixpoint dict_get {V} (d : dict V) (k : string) : option V :=
  match d with
  | [] => None
  | (k', v) :: d' => if String.eqb k' k then Some v else dict_get d' k
  end.

(** [d[k] = v]: an existing key keeps its position, a new key goes last. *)
Fixpoint dict_set {V} (d : dict V) (k : string) (v : V) : dict V :=
  match d with
  | [] => [(k, v)]
  | (k', v') :: d' =>
      if String.eqb k' k then (k', v) :: d' else (k', v') :: dict_set d' k v
  end.

(** [d.update(other)] *)
Definition dict_update {V} (d other : dict V) : dict V :=
  fold_left (fun acc kv => dict_set acc (fst kv) (snd kv)) other d.

Definition dict_keys {V} (d : dict V) : list string := map fst d.

(** ** Prompt builders ([app2.py]) *)

Definition dq : string := String (ascii_of_nat 34) EmptyString.
Definition backslash : string := String (ascii_of_nat 92) EmptyString.
Definition nl : string := String (ascii_of_nat 10) EmptyString.

(** A context dictionary: topic id to description or title.  [None] and the
    empty dictionary are both false in every test the sources make, and
    nothing else is asked of a context, so [[]] stands for both. *)
Definition context := dict string.

(** The loop over [parent_topics_content.items()] of both prompt builders. *)
Definition context_lines (ctx : context) : string :=
  fold_left (fun prompt kv =>
               prompt +:+ "  - **" +:+ fst kv +:+ ":** " +:+ snd kv +:+ nl)
            ctx EmptyString.

Definition context_section (ctx : context) : string :=
  match ctx with
  | [] => EmptyString
  | _ => "**Context from Parent Topics:**" +:+ nl +:+ context_lines ctx
  end.

(** A roadmap entry as [parse_roadmap] builds it and as the lesson-plan
    walker reads it: the walker tests each of the three child keys with
    ["k" in topic_data and topic_data["k"]], so a missing key and an empty
    list are the same to it and both are the empty list here.  (The
    [details] list of a fourth-level entry is never filled or read.) *)
Inductive topic_data := TopicData {
  td_id : string;
  td_description : string;
  td_subtopics : list topic_data;
  td_subsubtopics : list topic_data;
  td_subsubsubtopics : list topic_data }.

Definition topic_details (topic : topic_data) : string :=
  "**Topic:** " +:+ td_id topic +:+ ": " +:+ td_description topic +:+ nl.

(** The depth-based instruction: the three branches of [if depth == 1 /
    elif depth == 2 / elif depth >= 3]; no line is added for a depth below 1. *)
Definition focus_line (depth : Z) : string :=
  if depth =? 1 then
    "**Focus:** Provide a comprehensive overview, establishing the foundational concepts and clearly outlining the subtopics. Lay the groundwork for deeper exploration in subsequent chunks.
"
  else if depth =? 2 then
    "**Focus:** Elaborate on the key concepts introduced earlier. Provide detailed explanations, incorporating examples and analogies to enhance understanding. Ensure a smooth transition from foundational concepts to more complex ideas.
"
  else if 3 <=? depth then
    "**Focus:** Dive deep into the intricacies of each subtopic. Provide in-depth explanations, real-world applications, and challenging scenarios. Encourage critical thinking and problem-solving skills.
"
  else EmptyString.

Definition build_prompt_with_hierarchy
    (subject difficulty_level : string) (topic : topic_data)
    (parent_topics_content : context) (depth : Z) : string :=
  ("
You are an expert educator creating a detailed lesson plan for the subject: " +:+ dq +:+ ""
   +:+ subject +:+
   "" +:+ dq +:+ ".

**Target Audience:** "
   +:+ difficulty_level +:+
   " level students
**Overall Objective:** To provide a comprehensive and engaging learning experience that builds a strong foundation in "
   +:+ subject +:+
   ", ensuring students grasp both the theoretical underpinnings and practical applications of each concept.


")
  +:+ context_section parent_topics_content
  +:+ ("
**Current Chunk:** "
       +:+ topic_details topic +:+
       "

**Your Task:**
Generate detailed content for this specific chunk of the lesson plan. This is a part of a larger, cohesive plan, so maintain consistency in style, tone, and depth. Ensure that the content is engaging, informative, and suitable for in-depth learning.

")
  +:+ focus_line depth
  +:+ ("
**Format and Content Requirements (Strictly Adhere to):**

"
       +:+ topic_details topic +:+
       "


1. **Micro-Level Learning Objectives (3-5):** VERY IMPORTANT
    -   Define SMART (Specific, Measurable, Achievable, Relevant, Time-bound) objectives for this chunk.
    -   Begin each objective with an action verb (e.g., Define, Explain, Analyze, Design, Implement).
    -   Ensure alignment with the overall objective of the lesson plan.  
    -   Explain the " +:+ dq +:+ "why" +:+ dq +:+ " behind these concepts – their importance and relevance.
    -   Use analogies, metaphors, or real-world examples to enhance understanding are highly encouraged.
    -   **Crucially:** Address potential misconceptions proactively. Anticipate common misunderstandings and clarify them before they take root.
2.
    -   Identify potential challenges or misconceptions that students might encounter.
    -   **ELI5:** If a concept is particularly complex, suggest creating a simplified " +:+ dq +:+ "Explain Like I'm 5" +:+ dq +:+ " section in the lecture notes.

**Guiding Principles:**
-   **Clarity and Precision:** Use clear, concise language. Avoid jargon or overly complex sentences.
-   **Engagement:** Maintain an enthusiastic and encouraging tone.
-   **Continuity:** Ensure a smooth flow from previous chunks.
-   **No Repetition:** Refer back to concepts briefly if needed, but do not repeat detailed explanations.
-   **Markdown Formatting:** Use markdown for formatting (headings, lists, bold, italics). No unnecessary asterisks.

").

(** [f"{lesson_plan_entry}"]: the entry is a string or [None]. *)
Definition format_entry (entry : option string) : string :=
  match entry with Some s => s | None => "None" end.

(** [highlighted_topics] is a list of strings that the template prints with
    [str()]; the builder receives that rendering, [highlighted_text].
    [subject] is [st.session_state.subject]. *)
Definition create_lecture_notes_prompt
    (subject : string) (lesson_plan_entry : option string)
    (current_id difficulty_level highlighted_text : string)
    (parent_topics_content : context) : string :=
  ("
You are an expert educator creating comprehensive lecture notes for the following topic:

**Topic ID:** "
   +:+ current_id +:+
   "
**Subject:** "
   +:+ subject +:+
   "
**Target Audience:** "
   +:+ difficulty_level +:+
   " level students
**Overall Objective:** To deliver a deep and engaging learning experience that equips students with a thorough understanding of "
   +:+ subject +:+
   ", emphasizing both the theoretical foundations and practical applications of each concept.

**Contextual Reminders:**
- These lecture notes build upon the previously generated lesson plan.
- Ensure continuity and a logical flow, building upon knowledge established in previous sections.
- Avoid repetition. Briefly reference prior concepts if needed, but focus on new material.
- Maintain consistency in style and tone throughout the notes.

")
  +:+ context_section parent_topics_content
  +:+ ("
**Lesson Plan Context (Reference):**
"
       +:+ format_entry lesson_plan_entry +:+
       "

**Highlighted Topics (for numericals/examples):**
"
       +:+ highlighted_text +:+
       "

**Your Task:**
Generate detailed lecture notes for this topic based on the provided lesson plan context. These notes should be comprehensive, engaging, and suitable for in-depth learning.

**Incorporate the following advanced learning strategies and content requirements:**

- Use clear, concise language appropriate for the target audience. Define all technical terms.
- Provide thorough explanations of each concept, principle, and process. 
-   **Illustrative Examples:** Incorporate numerous examples to illustrate concepts. Use a variety of examples(Conceptual, Real-World, Numerical examples for difficult topics)
-   **Analogies and Metaphors:** Use **analogies and metaphors** to explain complex concepts in simpler terms.
-   **Addressing Misconceptions:** Proactively address potential misconceptions identified in the lesson plan.
-   **Emphasis on Highlighted Topics:** Pay special attention to the topics highlighted for numericals. Provide extra examples and practice problems in these areas.
-   **ELI5 (Explain Like I'm 5):** For particularly complex concepts (as indicated in the lesson plan), include a simplified explanation using basic language and analogies, suitable for someone with no prior knowledge of the subject.
-   **Concept Maps:** Where appropriate, include or suggest the creation of **concept maps** that visually represent the relationships between key concepts.
-   **Markdown Formatting:** Use markdown for formatting (headings, subheadings, lists, bold, italics, code blocks). Ensure proper formatting and readability. No unnecessary use of asterisks.
-   **Interactive Elements:** Suggest interactive elements for the lecture at the last of each major section, such as:
    Think-Pair-Share, Quick Polls, Problem-Solving Breaks

**Guiding Principles:**
-   **Student-Centric:** Focus on student understanding and engagement.
-   **Comprehensive:** Cover all aspects of the topic in extreme detail.
-   **Engaging:** Use a conversational tone, ask questions, and encourage active learning.
-   **Continuity:** Maintain a strong connection with the lesson plan and previous topics.

    ").

(** ** The outline parser ([parse_roadmap], [app2.py]) *)

(** The fragment of regular expressions the four line patterns use, matched
    as [re.match] does: anchored at the start, greedy, backtracking. *)
Module Re.

Inductive item :=
| Lit (c : ascii)                (* a literal character *)
| Plus (cls : ascii -> bool)     (* [cls+] *)
| Star (cls : ascii -> bool)     (* [cls*] *)
| Open                           (* [(] *)
| Close                          (* [)] *)
| Eos.                           (* [$] *)

(** [\d], [\s] and [.] (any character but a newline) *)
Definition digit : ascii -> bool := Py.isdigit.
Definition space : ascii -> bool := Py.isspace.
Definition dot (c : ascii) : bool := negb (Ascii.eqb c (ascii_of_nat 10)).

(** [$] matches at the end and just before a final newline. *)
Definition at_end (s : string) : bool :=
  match s with
  | EmptyString => true
  | String c EmptyString => Ascii.eqb c (ascii_of_nat 10)
  | _ => false
  end.

(** Longest run first, then shorter ones, until the continuation [k]
    accepts. *)
Fixpoint greedy {A} (cls : ascii -> bool) (k : string -> option A)
    (s : string) : option A :=
  match s with
  | String c s' =>
      if cls c then
        match greedy cls k s' with
        | Some r => Some r
        | None => k s
        end
      else k s
  | EmptyString => k s
  end.

(** [opens] holds, for each group still open, the input left when it was
    opened; [caps] the texts of the groups closed so far, in order. *)
Fixpoint run (p : list item) (s : string) (opens caps : list string)
    : option (list string) :=
  match p with
  | [] => Some caps
  | Lit c :: p' =>
      match s with
      | String c' s' => if Ascii.eqb c c' then run p' s' opens caps else None
      | EmptyString => None
      end
  | Plus cls :: p' =>
      match s with
      | String c s' =>
          if cls c then greedy cls (fun r => run p' r opens caps) s' else None
      | EmptyString => None
      end
  | Star cls :: p' => greedy cls (fun r => run p' r opens caps) s
  | Open :: p' => run p' s (s :: opens) caps
  | Close :: p' =>
      match opens with
      | o :: os =>
          run p' s os
              (caps ++ [Py.take (String.length o - String.length s) o])
      | [] => None
      end
  | Eos :: p' => if at_end s then run p' s opens caps else None
  end.

(** [re.match(p, s)]: the groups of the match, or [None]. *)
Definition matches (p : list item) (s : string) : option (list string) :=
  run p s [] [].

End Re.

Definition number_group : list Re.item := [Re.Open; Re.Plus Re.digit; Re.Close].
Definition dot_item : Re.item := Re.Lit (ascii_of_nat 46).
Definition description_tail : list Re.item :=
  [Re.Lit (ascii_of_nat 58); Re.Star Re.space; Re.Open; Re.Plus Re.dot; Re.Close; Re.Eos].

(** [^T(\d+):\s*(.+)$] and its three longer forms *)
Definition main_topic_re : list Re.item :=
  Re.Lit (ascii_of_nat 84) :: number_group ++ description_tail.
Definition subtopic_re : list Re.item :=
  Re.Lit (ascii_of_nat 84) :: number_group ++ dot_item :: number_group ++ description_tail.
Definition subsubtopic_re : list Re.item :=
  Re.Lit (ascii_of_nat 84) :: number_group ++ dot_item :: number_group
    ++ dot_item :: number_group ++ description_tail.
Definition subsubsubtopic_re : list Re.item :=
  Re.Lit (ascii_of_nat 84) :: number_group ++ dot_item :: number_group
    ++ dot_item :: number_group ++ dot_item :: number_group ++ description_tail.

(** The key under which a roadmap dictionary keeps its list. *)
Inductive child_key := Subtopics | Subsubtopics | Subsubsubtopics | Details.

(** A dictionary built by the parser.  The dictionaries are shared: the one
    bound to [current_topic] is the one stored in [roadmap["topics"]], and
    appending to its list is seen through both.  They live in a store and
    are named by their position in it. *)
Record entry := Entry {
  e_id : string;
  e_description : string;
  e_key : child_key;
  e_children : list nat }.

Record parser := Parser {
  store : list entry;
  topics : list nat;                      (* [roadmap["topics"]] *)
  current_topic : option nat;
  current_subtopic : option nat;
  current_subsubtopic : option nat;
  current_subsubsubtopic : option nat;
  warnings : list string }.

Definition parser_init : parser := Parser [] [] None None None None [].

(** [parent[key].append(child)] on the stored dictionary *)
Definition append_child (st : list entry) (parent child : nat) : list entry :=
  alter (fun e => Entry (e_id e) (e_description e) (e_key e)
                        (e_children e ++ [child])) parent st.

(** [f"T{a}.{b}..."] from the matched number groups, each through [int()] *)
Definition path_id (numbers : list string) : string :=
  "T" +:+ String.concat "." (map (fun g => Py.str_of_N (Py.int_of_digits g)) numbers).

(** [m.group(1)], ..., [m.group(n)] of a match object [m] with [n] groups;
    [None] when the pattern did not match. *)
Definition groups2 (m : option (list string)) : option (string * string) :=
  match m with Some [a; b] => Some (a, b) | _ => None end.
Definition groups3 (m : option (list string))
    : option (string * string * string) :=
  match m with Some [a; b; c] => Some (a, b, c) | _ => None end.
Definition groups4 (m : option (list string))
    : option (string * string * string * string) :=
  match m with Some [a; b; c; d] => Some (a, b, c, d) | _ => None end.
Definition groups5 (m : option (list string))
    : option (string * string * string * string * string) :=
  match m with Some [a; b; c; d; e] => Some (a, b, c, d, e) | _ => None end.

(** The body of the loop for one stripped, non-empty line.  All four
    patterns are matched; the branches are taken in the order of the
    [if]/[elif] chain. *)
Definition parse_line (line : string) (p : parser) : parser :=
  let new := length (store p) in
  match groups2 (Re.matches main_topic_re line) with
  | Some (a, desc) =>
      Parser (store p ++ [Entry (path_id [a]) desc Subtopics []])
             (topics p ++ [new]) (Some new) None None None (warnings p)
  | None =>
  match groups3 (Re.matches subtopic_re line) with
  | Some (a, b, desc) =>
      let st := store p ++ [Entry (path_id [a; b]) desc Subsubtopics []] in
      Parser (match current_topic p with
              | Some t => append_child st t new
              | None => st
              end)
             (topics p) (current_topic p) (Some new) None None (warnings p)
  | None =>
  match groups4 (Re.matches subsubtopic_re line) with
  | Some (a, b, c, desc) =>
      let st := store p ++ [Entry (path_id [a; b; c]) desc Subsubsubtopics []] in
      Parser (match current_subtopic p with
              | Some t => append_child st t new
              | None => st
              end)
             (topics p) (current_topic p) (current_subtopic p) (Some new) None
             (warnings p)
  | None =>
  match groups5 (Re.matches subsubsubtopic_re line) with
  | Some (a, b, c, d, desc) =>
      let st := store p ++ [Entry (path_id [a; b; c; d]) desc Details []] in
      Parser (match current_subsubtopic p with
              | Some t => append_child st t new
              | None => st
              end)
             (topics p) (current_topic p) (current_subtopic p)
             (current_subsubtopic p) (Some new) (warnings p)
  | None =>
      Parser (store p) (topics p) (current_topic p) (current_subtopic p)
             (current_subsubtopic p) (current_subsubsubtopic p)
             (warnings p ++ ["Warning: Could not parse line: " +:+ line])
  end end end end.

(** One turn of [for line in lines]: strip, skip a blank line. *)
Definition parse_step (p : parser) (raw : string) : parser :=
  let line := Py.strip raw in
  if Py.truthy line then parse_line line p else p.

Definition parse_lines (lines : list string) (p : parser) : parser :=
  fold_left parse_step lines p.

(** Reading a stored dictionary and everything below it as a tree.  The
    parser nests four levels and never fills a [details] list, so five
    rounds reach every dictionary. *)
Fixpoint read_entry (fuel : nat) (st : list entry) (a : nat) : topic_data :=
  match fuel, st !! a with
  | S f, Some e =>
      let below := map (read_entry f st) (e_children e) in
      match e_key e with
      | Subtopics => TopicData (e_id e) (e_description e) below [] []
      | Subsubtopics => TopicData (e_id e) (e_description e) [] below []
      | Subsubsubtopics => TopicData (e_id e) (e_description e) [] [] below
      | Details => TopicData (e_id e) (e_description e) [] [] []
      end
  | _, _ => TopicData EmptyString EmptyString [] [] []
  end.

Definition roadmap_of (p : parser) : list topic_data :=
  map (read_entry 5 (store p)) (topics p).

(** [parse_roadmap(roadmap_text)["topics"]] *)
Definition parse_roadmap (roadmap_text : string) : list topic_data :=
  roadmap_of (parse_lines (Py.split nl roadmap_text) parser_init).

(** ** The generation service and its cache ([app2.py]) *)

(** [genai.types.GenerationConfig]; the temperature is only handed on. *)
Record GenerationConfig := {
  temperature : Q;
  max_output_tokens : option Z }.

(** [model.generate_content]: the request number, the prompt and the
    configuration give [response.text], or [None] when the call raises. *)
Definition llm := nat -> string -> GenerationConfig -> option string.

(** The configurations of [generate_text_from_prompt] and of
    [generate_lesson_plan_chunk]. *)
Definition text_config (temp : Q) : GenerationConfig :=
  {| temperature := temp; max_output_tokens := None |}.
Definition chunk_config (temp : Q) : GenerationConfig :=
  {| temperature := temp; max_output_tokens := Some 500 |}.

(** How one call of a generator went: the prompt was in the cache, the
    service answered, or the service raised. *)
Inductive outcome :=
| Cached (text : string)
| Generated (response_text : string)
| Failed.

(** A record of one call of a chunk generator: the arguments it got and how
    the call went.  The records are kept only to state what the walkers pass
    down and what each node receives; the code has no such list. *)
Inductive chunk_call :=
| LessonChunk (id : string) (parent_topics_content : context) (depth : Z)
    (o : outcome)
| NotesChunk (id : string) (parent_topics_content : context)
    (lesson_plan_entry : option string) (o : outcome).

Record world := World {
  generation_cache : gmap string string;
  requests : list string;        (* prompts sent to the service, oldest first *)
  chunk_calls : list chunk_call  (* chunk generator calls, oldest first *) }.

Definition world_init : world := World ∅ [] [].

Definition sent (prompt : string) (w : world) : world :=
  World (generation_cache w) (requests w ++ [prompt]) (chunk_calls w).

Definition stored (prompt text : string) (w : world) : world :=
  World (<[prompt := text]> (generation_cache w)) (requests w) (chunk_calls w).

Definition called (c : chunk_call) (w : world) : world :=
  World (generation_cache w) (requests w) (chunk_calls w ++ [c]).

Section Generation.

Variable model : llm.

(** [generate_text_from_prompt]: the [try] block returns the cached text,
    or asks the service, stores the stripped text and returns it; the
    [except] branch returns the empty string. *)
Definition generate_text_from_prompt (prompt : string) (temp : Q)
    (w : world) : string * world :=
  match generation_cache w !! prompt with
  | Some text => (text, w)
  | None =>
      match model (length (requests w)) prompt (text_config temp) with
      | Some text =>
          (Py.strip text, stored prompt (Py.strip text) (sent prompt w))
      | None => (EmptyString, sent prompt w)
      end
  end.

(** Which of the three ways a call of [generate_text_from_prompt] on [w]
    goes. *)
Definition text_outcome (prompt : string) (temp : Q) (w : world) : outcome :=
  match generation_cache w !! prompt with
  | Some text => Cached text
  | None =>
      match model (length (requests w)) prompt (text_config temp) with
      | Some text => Generated text
      | None => Failed
      end
  end.

(** [generate_lesson_plan_chunk] *)
Definition generate_lesson_plan_chunk (subject difficulty_level : string)
    (topic : topic_data) (parent_topics_content : context) (depth : Z)
    (temp : Q) (w : world) : string * world :=
  let prompt := build_prompt_with_hierarchy subject difficulty_level topic
                  parent_topics_content depth in
  let record := LessonChunk (td_id topic) parent_topics_content depth in
  match generation_cache w !! prompt with
  | Some text => (text, called (record (Cached text)) w)
  | None =>
      match model (length (requests w)) prompt (chunk_config temp) with
      | Some text =>
          let markdown_content := Py.replace "*   " "- " (Py.strip text) in
          (markdown_content,
           called (record (Generated text))
                  (stored prompt markdown_content (sent prompt w)))
      | None => (EmptyString, called (record Failed) (sent prompt w))
      end
  end.

End Generation.

(** ** The lesson-plan walker ([app2.py]) *)

(** A dictionary of the lesson plan.  The walker adds each of the three
    child keys only with a non-empty list, and every reader of the plan
    treats a missing key as an empty list; the empty list stands for a
    missing key. *)
Inductive plan_node := PlanNode {
  pn_id : string;
  pn_title : string;
  pn_content : string;
  pn_subtopics : list plan_node;
  pn_subsubtopics : list plan_node;
  pn_subsubsubtopics : list plan_node }.

Record lesson_plan := LessonPlan {
  lp_subject : string;
  lp_difficulty : string;
  lp_topics : list plan_node }.

Section Walker.

Variable model : llm.
Variables subject difficulty_level : string.
Variable temp : Q.

(** [generate_lesson_plan_chunk_json].  [current_level_context] starts
    with the topic's own entry and is updated with the inherited context;
    it is passed both to the chunk generator of this topic and to the
    recursive calls. *)
Fixpoint generate_lesson_plan_chunk_json (topic : topic_data)
    (parent_topics_content : context) (depth : Z) (w : world)
    : plan_node * world :=
  let current_level_context :=
    dict_update [(td_id topic, td_description topic)] parent_topics_content in
  let '(content_string, w) :=
    generate_lesson_plan_chunk model subject difficulty_level topic
      current_level_context depth temp w in
  let walk := fix walk (d : Z) (l : list topic_data) (w : world)
      : list plan_node * world :=
    match l with
    | [] => ([], w)
    | t :: l' =>
        let '(j, w) := generate_lesson_plan_chunk_json t current_level_context d w in
        let '(js, w) := walk d l' w in
        (j :: js, w)
    end in
  let '(subs, w) := walk (depth + 1) (td_subtopics topic) w in
  let '(subsubs, w) := walk (depth + 2) (td_subsubtopics topic) w in
  let '(subsubsubs, w) := walk (depth + 3) (td_subsubsubtopics topic) w in
  (PlanNode (td_id topic) (td_description topic) content_string
            subs subsubs subsubsubs, w).

(** The loop [for topic in roadmap_dict["topics"]] *)
Fixpoint generate_topics (l : list topic_data)
    (parent_topics_content : context) (depth : Z) (w : world)
    : list plan_node * world :=
  match l with
  | [] => ([], w)
  | t :: l' =>
      let '(j, w) := generate_lesson_plan_chunk_json t parent_topics_content depth w in
      let '(js, w) := generate_topics l' parent_topics_content depth w in
      (j :: js, w)
  end.

(** [generate_lesson_plan_recursive] *)
Definition generate_lesson_plan_recursive (roadmap : string)
    (parent_topics_content : context) (depth : Z) (w : world)
    : lesson_plan * world :=
  let '(js, w) := generate_topics (parse_roadmap roadmap)
                    parent_topics_content depth w in
  (LessonPlan subject difficulty_level js, w).

End Walker.

(** ** The document sink and the Markdown writer ([app2.py]) *)

(** A run of a paragraph: [p.add_run(text)], then [run.bold = True] or
    [run.italic = True]. *)
Record run := Run {
  run_text : string;
  run_bold : bool;
  run_italic : bool }.

(** What [python-docx] is asked to add to the document body.
    [left_indent] counts half inches ([Inches(0.5 * list_level)]). *)
Inductive block :=
| Heading (text : string) (level : Z)
| Paragraph (style : option string) (left_indent : option Z) (runs : list run).

(** The document: its blocks in order and the size of its style table,
    which names the code-block styles.  Every call on the sink is taken to
    succeed; the [except] branches of the writers are not modelled. *)
Record document := Document {
  styles_len : Z;
  blocks : list block }.

(** [document.add_paragraph(text, style)]: a run is added only for a
    non-empty text. *)
Definition text_runs (text : string) : list run :=
  if Py.truthy text then [Run text false false] else [].

Definition add_block (b : block) (d : document) : document :=
  Document (styles_len d) (blocks d ++ [b]).

(** [paragraph.add_run(text)] on the paragraph at position [i] *)
Definition add_run_at (i : nat) (r : run) (d : document) : document :=
  Document (styles_len d)
    (alter (fun b => match b with
                     | Paragraph st ind rs => Paragraph st ind (rs ++ [r])
                     | Heading _ _ => b
                     end) i (blocks d)).

(** The first [while] loop on one paragraph: each turn rewrites the first
    pair of double asterisks into a pair of markers.  A turn removes four
    asterisks, so the length of the text bounds the number of turns. *)
Fixpoint mark_bold (fuel : nat) (para : string) : string :=
  match fuel with
  | O => para
  | S f =>
      if Py.contains "**" para then
        let start := Py.find "**" para 0 in
        let stop := Py.find "**" para (start + 2) in
        if stop =? -1 then para
        else
          let bold_text := Py.slice para (Some (start + 2)) (Some stop) in
          mark_bold f (Py.slice para None (Some start) +:+ "<<BOLD>>" +:+ bold_text
                       +:+ "<<BOLD>>" +:+ Py.slice para (Some (stop + 2)) None)
      else para
  end.

(** The second [while] loop, on single asterisks. *)
Fixpoint mark_italic (fuel : nat) (para : string) : string :=
  match fuel with
  | O => para
  | S f =>
      if Py.contains "*" para then
        let start := Py.find "*" para 0 in
        let stop := Py.find "*" para (start + 1) in
        if stop =? -1 then para
        else
          let italic_text := Py.slice para (Some (start + 1)) (Some stop) in
          mark_italic f (Py.slice para None (Some start) +:+ "<<ITALIC>>" +:+ italic_text
                         +:+ "<<ITALIC>>" +:+ Py.slice para (Some (stop + 1)) None)
      else para
  end.

(** The loop over [para.split('<<')] *)
Definition segment_run (segment : string) : run :=
  if Py.startswith "BOLD>>" segment then
    Run (Py.slice segment (Some 6) (Some (-6))) true false
  else if Py.startswith "ITALIC>>" segment then
    Run (Py.slice segment (Some 8) (Some (-8))) false true
  else Run segment false false.

Definition paragraph_runs (para : string) : list run :=
  map segment_run (Py.split "<<" para).

(** The local variables of [create_docx_from_markdown] that live across the
    lines.  [code_para] is the position of the paragraph opened by the last
    code fence. *)
Record writer := Writer {
  doc : document;
  in_list : bool;
  list_level : Z;
  in_code_block : bool;
  code_para : option nat }.

Definition list_style (level : Z) : string :=
  if level =? 1 then "List Bullet" else "List Bullet " +:+ Py.str_of_Z level.

(** One turn of [for para in paragraphs]. *)
Definition write_paragraph (wr : writer) (raw : string) : writer :=
  let para := Py.strip raw in
  if Py.startswith "```" para then
    let now_in := negb (in_code_block wr) in
    if now_in then
      let d := doc wr in
      let style := "CodeBlock" +:+ Py.str_of_Z (styles_len d) in
      Writer (Document (styles_len d + 1)
                       (blocks d ++ [Paragraph (Some style) None []]))
             (in_list wr) (list_level wr) true (Some (length (blocks d)))
    else Writer (doc wr) (in_list wr) (list_level wr) false (code_para wr)
  else if in_code_block wr then
    match code_para wr with
    | Some i =>
        Writer (add_run_at i (Run (para +:+ nl) false false) (doc wr))
               (in_list wr) (list_level wr) true (code_para wr)
    | None => wr
    end
  else if Py.startswith "#" para then
    let level := Py.count "#" para in
    let heading_text := Py.strip (Py.lstrip_chars "# " para) in
    Writer (add_block (Heading heading_text level) (doc wr))
           (in_list wr) (list_level wr) false (code_para wr)
  else if Py.startswith "- " para || Py.startswith "* " para then
    let level :=
      if negb (in_list wr) then 1
      else
        let spaces := Py.len para - Py.len (Py.lstrip para) in
        let new_level := spaces / 2 + 1 in
        if list_level wr <? new_level then new_level
        else if new_level <? list_level wr then new_level
        else list_level wr in
    let list_item := Py.strip (Py.lstrip_chars "-* " para) in
    Writer (add_block (Paragraph (Some (list_style level))
                                 (if 1 <? level then Some level else None)
                                 (text_runs list_item)) (doc wr))
           true level false (code_para wr)
  else
    let wr := if in_list wr
              then Writer (doc wr) false 0 false (code_para wr) else wr in
    let para := mark_bold (String.length para) para in
    let para := mark_italic (String.length para) para in
    if Py.truthy para then
      Writer (add_block (Paragraph None None (paragraph_runs para)) (doc wr))
             (in_list wr) (list_level wr) false (code_para wr)
    else wr.

(** [create_docx_from_markdown(text, filename)]: the document that is saved.
    [fresh] is the document [Document()] returns. *)
Definition create_docx_from_markdown (fresh : document) (text : string)
    : document :=
  doc (fold_left write_paragraph (Py.split nl text)
                 (Writer fresh false 0 false None)).

(** ** Lecture notes ([app2.py]) *)

(** [find_entry_recursive] of [extract_lesson_plan_entry] on a dictionary of
    the plan.  A dictionary with the wanted id answers with its content,
    whatever it is.  Otherwise its values are searched in key order: the
    strings under [id], [title] and [content] give [None], each list gives
    the first result that is true.  Every loop goes on after a result that
    is false. *)
Fixpoint find_entry_recursive (target_id : string) (data : plan_node)
    : option string :=
  if String.eqb (pn_id data) target_id then Some (pn_content data)
  else
    let in_list := fix in_list (l : list plan_node) : option string :=
      match l with
      | [] => None
      | item :: l' =>
          match find_entry_recursive target_id item with
          | Some result => if Py.truthy result then Some result else in_list l'
          | None => in_list l'
          end
      end in
    match in_list (pn_subtopics data) with
    | Some result => Some result
    | None =>
        match in_list (pn_subsubtopics data) with
        | Some result => Some result
        | None => in_list (pn_subsubsubtopics data)
        end
    end.

(** The list branch of [find_entry_recursive]. *)
Fixpoint find_entry_in_list (target_id : string) (l : list plan_node)
    : option string :=
  match l with
  | [] => None
  | item :: l' =>
      match find_entry_recursive target_id item with
      | Some result =>
          if Py.truthy result then Some result
          else find_entry_in_list target_id l'
      | None => find_entry_in_list target_id l'
      end
  end.

(** [extract_lesson_plan_entry]: the search starts at the plan dictionary,
    which has no [id]; of its values only the list under [topics] can give a
    result. *)
Definition extract_lesson_plan_entry (lesson_plan_json : lesson_plan)
    (current_id : string) : option string :=
  find_entry_in_list current_id (lp_topics lesson_plan_json).

(** [count_items_recursive] *)
Fixpoint count_items_recursive (data : plan_node) : Z :=
  let in_list := fix in_list (l : list plan_node) : Z :=
    match l with
    | [] => 0
    | item :: l' => count_items_recursive item + in_list l'
    end in
  1 + in_list (pn_subtopics data) + in_list (pn_subsubtopics data)
    + in_list (pn_subsubsubtopics data).

Definition count_items (l : list plan_node) : Z :=
  fold_right (fun item acc => count_items_recursive item + acc) 0 l.

(** The variables [generate_notes_recursive] shares with its caller. *)
Record notes := Notes {
  document_text : string;
  item_count : Z;
  processed_ids : gset string }.

Section LectureNotes.

Variable model : llm.
Variable subject : string.                 (* [st.session_state.subject] *)
Variable lesson_plan_json : lesson_plan.
Variables difficulty_level highlighted_text : string.
Variable temp : Q.

(** [generate_lecture_notes_chunk] *)
Definition generate_lecture_notes_chunk (current_id : string)
    (parent_topics_content : context) (w : world) : string * world :=
  let lesson_plan_entry := extract_lesson_plan_entry lesson_plan_json current_id in
  let current_level_context := dict_update [] parent_topics_content in
  let prompt := create_lecture_notes_prompt subject lesson_plan_entry current_id
                  difficulty_level highlighted_text current_level_context in
  let '(generated_content, w') := generate_text_from_prompt model prompt temp w in
  (generated_content,
   called (NotesChunk current_id parent_topics_content lesson_plan_entry
                      (text_outcome model prompt temp w)) w').

(** [generate_notes_recursive] on a dictionary of the plan. *)
Fixpoint generate_notes_recursive (data : plan_node)
    (parent_topics_context : context) (s : notes * world) : notes * world :=
  let '(n, w) := s in
  let topic_id := pn_id data in
  if decide (topic_id ∈ processed_ids n) then s
  else
    let current_level_context :=
      dict_set (dict_update [] parent_topics_context) topic_id (pn_title data) in
    let '(topic_content, w) :=
      generate_lecture_notes_chunk topic_id current_level_context w in
    let n := Notes (document_text n +:+ topic_content +:+ nl +:+ nl)
                   (item_count n + 1)
                   ({[topic_id]} ∪ processed_ids n) in
    let walk := fix walk (l : list plan_node) (s : notes * world)
        : notes * world :=
      match l with
      | [] => s
      | item :: l' => walk l' (generate_notes_recursive item current_level_context s)
      end in
    walk (pn_subsubsubtopics data)
      (walk (pn_subsubtopics data) (walk (pn_subtopics data) (n, w))).

(** [generate_notes_recursive] on a list. *)
Definition generate_notes_list (l : list plan_node)
    (parent_topics_context : context) (s : notes * world) : notes * world :=
  fold_left (fun s item => generate_notes_recursive item parent_topics_context s) l s.

(** [create_detailed_notes_recursive]: the notes document that is saved,
    with the state the traversal leaves. *)
Definition create_detailed_notes_recursive (fresh : document) (w : world)
    : document * notes * world :=
  let '(n, w) := generate_notes_list (lp_topics lesson_plan_json) []
                   (Notes EmptyString 0 ∅, w) in
  (create_docx_from_markdown fresh (document_text n), n, w).

End LectureNotes.

(** ** The first pipeline ([app.py]) *)

Module App.

(** A value of [lesson_plan_structure]: a dictionary from subtopic to the
    list of its sub-subtopics, or anything that is not a dictionary. *)
Inductive plan_value :=
| PlanDict (subtopics : dict (list string))
| PlanOther.

Record plan_parser := PlanParser {
  lesson_plan_structure : dict plan_value;
  current_topic : option string;
  current_subtopic : option string }.

(** [lesson_plan_structure[current_topic][subtopic] = []] *)
Definition set_subtopic (structure : dict plan_value) (topic subtopic : string)
    : dict plan_value :=
  match dict_get structure topic with
  | Some (PlanDict d) => dict_set structure topic (PlanDict (dict_set d subtopic []))
  | _ => structure
  end.

(** [lesson_plan_structure[current_topic][subtopic].append(sub_subtopic)] *)
Definition append_sub_subtopic (structure : dict plan_value)
    (topic subtopic sub_subtopic : string) : dict plan_value :=
  match dict_get structure topic with
  | Some (PlanDict d) =>
      match dict_get d subtopic with
      | Some l =>
          dict_set structure topic (PlanDict (dict_set d subtopic (l ++ [sub_subtopic])))
      | None => structure
      end
  | _ => structure
  end.

(** One turn of the loop of [parse_lesson_plan]. *)
Definition parse_plan_line (p : plan_parser) (raw : string) : plan_parser :=
  let line := Py.strip raw in
  if negb (Py.truthy line) then p
  else if negb (Py.contains "->" line) then
    PlanParser (dict_set (lesson_plan_structure p) line (PlanDict []))
               (Some line) None
  else if Py.count "->" line =? 1 then
    match map Py.strip (Py.split "->" line) with
    | [topic; subtopic] =>
        if bool_decide (Some topic = current_topic p) then
          PlanParser (set_subtopic (lesson_plan_structure p) topic subtopic)
                     (current_topic p) (Some subtopic)
        else p
    | _ => p
    end
  else if Py.count "->" line =? 2 then
    match map Py.strip (Py.split "->" line) with
    | [topic; subtopic; sub_subtopic] =>
        if bool_decide (Some topic = current_topic p)
           && bool_decide (Some subtopic = current_subtopic p) then
          PlanParser (append_sub_subtopic (lesson_plan_structure p)
                        topic subtopic sub_subtopic)
                     (current_topic p) (current_subtopic p)
        else p
    | _ => p
    end
  else p.

(** [parse_lesson_plan] *)
Definition parse_lesson_plan (lesson_plan_text : string) : dict plan_value :=
  lesson_plan_structure
    (fold_left parse_plan_line (Py.split nl (Py.strip lesson_plan_text))
               (PlanParser [] None None)).

(** A call either returns or raises. *)
Inductive exception := NameError (name : string).

Inductive outcome (A : Type) :=
| Returned (a : A)
| Raised (e : exception).
Arguments Returned {A} a.
Arguments Raised {A} e.

(** [client.completions.create]: request number, prompt, token limit and
    temperature give [response.choices[0].text], or [None] when the call
    raises. *)
Definition completions := nat -> string -> Z -> Q -> option string.

Section Slides.

Variable client : completions.

(** [generate_slide_content]; the second component counts the requests
    made so far. *)
Definition generate_slide_content (topic subtopic sub_subtopic
    difficulty_level : string) (pdf_content : option string) (calls : nat)
    : option string * nat :=
  let prompt :=
    "Generate detailed content for a slide on the topic: '" +:+ topic
    +:+ "', subtopic: '" +:+ subtopic +:+ "', sub-subtopic: '" +:+ sub_subtopic
    +:+ "' for a " +:+ difficulty_level +:+ " level course. " +:+ nl
    +:+ "            Include relevant explanations, examples, and details suitable for comprehensive understanding." in
  let context_str :=
    match pdf_content with
    | Some text =>
        if Py.truthy text then
          nl +:+ "Consider the following information:" +:+ nl +:+ text
        else EmptyString
    | None => EmptyString
    end in
  (option_map Py.strip (client calls (prompt +:+ context_str) 1500 (8 # 10)),
   S calls).

(** [generate_image_prompt] *)
Definition generate_image_prompt (topic subtopic sub_subtopic : string)
    (calls : nat) : option string * nat :=
  let prompt :=
    "Generate a descriptive prompt for an image representing the topic: '"
    +:+ topic +:+ "', subtopic: '" +:+ subtopic +:+ "', sub-subtopic: '"
    +:+ sub_subtopic +:+ "'." in
  (option_map Py.strip (client calls prompt 100 (7 # 10)), S calls).

(** The test [if text:] on a string or [None]. *)
Definition some_text (o : option string) : option string :=
  match o with
  | Some s => if Py.truthy s then Some s else None
  | None => None
  end.

(** One term of the generator expression under [sum].  [subtopic] is
    the local variable of that name of [create_detailed_notes_docx], as
    it is bound when the term is computed. *)
Definition slides_of (subtopic : option string) (subtopics : plan_value)
    : outcome Z :=
  match subtopics with
  | PlanDict d =>
      match subtopic with
      | Some key =>
          Returned (Z.of_nat (length (default [] (dict_get d key))))
      | None => Raised (NameError "subtopic")
      end
  | PlanOther => Returned 1
  end.

(** [sum(... for topic, subtopics in lesson_plan_structure.items())] *)
Fixpoint sum_slides (subtopic : option string) (items : dict plan_value)
    (acc : Z) : outcome Z :=
  match items with
  | [] => Returned acc
  | (_, subtopics) :: rest =>
      match slides_of subtopic subtopics with
      | Returned n => sum_slides subtopic rest (acc + n)
      | Raised e => Raised e
      end
  end.

(** The innermost loop, over the sub-subtopics of one subtopic. *)
Fixpoint write_sub_subtopics (topic subtopic difficulty_level : string)
    (pdf_content : option string) (l : list string)
    (s : list block * nat) : list block * nat :=
  match l with
  | [] => s
  | sub_subtopic :: l' =>
      let '(body, calls) := s in
      let '(slide_content, calls) :=
        generate_slide_content topic subtopic sub_subtopic difficulty_level
          pdf_content calls in
      let s :=
        match some_text slide_content with
        | Some text =>
            let body := body ++ [Heading sub_subtopic 4;
                                 Paragraph None None (text_runs text)] in
            let '(image_prompt, calls) :=
              generate_image_prompt topic subtopic sub_subtopic calls in
            match some_text image_prompt with
            | Some ip =>
                (body ++ [Paragraph (Some "Intense Quote") None
                            (text_runs ("**Image Prompt:** " +:+ ip))], calls)
            | None => (body, calls)
            end
        | None => (body, calls)
        end in
      write_sub_subtopics topic subtopic difficulty_level pdf_content l' s
  end.

Fixpoint write_subtopics (topic difficulty_level : string)
    (pdf_content : option string) (d : dict (list string))
    (s : list block * nat) : list block * nat :=
  match d with
  | [] => s
  | (subtopic, sub_subtopics) :: d' =>
      let '(body, calls) := s in
      write_subtopics topic difficulty_level pdf_content d'
        (write_sub_subtopics topic subtopic difficulty_level pdf_content
           sub_subtopics (body ++ [Heading subtopic 3], calls))
  end.

(** The main loop, over the topics. *)
Fixpoint write_topics (difficulty_level : string) (pdf_content : option string)
    (items : dict plan_value) (s : list block * nat) : list block * nat :=
  match items with
  | [] => s
  | (topic, subtopics) :: rest =>
      let '(body, calls) := s in
      let body := body ++ [Heading topic 2] in
      write_topics difficulty_level pdf_content rest
        match subtopics with
        | PlanDict d =>
            write_subtopics topic difficulty_level pdf_content d (body, calls)
        | PlanOther =>
            let '(slide_content, calls) :=
              generate_slide_content topic EmptyString EmptyString
                difficulty_level pdf_content calls in
            match some_text slide_content with
            | Some text => (body ++ [Paragraph None None (text_runs text)], calls)
            | None => (body, calls)
            end
        end
  end.

(** [create_detailed_notes_docx]: the body of the saved document, or the
    exception that ends the call.  When [total_slides] is computed the
    function has not yet assigned its local variable [subtopic] (only
    the [for] loops further down do), so the generator expression reads
    it unbound.  Paragraph spacing is left out of the blocks. *)
Definition create_detailed_notes_docx
    (lesson_plan_structure : dict plan_value) (difficulty_level : string)
    (pdf_content : option string) (calls : nat)
    : outcome (list block) :=
  let body := [Heading "Detailed Course Notes" 1] in
  let subtopic : option string := None in
  match sum_slides subtopic lesson_plan_structure 0 with
  | Raised e => Raised e
  | Returned total_slides =>
      Returned (fst (write_topics difficulty_level pdf_content
                       lesson_plan_structure (body, calls)))
  end.

End Slides.

End App.

(** ** Vocabulary of the properties *)

(** The nodes of a roadmap tree in the order the walker meets them. *)
Fixpoint topic_nodes (t : topic_data) : list topic_data :=
  t :: flat_map topic_nodes (td_subtopics t)
    ++ flat_map topic_nodes (td_subsubtopics t)
    ++ flat_map topic_nodes (td_subsubsubtopics t).

(** The dictionaries of a plan tree in document order. *)
Fixpoint plan_nodes (j : plan_node) : list plan_node :=
  j :: flat_map plan_nodes (pn_subtopics j)
    ++ flat_map plan_nodes (pn_subsubtopics j)
    ++ flat_map plan_nodes (pn_subsubsubtopics j).

(** A plan tree without its contents. *)
Fixpoint outline_of (j : plan_node) : topic_data :=
  TopicData (pn_id j) (pn_title j)
            (map outline_of (pn_subtopics j))
            (map outline_of (pn_subsubtopics j))
            (map outline_of (pn_subsubsubtopics j)).

Definition call_id (c : chunk_call) : string :=
  match c with LessonChunk id _ _ _ => id | NotesChunk id _ _ _ => id end.

Definition call_context (c : chunk_call) : context :=
  match c with LessonChunk _ ctx _ _ => ctx | NotesChunk _ ctx _ _ => ctx end.

Definition call_outcome (c : chunk_call) : outcome :=
  match c with LessonChunk _ _ _ o => o | NotesChunk _ _ _ o => o end.

(** The text a lesson-plan chunk call returns, by outcome. *)
Definition lesson_content (o : outcome) : string :=
  match o with
  | Cached text => text
  | Generated response_text => Py.replace "*   " "- " (Py.strip response_text)
  | Failed => EmptyString
  end.

(** The text a lecture-notes chunk call returns, by outcome. *)
Definition notes_content (o : outcome) : string :=
  match o with
  | Cached text => text
  | Generated response_text => Py.strip response_text
  | Failed => EmptyString
  end.

Definition call_content (c : chunk_call) : string :=
  match c with
  | LessonChunk _ _ _ o => lesson_content o
  | NotesChunk _ _ _ o => notes_content o
  end.

(** Which of the three ways a call of [generate_lesson_plan_chunk] on [w]
    goes. *)
Definition chunk_outcome (model : llm) (prompt : string) (temp : Q) (w : world)
    : outcome :=
  match generation_cache w !! prompt with
  | Some text => Cached text
  | None =>
      match model (length (requests w)) prompt (chunk_config temp) with
      | Some text => Generated text
      | None => Failed
      end
  end.

(** The arguments of the chunk calls of the lesson-plan walker, in call
    order: each topic is generated with its outgoing context.  The depth
    grows by 1 into [subtopics], by 2 into [subsubtopics] and by 3 into
    [subsubsubtopics]. *)
Fixpoint walker_arguments (parent_topics_content : context) (depth : Z)
    (t : topic_data) : list (string * context * Z) :=
  let current_level_context :=
    dict_update [(td_id t, td_description t)] parent_topics_content in
  (td_id t, current_level_context, depth)
  :: flat_map (walker_arguments current_level_context (depth + 1)) (td_subtopics t)
  ++ flat_map (walker_arguments current_level_context (depth + 2)) (td_subsubtopics t)
  ++ flat_map (walker_arguments current_level_context (depth + 3))
              (td_subsubsubtopics t).

Definition lesson_arguments (c : chunk_call) : option (string * context * Z) :=
  match c with
  | LessonChunk id ctx depth _ => Some (id, ctx, depth)
  | NotesChunk _ _ _ _ => None
  end.

(** The (id, depth) pairs of the lesson-plan chunk calls among [calls]. *)
Definition call_depths (calls : list chunk_call) : list (string * Z) :=
  flat_map (fun c => match c with
                     | LessonChunk id _ depth _ => [(id, depth)]
                     | NotesChunk _ _ _ _ => []
                     end) calls.

(** The (id, context) pairs of chunk calls. *)
Definition call_contexts (calls : list chunk_call) : list (string * context) :=
  map (fun c => (call_id c, call_context c)) calls.

(** The call is given a context that has the id of its own node as a key. *)
Definition own_id_in_context (c : chunk_call) : Prop :=
  is_Some (dict_get (call_context c) (call_id c)).

(** The chunk calls a notes traversal adds to those of [w] all have their
    own id in their context. *)
Definition adds_own_contexts (w : world) (r : notes * world) : Prop :=
  exists calls,
    chunk_calls (snd r) = chunk_calls w ++ calls
    /\ Forall own_id_in_context calls.

(** The nesting levels as the specification counts them: a child is one
    level below its parent, under whichever key it hangs. *)
Fixpoint nesting_levels (level : Z) (t : topic_data) : list (string * Z) :=
  (td_id t, level)
  :: flat_map (nesting_levels (level + 1)) (td_subtopics t)
  ++ flat_map (nesting_levels (level + 1)) (td_subsubtopics t)
  ++ flat_map (nesting_levels (level + 1)) (td_subsubsubtopics t).

(** The shape of the trees [parse_roadmap] builds: a topic has only
    [subtopics], these have only [subsubtopics], these only
    [subsubsubtopics], and these have no children. *)
Definition level4_shaped (t : topic_data) : Prop :=
  td_subtopics t = [] /\ td_subsubtopics t = [] /\ td_subsubsubtopics t = [].
Definition level3_shaped (t : topic_data) : Prop :=
  td_subtopics t = [] /\ td_subsubtopics t = []
  /\ Forall level4_shaped (td_subsubsubtopics t).
Definition level2_shaped (t : topic_data) : Prop :=
  td_subtopics t = [] /\ td_subsubsubtopics t = []
  /\ Forall level3_shaped (td_subsubtopics t).
Definition level1_shaped (t : topic_data) : Prop :=
  td_subsubtopics t = [] /\ td_subsubsubtopics t = []
  /\ Forall level2_shaped (td_subtopics t).

(** What the walker adds to the root depth at each nesting level of such a
    tree. *)
Definition level_offset (level : Z) : Z :=
  if level =? 1 then 0 else if level =? 2 then 1 else if level =? 3 then 3 else 6.

(** The chunk calls of a walk seen as (id, something read off the depth),
    and the nodes of a tree seen as (id, something read off the level). *)
Definition depth_view {A} (g : Z -> A) (a : string * context * Z) : string * A :=
  (fst (fst a), g (snd a)).
Definition level_view {A} (h : Z -> A) (a : string * Z) : string * A :=
  (fst a, h (snd a)).

(** What one walk of the lesson-plan walker leaves: the plan node [j] has
    the outline of the topic, and the chunk calls added to the records are
    one per node, in order, with the walker's arguments, and returned the
    contents of the nodes. *)
Definition walk_spec (t : topic_data) (ctx : context) (depth : Z) (w : world)
    (j : plan_node) (w' : world) : Prop :=
  outline_of j = t
  /\ exists calls,
       chunk_calls w' = chunk_calls w ++ calls
       /\ map call_id calls = map td_id (topic_nodes t)
       /\ map lesson_arguments calls = map Some (walker_arguments ctx depth t)
       /\ map call_content calls = map pn_content (plan_nodes j).

Definition walk_list_spec (l : list topic_data) (ctx : context) (depth : Z)
    (w : world) (js : list plan_node) (w' : world) : Prop :=
  map outline_of js = l
  /\ exists calls,
       chunk_calls w' = chunk_calls w ++ calls
       /\ map call_id calls = map td_id (flat_map topic_nodes l)
       /\ map lesson_arguments calls
          = map Some (flat_map (walker_arguments ctx depth) l)
       /\ map call_content calls = map pn_content (flat_map plan_nodes js).

(** The ids of all the dictionaries of a list of plan trees, in document
    order. *)
Definition plan_ids (l : list plan_node) : list string :=
  map pn_id (flat_map plan_nodes l).

(** The text the notes traversal appends for a run of chunk calls. *)
Definition notes_text (calls : list chunk_call) : string :=
  fold_right (fun c acc => call_content c +:+ nl +:+ nl +:+ acc) EmptyString calls.

(** What a notes traversal over nodes with the ids [ids] leaves. *)
Definition notes_spec (ids : list string) (n : notes) (w : world)
    (r : notes * world) : Prop :=
  let '(n', w') := r in
  exists calls,
    chunk_calls w' = chunk_calls w ++ calls
    /\ map call_id calls = ids
    /\ document_text n' = document_text n +:+ notes_text calls
    /\ item_count n' = item_count n + Z.of_nat (length calls)
    /\ processed_ids n' = list_to_set ids ∪ processed_ids n.

(** The ids are pairwise different and none was processed before. *)
Definition fresh_ids (ids : list string) (n : notes) : Prop :=
  NoDup ids /\ forall i, i ∈ ids -> i ∉ processed_ids n.

(** The stored dictionary at [a] keeps its list under [k]. *)
Definition has_key (st : list entry) (a : nat) (k : child_key) : Prop :=
  exists e, st !! a = Some e /\ e_key e = k.

(** The key of the dictionaries one level below. *)
Definition next_key (k : child_key) : option child_key :=
  match k with
  | Subtopics => Some Subsubtopics
  | Subsubtopics => Some Subsubsubtopics
  | Subsubsubtopics => Some Details
  | Details => None
  end.

(** The children of a stored dictionary are dictionaries of the next level;
    a [details] list is empty. *)
Definition entry_ok (st : list entry) (e : entry) : Prop :=
  match next_key (e_key e) with
  | Some k => Forall (fun c => has_key st c k) (e_children e)
  | None => e_children e = []
  end.

(** The invariant of the parser's loop. *)
Definition parser_ok (p : parser) : Prop :=
  (forall a e, store p !! a = Some e -> entry_ok (store p) e)
  /\ Forall (fun a => has_key (store p) a Subtopics) (topics p)
  /\ (forall a, current_topic p = Some a -> has_key (store p) a Subtopics)
  /\ (forall a, current_subtopic p = Some a -> has_key (store p) a Subsubtopics)
  /\ (forall a, current_subsubtopic p = Some a ->
                has_key (store p) a Subsubsubtopics).

(** Two parser states that differ at most in their warnings. *)
Definition same_tracking (p q : parser) : Prop :=
  store p = store q /\ topics p = topics q
  /\ current_topic p = current_topic q
  /\ current_subtopic p = current_subtopic q
  /\ current_subsubtopic p = current_subsubtopic q
  /\ current_subsubsubtopic p = current_subsubsubtopic q.

(** The number groups of the pattern a line matches, in the order of the
    [if]/[elif] chain. *)
Definition line_path (line : string) : option (list string) :=
  match groups2 (Re.matches main_topic_re line) with
  | Some (a, _) => Some [a]
  | None =>
  match groups3 (Re.matches subtopic_re line) with
  | Some (a, b, _) => Some [a; b]
  | None =>
  match groups4 (Re.matches subsubtopic_re line) with
  | Some (a, b, c, _) => Some [a; b; c]
  | None =>
  match groups5 (Re.matches subsubsubtopic_re line) with
  | Some (a, b, c, d, _) => Some [a; b; c; d]
  | None => None
  end end end end.

(** The dictionary a line of the given level would hang under. *)
Definition tracked_parent (p : parser) (level : nat) : option nat :=
  match level with
  | 2%nat => current_topic p
  | 3%nat => current_subtopic p
  | 4%nat => current_subsubtopic p
  | _ => None
  end.

(** The reading of the specification: the numeric path of a line aligns
    with the tracked ancestor path when the path without its last number is
    the id of the tracked dictionary one level up.  A first-level line has
    no ancestor to align with; a line that matches no pattern has no path. *)
Definition path_aligned (p : parser) (line : string) : bool :=
  match line_path line with
  | None => false
  | Some [_] => true
  | Some numbers =>
      match tracked_parent p (length numbers) with
      | Some a =>
          match store p !! a with
          | Some e => String.eqb (e_id e) (path_id (removelast numbers))
          | None => false
          end
      | None => false
      end
  end.

(** The reading of the specification of the depth a node is processed with:
    the root depth plus its nesting level minus 1. *)
Definition depth_by_level (root_depth level : Z) : Z := root_depth + level - 1.

(** All values of a [lesson_plan_structure] are dictionaries. *)
Definition all_dicts (structure : dict App.plan_value) : Prop :=
  Forall (fun kv => exists d, snd kv = App.PlanDict d) structure.

(** ** The structured snapshot ([save_lesson_plan_json], [app2.py]) *)

Module Json.

(** The values a lesson plan is made of: strings, lists and dictionaries
    with string keys. *)
Inductive json :=
| JString (s : string)
| JArray (items : list json)
| JObject (members : list (string * json)).

Definition hex_digit (n : N) : ascii :=
  if (n <? 10)%N then ascii_of_N (48 + n) else ascii_of_N (87 + n).

(** One character as [json.dumps] writes it with [ensure_ascii]: the
    printable ASCII characters stand for themselves, except the quote and
    the backslash; the rest is escaped, by a short escape where there is
    one and by four hexadecimal digits otherwise. *)
Definition escape_char (c : ascii) : string :=
  let n := N_of_ascii c in
  if (n =? 34)%N then backslash +:+ dq
  else if (n =? 92)%N then backslash +:+ backslash
  else if (n =? 10)%N then backslash +:+ "n"
  else if (n =? 13)%N then backslash +:+ "r"
  else if (n =? 9)%N then backslash +:+ "t"
  else if (n =? 8)%N then backslash +:+ "b"
  else if (n =? 12)%N then backslash +:+ "f"
  else if ((32 <=? n) && (n <=? 126))%N then String c EmptyString
  else backslash +:+ "u00"
       +:+ String (hex_digit (n / 16)) (String (hex_digit (n mod 16)) EmptyString).

Fixpoint escape (s : string) : string :=
  match s with
  | EmptyString => EmptyString
  | String c s' => escape_char c +:+ escape s'
  end.

Definition dump_string (s : string) : string := dq +:+ escape s +:+ dq.

Fixpoint spaces (n : nat) : string :=
  match n with
  | O => EmptyString
  | S n' => String " "%char (spaces n')
  end.

(** A line break followed by the indentation of nesting level [level]. *)
Definition newline_indent (level : nat) : string := nl +:+ spaces (4 * level).

(** [json.dumps(v, indent=4)] at nesting level [level]: an empty list or
    dictionary is written closed; otherwise each item goes on a line of
    its own, one level deeper, with a comma after all but the last. *)
Fixpoint dump (level : nat) (v : json) : string :=
  match v with
  | JString s => dump_string s
  | JArray [] => "[]"
  | JArray (x :: items) =>
      "[" +:+ newline_indent (S level) +:+ dump (S level) x
      +:+ (fix rest (l : list json) : string :=
             match l with
             | [] => EmptyString
             | y :: l' => "," +:+ newline_indent (S level) +:+ dump (S level) y
                          +:+ rest l'
             end) items
      +:+ newline_indent level +:+ "]"
  | JObject [] => "{}"
  | JObject ((k, x) :: members) =>
      "{" +:+ newline_indent (S level) +:+ dump_string k +:+ ": "
      +:+ dump (S level) x
      +:+ (fix rest (l : list (string * json)) : string :=
             match l with
             | [] => EmptyString
             | (k', y) :: l' =>
                 "," +:+ newline_indent (S level) +:+ dump_string k' +:+ ": "
                 +:+ dump (S level) y +:+ rest l'
             end) members
      +:+ newline_indent level +:+ "}"
  end.

(** The text [json.dump(lesson_plan_json, f, indent=4)] writes. *)
Definition json_dump (v : json) : string := dump 0 v.

(** The dictionary of one plan node: [id], [title], [content], then each
    child key that has a list. *)
Fixpoint node_to_json (j : plan_node) : json :=
  let children (key : string) (l : list plan_node) : list (string * json) :=
    match l with
    | [] => []
    | _ => [(key, JArray (map node_to_json l))]
    end in
  JObject ([("id", JString (pn_id j)); ("title", JString (pn_title j));
            ("content", JString (pn_content j))]
           ++ children "subtopics" (pn_subtopics j)
           ++ children "subsubtopics" (pn_subsubtopics j)
           ++ children "subsubsubtopics" (pn_subsubsubtopics j)).

(** [lesson_plan_json] *)
Definition plan_to_json (p : lesson_plan) : json :=
  JObject [("subject", JString (lp_subject p));
           ("difficulty", JString (lp_difficulty p));
           ("topics", JArray (map node_to_json (lp_topics p)))].

(** [save_lesson_plan_json]: the content of the file. *)
Definition save_lesson_plan_json (p : lesson_plan) : string :=
  json_dump (plan_to_json p).

(** *** Reading a snapshot *)

Definition is_ws (c : ascii) : bool :=
  let n := N_of_ascii c in ((n =? 32) || (n =? 9) || (n =? 10) || (n =? 13))%N.

Fixpoint skip_ws (s : string) : string :=
  match s with
  | String c s' => if is_ws c then skip_ws s' else s
  | EmptyString => EmptyString
  end.

Definition hex_value (c : ascii) : option N :=
  let n := N_of_ascii c in
  if ((48 <=? n) && (n <=? 57))%N then Some (n - 48)%N
  else if ((97 <=? n) && (n <=? 102))%N then Some (n - 87)%N
  else if ((65 <=? n) && (n <=? 70))%N then Some (n - 55)%N
  else None.

(** Four hexadecimal digits as a character, when the code point is below
    256. *)
Definition unicode_escape (a b c d : ascii) : option ascii :=
  match hex_value a, hex_value b, hex_value c, hex_value d with
  | Some x, Some y, Some z, Some t =>
      let n := (((x * 16 + y) * 16 + z) * 16 + t)%N in
      if (n <? 256)%N then Some (ascii_of_N n) else None
  | _, _, _, _ => None
  end.

(** Modelled from the spec: the reader of a string of the snapshot, from
    just after the opening quote; the repository has no code that reads a
    snapshot back.  It gives the string and the input after the closing
    quote. *)
Fixpoint read_string (s : string) : option (string * string) :=
  match s with
  | EmptyString => None
  | String c s' =>
      let n := N_of_ascii c in
      if (n =? 34)%N then Some (EmptyString, s')
      else if (n =? 92)%N then
        match s' with
        | String e s'' =>
            let m := N_of_ascii e in
            let unescaped (x : N) :=
              match read_string s'' with
              | Some (t, r) => Some (String (ascii_of_N x) t, r)
              | None => None
              end in
            if (m =? 34)%N then unescaped 34%N
            else if (m =? 92)%N then unescaped 92%N
            else if (m =? 47)%N then unescaped 47%N
            else if (m =? 98)%N then unescaped 8%N
            else if (m =? 102)%N then unescaped 12%N
            else if (m =? 110)%N then unescaped 10%N
            else if (m =? 114)%N then unescaped 13%N
            else if (m =? 116)%N then unescaped 9%N
            else if (m =? 117)%N then
              match s'' with
              | String a (String b (String c' (String d r)))  =>
                  match unicode_escape a b c' d, read_string r with
                  | Some x, Some (t, r') => Some (String x t, r')
                  | _, _ => None
                  end
              | _ => None
              end
            else None
        | EmptyString => None
        end
      else if (n <? 32)%N then None
      else
        match read_string s' with
        | Some (t, r) => Some (String c t, r)
        | None => None
        end
  end.

(** Modelled from the spec: the reader of a value of the snapshot, by
    recursive descent, from the first character of the value; [fuel] bounds
    the number of values, items and members read.  [read_items] and
    [read_members] start after the opening bracket of a non-empty list or
    dictionary. *)
Fixpoint read_token (fuel : nat) (s : string) : option (json * string) :=
  match fuel with
  | O => None
  | S f =>
      match s with
      | String c r =>
          let n := N_of_ascii c in
          if (n =? 34)%N then
            match read_string r with
            | Some (t, r') => Some (JString t, r')
            | None => None
            end
          else if (n =? 91)%N then
            match skip_ws r with
            | String c' r' =>
                if (N_of_ascii c' =? 93)%N then Some (JArray [], r')
                else match read_items f r with
                     | Some (l, r'') => Some (JArray l, r'')
                     | None => None
                     end
            | EmptyString => None
            end
          else if (n =? 123)%N then
            match skip_ws r with
            | String c' r' =>
                if (N_of_ascii c' =? 125)%N then Some (JObject [], r')
                else match read_members f r with
                     | Some (l, r'') => Some (JObject l, r'')
                     | None => None
                     end
            | EmptyString => None
            end
          else None
      | EmptyString => None
      end
  end
with read_items (fuel : nat) (s : string) : option (list json * string) :=
  match fuel with
  | O => None
  | S f =>
      match read_token f (skip_ws s) with
      | Some (v, r) =>
          match skip_ws r with
          | String c r' =>
              let n := N_of_ascii c in
              if (n =? 93)%N then Some ([v], r')
              else if (n =? 44)%N then
                match read_items f r' with
                | Some (l, r'') => Some (v :: l, r'')
                | None => None
                end
              else None
          | EmptyString => None
          end
      | None => None
      end
  end
with read_members (fuel : nat) (s : string)
    : option (list (string * json) * string) :=
  match fuel with
  | O => None
  | S f =>
      match skip_ws s with
      | String q r =>
          if (N_of_ascii q =? 34)%N then
            match read_string r with
            | Some (k, r1) =>
                match skip_ws r1 with
                | String colon r2 =>
                    if (N_of_ascii colon =? 58)%N then
                      match read_token f (skip_ws r2) with
                      | Some (v, r3) =>
                          match skip_ws r3 with
                          | String c r4 =>
                              let n := N_of_ascii c in
                              if (n =? 125)%N then Some ([(k, v)], r4)
                              else if (n =? 44)%N then
                                match read_members f r4 with
                                | Some (l, r5) => Some ((k, v) :: l, r5)
                                | None => None
                                end
                              else None
                          | EmptyString => None
                          end
                      | None => None
                      end
                    else None
                | EmptyString => None
                end
            | None => None
            end
          else None
      | EmptyString => None
      end
  end.

(** Modelled from the spec: a value after optional white space. *)
Definition read_value (fuel : nat) (s : string) : option (json * string) :=
  read_token fuel (skip_ws s).

(** Modelled from the spec: deserialize, the reader of a whole snapshot.
    A text has more characters than values, items and members, so its
    length is fuel enough.  Only white space may follow the value. *)
Definition json_load (text : string) : option json :=
  match read_value (S (String.length text)) text with
  | Some (v, r) =>
      match skip_ws r with
      | EmptyString => Some v
      | _ => None
      end
  | None => None
  end.

(** The text written for the items after the first, and for the members
    after the first. *)
Fixpoint dump_items (level : nat) (l : list json) : string :=
  match l with
  | [] => EmptyString
  | y :: l' => "," +:+ newline_indent level +:+ dump level y +:+ dump_items level l'
  end.

Fixpoint dump_members (level : nat) (l : list (string * json)) : string :=
  match l with
  | [] => EmptyString
  | (k, y) :: l' =>
      "," +:+ newline_indent level +:+ dump_string k +:+ ": "
      +:+ dump level y +:+ dump_members level l'
  end.

(** The fuel that reads a value back: one for the value and one more for
    each item or member, with what these need. *)
Fixpoint need (v : json) : nat :=
  match v with
  | JString _ => 1
  | JArray items =>
      S ((fix all (l : list json) : nat :=
            match l with
            | [] => O
            | x :: l' => S (need x + all l')
            end) items)
  | JObject members =>
      S ((fix all (l : list (string * json)) : nat :=
            match l with
            | [] => O
            | (_, x) :: l' => S (need x + all l')
            end) members)
  end.

Definition need_items (l : list json) : nat :=
  fold_right (fun x acc => S (need x + acc)) O l.
Definition need_members (l : list (string * json)) : nat :=
  fold_right (fun kv acc => S (need (snd kv) + acc)) O l.

(** A value every writing of which is read back, with fuel enough, and
    with the text that follows left over. *)
Definition reads_back (v : json) : Prop :=
  forall (level : nat) (rest : string) (fuel : nat),
    (need v <= fuel)%nat ->
    read_token fuel (dump level v +:+ rest) = Some (v, rest).

(** The fields of a node read so far. *)
Record fields := Fields {
  f_id : option string;
  f_title : option string;
  f_content : option string;
  f_subtopics : list plan_node;
  f_subsubtopics : list plan_node;
  f_subsubsubtopics : list plan_node }.

(** Modelled from the spec: the plan node a dictionary of the snapshot
    stands for.  The members are taken in order; a child key that is
    missing leaves the empty list, any other key than the six of a node is
    refused. *)
Fixpoint node_of_json (v : json) : option plan_node :=
  match v with
  | JObject members =>
      let nodes := fix nodes (l : list json) : option (list plan_node) :=
        match l with
        | [] => Some []
        | x :: l' =>
            match node_of_json x, nodes l' with
            | Some j, Some js => Some (j :: js)
            | _, _ => None
            end
        end in
      let read := fix read (ms : list (string * json)) (acc : fields)
          : option fields :=
        match ms with
        | [] => Some acc
        | (k, x) :: ms' =>
            match x with
            | JString t =>
                if String.eqb k "id" then
                  read ms' (Fields (Some t) (f_title acc) (f_content acc)
                              (f_subtopics acc) (f_subsubtopics acc)
                              (f_subsubsubtopics acc))
                else if String.eqb k "title" then
                  read ms' (Fields (f_id acc) (Some t) (f_content acc)
                              (f_subtopics acc) (f_subsubtopics acc)
                              (f_subsubsubtopics acc))
                else if String.eqb k "content" then
                  read ms' (Fields (f_id acc) (f_title acc) (Some t)
                              (f_subtopics acc) (f_subsubtopics acc)
                              (f_subsubsubtopics acc))
                else None
            | JArray items =>
                match nodes items with
                | Some js =>
                    if String.eqb k "subtopics" then
                      read ms' (Fields (f_id acc) (f_title acc) (f_content acc)
                                  js (f_subsubtopics acc) (f_subsubsubtopics acc))
                    else if String.eqb k "subsubtopics" then
                      read ms' (Fields (f_id acc) (f_title acc) (f_content acc)
                                  (f_subtopics acc) js (f_subsubsubtopics acc))
                    else if String.eqb k "subsubsubtopics" then
                      read ms' (Fields (f_id acc) (f_title acc) (f_content acc)
                                  (f_subtopics acc) (f_subsubtopics acc) js)
                    else None
                | None => None
                end
            | JObject _ => None
            end
        end in
      match read members (Fields None None None [] [] []) with
      | Some (Fields (Some i) (Some t) (Some c) s ss sss) =>
          Some (PlanNode i t c s ss sss)
      | _ => None
      end
  | _ => None
  end.

Fixpoint nodes_of_json (l : list json) : option (list plan_node) :=
  match l with
  | [] => Some []
  | x :: l' =>
      match node_of_json x, nodes_of_json l' with
      | Some j, Some js => Some (j :: js)
      | _, _ => None
      end
  end.

(** The loop of [node_of_json] over the members of a node, on its own. *)
Fixpoint read_fields (ms : list (string * json)) (acc : fields) : option fields :=
  match ms with
  | [] => Some acc
  | (k, x) :: ms' =>
      match x with
      | JString t =>
          if String.eqb k "id" then
            read_fields ms' (Fields (Some t) (f_title acc) (f_content acc)
                               (f_subtopics acc) (f_subsubtopics acc)
                               (f_subsubsubtopics acc))
          else if String.eqb k "title" then
            read_fields ms' (Fields (f_id acc) (Some t) (f_content acc)
                               (f_subtopics acc) (f_subsubtopics acc)
                               (f_subsubsubtopics acc))
          else if String.eqb k "content" then
            read_fields ms' (Fields (f_id acc) (f_title acc) (Some t)
                               (f_subtopics acc) (f_subsubtopics acc)
                               (f_subsubsubtopics acc))
          else None
      | JArray items =>
          match nodes_of_json items with
          | Some js =>
              if String.eqb k "subtopics" then
                read_fields ms' (Fields (f_id acc) (f_title acc) (f_content acc)
                                   js (f_subsubtopics acc) (f_subsubsubtopics acc))
              else if String.eqb k "subsubtopics" then
                read_fields ms' (Fields (f_id acc) (f_title acc) (f_content acc)
                                   (f_subtopics acc) js (f_subsubsubtopics acc))
              else if String.eqb k "subsubsubtopics" then
                read_fields ms' (Fields (f_id acc) (f_title acc) (f_content acc)
                                   (f_subtopics acc) (f_subsubtopics acc) js)
              else None
          | None => None
          end
      | JObject _ => None
      end
  end.

(** Modelled from the spec: the lesson plan a snapshot value stands for. *)
Definition plan_of_json (v : json) : option lesson_plan :=
  match v with
  | JObject [(k1, JString subject); (k2, JString difficulty); (k3, JArray items)] =>
      if String.eqb k1 "subject" && String.eqb k2 "difficulty"
         && String.eqb k3 "topics" then
        match nodes_of_json items with
        | Some js => Some (LessonPlan subject difficulty js)
        | None => None
        end
      else None
  | _ => None
  end.

(** Modelled from the spec: deserialize on the content of a snapshot
    file. *)
Definition load_lesson_plan_json (text : string) : option lesson_plan :=
  match json_load text with
  | Some v => plan_of_json v
  | None => None
  end.

End Json.

(** ** Looking below a lesson-plan entry ([has_sub_chunks], [get_sub_chunks], [app2.py]) *)

Module HasSubChunks.

(** [find_entry_recursive] of [has_sub_chunks] on a dictionary of the plan:
    a dictionary with the wanted id is the answer; otherwise its values are
    searched in key order, the strings giving [None] and each list the first
    result.  A result is a dictionary with an id, so it is always true and
    ends every loop. *)
Fixpoint find_entry_recursive (target_id : string) (data : plan_node)
    : option plan_node :=
  if String.eqb (pn_id data) target_id then Some data
  else
    let in_list := fix in_list (l : list plan_node) : option plan_node :=
      match l with
      | [] => None
      | item :: l' =>
          match find_entry_recursive target_id item with
          | Some result => Some result
          | None => in_list l'
          end
      end in
    match in_list (pn_subtopics data) with
    | Some result => Some result
    | None =>
        match in_list (pn_subsubtopics data) with
        | Some result => Some result
        | None => in_list (pn_subsubsubtopics data)
        end
    end.

(** The list branch of [find_entry_recursive]. *)
Fixpoint find_entry_in_list (target_id : string) (l : list plan_node)
    : option plan_node :=
  match l with
  | [] => None
  | item :: l' =>
      match find_entry_recursive target_id item with
      | Some result => Some result
      | None => find_entry_in_list target_id l'
      end
  end.

(** [has_sub_keys_recursive] on a dictionary of the plan: one of the three
    child keys with a non-empty list answers [True]; otherwise the values
    are searched, of which only the lists can answer. *)
Fixpoint has_sub_keys_recursive (data : plan_node) : bool :=
  let in_list := fix in_list (l : list plan_node) : bool :=
    match l with
    | [] => false
    | item :: l' => if has_sub_keys_recursive item then true else in_list l'
    end in
  match pn_subtopics data with
  | _ :: _ => true
  | [] =>
      match pn_subsubtopics data with
      | _ :: _ => true
      | [] =>
          match pn_subsubsubtopics data with
          | _ :: _ => true
          | [] =>
              if in_list (pn_subtopics data) then true
              else if in_list (pn_subsubtopics data) then true
              else in_list (pn_subsubsubtopics data)
          end
      end
  end.

End HasSubChunks.

(** [has_sub_chunks]: the search starts at the list under [topics]. *)
Definition has_sub_chunks (lesson_plan_json : lesson_plan) (current_id : string)
    : bool :=
  match HasSubChunks.find_entry_in_list current_id (lp_topics lesson_plan_json) with
  | Some entry => HasSubChunks.has_sub_keys_recursive entry
  | None => false
  end.

(** [find_subtopic_ids_recursive] of [get_sub_chunks] on a dictionary of the
    plan.  [found] is set at a dictionary with the wanted id and is handed
    down, never back up or sideways.  A found dictionary gives the ids of
    its children, key by key; then its values are walked (always when not
    found, and when found if it has one of the child keys: a key with an
    empty list adds nothing, as a missing one). *)
Fixpoint find_subtopic_ids_recursive (target_id : string) (data : plan_node)
    (found : bool) : list string :=
  let found := if String.eqb (pn_id data) target_id then true else found in
  let in_list := fix in_list (l : list plan_node) : list string :=
    match l with
    | [] => []
    | item :: l' => find_subtopic_ids_recursive target_id item found ++ in_list l'
    end in
  let has_key (l : list plan_node) : bool :=
    match l with [] => false | _ :: _ => true end in
  (if found
   then map pn_id (pn_subtopics data) ++ map pn_id (pn_subsubtopics data)
        ++ map pn_id (pn_subsubsubtopics data)
   else [])
  ++ (if negb found || has_key (pn_subtopics data)
         || has_key (pn_subsubtopics data) || has_key (pn_subsubsubtopics data)
      then in_list (pn_subtopics data) ++ in_list (pn_subsubtopics data)
           ++ in_list (pn_subsubsubtopics data)
      else []).

(** [get_sub_chunks]: the walk starts at the list under [topics], not
    found. *)
Definition get_sub_chunks (lesson_plan_json : lesson_plan) (current_id : string)
    : list string :=
  flat_map (fun item => find_subtopic_ids_recursive current_id item false)
           (lp_topics lesson_plan_json).

(** ** The roadmap generator ([generate_roadmap], [app2.py]) *)

(** The prompt of [generate_roadmap]. *)
Definition roadmap_prompt (subject syllabus_text difficulty_level : string)
    : string :=
  "
You are an expert educator tasked with creating a detailed roadmap for the subject: "
  +:+ dq
  +:+ subject
  +:+ dq
  +:+ ".

**Syllabus:** "
  +:+ syllabus_text
  +:+ "
Target Audience: "
  +:+ difficulty_level
  +:+ " level students

Your task is to generate a comprehensive roadmap that outlines the entire syllabus, divided into main topics, subtopics, and further sub-divisions if necessary. The output MUST STRICTLY ADHERE to the following hierarchical format and output nothing else:**

   T<number>: Main Topic Description (e.g., `T1: Introduction to Programming`)
       T<number>.<number>: Subtopic Description (e.g., `T1.1: Basic Data Types`)
           T<number>.<number>.<number>: Sub-subtopic Description (e.g., `T1.1.1: Integers and Floats`)
               T<number>.<number>.<number>.<number>: Further sub-division Description (if needed)

**Rules:**

1. **Hierarchical Format:** Use the exact hierarchical format specified above with "
  +:+ dq
  +:+ "T"
  +:+ dq
  +:+ " followed by numbers and dots.
2. **Topic and Subtopic Descriptions:** Each topic and subtopic MUST be followed by a colon (`:`) and a brief description on the SAME LINE.
3. **NO Extra Text:** Do not include any introductory text, explanations, or additional formatting beyond what is shown in the example structure.
4. **NO Aestericks:** Do not use any aestericks in the output.
5. **STRICT ADHERENCE:** The output must strictly follow these rules. Any deviations from this format will make the roadmap unusable.

**Consider the principles of chunking and scaffolding when organizing the outline. Suggest a logical sequence for the topics (Linear, Spiral, or Modular) in a separate line at the beginning, using the format:** `Sequence: <Sequence Type>` (e.g., `Sequence: Linear`).
    ".

(** [generate_roadmap]: the [try] block returns the cached text, or asks
    the service, stores the stripped text and returns it; the [except]
    branch returns the empty string.  It shares [generation_cache] with the
    other generators. *)
Definition generate_roadmap (model : llm)
    (subject syllabus_text difficulty_level : string) (temp : Q) (w : world)
    : string * world :=
  let prompt := roadmap_prompt subject syllabus_text difficulty_level in
  match generation_cache w !! prompt with
  | Some text => (text, w)
  | None =>
      match model (length (requests w)) prompt (text_config temp) with
      | Some text =>
          (Py.strip text, stored prompt (Py.strip text) (sent prompt w))
      | None => (EmptyString, sent prompt w)
      end
  end.

(** ** The lesson-plan document ([create_docx_from_lesson_plan], [app2.py]) *)

(** One line of the content of a dictionary: the [if]/[elif] chain on the
    stripped line.  Inline markup is not looked at. *)
Definition add_content_line (d : document) (raw : string) : document :=
  let para := Py.strip raw in
  if Py.startswith "# " para then
    add_block (Heading (Py.slice para (Some 2) None) 1) d
  else if Py.startswith "## " para then
    add_block (Heading (Py.slice para (Some 3) None) 2) d
  else if Py.startswith "### " para then
    add_block (Heading (Py.slice para (Some 4) None) 3) d
  else if Py.startswith "#### " para then
    add_block (Heading (Py.slice para (Some 5) None) 4) d
  else if Py.startswith "- " para then
    add_block (Paragraph (Some "List Bullet") None
                         (text_runs (Py.slice para (Some 2) None))) d
  else if Py.truthy para then add_block (Paragraph None None (text_runs para)) d
  else d.

(** [add_content] on a dictionary of the plan, which has an id, a title and
    a content: its heading, the lines of its content, then the lists under
    the three child keys, one, two and three levels down. *)
Fixpoint add_content (data : plan_node) (level : Z) (d : document) : document :=
  let d := add_block (Heading (pn_id data +:+ ": " +:+ pn_title data) level) d in
  let d := fold_left add_content_line (Py.split nl (pn_content data)) d in
  let in_list := fix in_list (level : Z) (l : list plan_node) (d : document)
      : document :=
    match l with
    | [] => d
    | item :: l' => in_list level l' (add_content item level d)
    end in
  in_list (level + 3) (pn_subsubsubtopics data)
    (in_list (level + 2) (pn_subsubtopics data)
       (in_list (level + 1) (pn_subtopics data) d)).

(** [add_content] on a list. *)
Definition add_content_list (l : list plan_node) (level : Z) (d : document)
    : document :=
  fold_left (fun d item => add_content item level d) l d.

(** [create_docx_from_lesson_plan(lesson_plan_json, filename)]: the document
    that is saved; the headings of the topics are of level 2.  [fresh] is
    the document [Document()] returns. *)
Definition create_docx_from_lesson_plan (fresh : document)
    (lesson_plan_json : lesson_plan) : document :=
  add_content_list (lp_topics lesson_plan_json) 2 fresh.

(** ** Vocabulary of the further properties *)

(** The children of a dictionary of the plan, key by key. *)
Definition pn_children (j : plan_node) : list plan_node :=
  pn_subtopics j ++ pn_subsubtopics j ++ pn_subsubsubtopics j.

(** The dictionary carries the id. *)
Definition has_id (id : string) (j : plan_node) : bool := String.eqb (pn_id j) id.

(** The ids below a dictionary: those of its children, then what is below
    each child. *)
Fixpoint ids_below (j : plan_node) : list string :=
  map pn_id (pn_subtopics j) ++ map pn_id (pn_subsubtopics j)
  ++ map pn_id (pn_subsubsubtopics j)
  ++ flat_map ids_below (pn_subtopics j)
  ++ flat_map ids_below (pn_subsubtopics j)
  ++ flat_map ids_below (pn_subsubsubtopics j).

(** What a notes traversal over dictionaries with the ids [ids] leaves,
    whatever was processed before: the chunk calls it adds are counted, their
    ids are marked as processed, are pairwise different, are among [ids]
    and were not processed before. *)
Definition notes_progress_spec (ids : list string) (n : notes) (w : world)
    (r : notes * world) : Prop :=
  let '(n', w') := r in
  exists calls,
    chunk_calls w' = chunk_calls w ++ calls
    /\ item_count n' = item_count n + Z.of_nat (length calls)
    /\ processed_ids n' = list_to_set (map call_id calls) ∪ processed_ids n
    /\ NoDup (map call_id calls)
    /\ (forall i, i ∈ map call_id calls -> i ∈ ids /\ i ∉ processed_ids n).

(** From [w] to [w'] the cache kept every entry and the requests sent
    before are still the first ones. *)
Definition world_grows (w w' : world) : Prop :=
  generation_cache w ⊆ generation_cache w'
  /\ requests w `prefix_of` requests w'.

(** [w'] differs from [w] at most in the records of chunk calls: the cache
    and the requests sent are the same. *)
Definition same_service_state (w w' : world) : Prop :=
  generation_cache w' = generation_cache w /\ requests w' = requests w.

(** The service answers every request. *)
Definition always_answers (model : llm) : Prop :=
  forall n prompt config, model n prompt config <> None.

(** A block that is not nested: a heading, or a paragraph without a left
    indent whose style is the default one, the first-level list style, or
    the style of a code block. *)
Definition flat_block (b : block) : Prop :=
  match b with
  | Heading _ _ => True
  | Paragraph style left_indent _ =>
      left_indent = None
      /\ (style = None \/ style = Some "List Bullet"
          \/ exists n, style = Some ("CodeBlock" +:+ Py.str_of_Z n))
  end.

(** The two subscripts of [parse_lesson_plan] do not miss in the state [p]:
    the tracked topic is a key of the structure and its value is a
    dictionary, and the tracked subtopic is a key of that dictionary; no
    subtopic is tracked without a topic. *)
Definition subscripts_safe (p : App.plan_parser) : Prop :=
  match App.current_topic p with
  | Some topic =>
      exists d,
        dict_get (App.lesson_plan_structure p) topic = Some (App.PlanDict d)
        /\ match App.current_subtopic p with
           | Some subtopic => is_Some (dict_get d subtopic)
           | None => True
           end
  | None => App.current_subtopic p = None
  end.

(** A key of the parsed structure: one of the lines, stripped, not empty
    and without an arrow. *)
Definition topic_line (lines : list string) (key : string) : Prop :=
  key ∈ map Py.strip lines /\ key <> EmptyString /\ Py.contains "->" key = false.

(** An id made of [k] numbers: the letter T, then [k] numbers as [str]
    writes them, with dots between them. *)
Definition numbered (k : nat) (id : string) : Prop :=
  exists ns : list N,
    length ns = k /\ id = "T" +:+ String.concat "." (map Py.str_of_N ns).

(** The level at which the parser builds a dictionary with the key. *)
Definition key_level (k : child_key) : nat :=
  match k with
  | Subtopics => 1
  | Subsubtopics => 2
  | Subsubsubtopics => 3
  | Details => 4
  end.

(** Every stored dictionary has an id with as many numbers as its level. *)
Definition ids_numbered (st : list entry) : Prop :=
  forall a e, st !! a = Some e -> numbered (key_level (e_key e)) (e_id e).

(** The id and the description of the stored dictionary at [a]. *)
Definition entry_head (st : list entry) (a : nat) : string * string :=
  match st !! a with
  | Some e => (e_id e, e_description e)
  | None => (EmptyString, EmptyString)
  end.

(** What a line of the first level gives: the id and the description of a
    topic. *)
Definition main_line (line : string) : option (string * string) :=
  match groups2 (Re.matches main_topic_re line) with
  | Some (a, desc) => Some (path_id [a], desc)
  | None => None
  end.

(** Every character of the string is in the class. *)
Fixpoint all_chars (cls : ascii -> bool) (s : string) : bool :=
  match s with
  | EmptyString => true
  | String c s' => cls c && all_chars cls s'
  end.

(** A number of a roadmap line: one decimal digit or more. *)
Definition is_number (s : string) : bool := Py.truthy s && all_chars Re.digit s.

(** A description of a roadmap line: not empty, without white space at
    either end, and on one line. *)
Definition is_description (s : string) : Prop :=
  s <> EmptyString /\ Py.strip s = s /\ all_chars Re.dot s = true.

(** A line of the format the roadmap prompt asks for: the letter T, the
    numbers with dots between them, a colon, optional white space and the
    description. *)
Definition roadmap_line (numbers : list string) (gap description : string)
    : string :=
  "T" +:+ String.concat "." numbers +:+ ":" +:+ gap +:+ description.

(** The key of the dictionary built for a line of the given level. *)
Definition key_at (level : nat) : child_key :=
  match level with
  | 1%nat => Subtopics
  | 2%nat => Subsubtopics
  | 3%nat => Subsubsubtopics
  | _ => Details
  end.

(** A heading of a level from 1 to 8, or a paragraph. *)
Definition heading_in_range (b : block) : Prop :=
  match b with
  | Heading _ level => 1 <= level <= 8
  | Paragraph _ _ _ => True
  end.

(** The plan has the four-level shape of a parsed roadmap. *)
Definition plan_shaped (plan : lesson_plan) : Prop :=
  Forall level1_shaped (map outline_of (lp_topics plan)).

(** The line is a code fence. *)
Definition is_fence (raw : string) : bool := Py.startswith "```" (Py.strip raw).

(** The block at position [i] is [b], and a code block that is open was
    opened later. *)
Definition block_settled (i : nat) (b : block) (wr : writer) : Prop :=
  blocks (doc wr) !! i = Some b
  /\ (in_code_block wr = true -> forall j, code_para wr = Some j -> (i < j)%nat).

(** A character of a text file in ASCII: a line break or a printable
    character. *)
Definition plain_ascii (c : ascii) : bool :=
  let n := N_of_ascii c in ((n =? 10) || (32 <=? n) && (n <=? 126))%N.


(** [k] hash signs. *)
Fixpoint hashes (k : nat) : string :=
  match k with
  | O => EmptyString
  | S k' => String "#" (hashes k')
  end.

(** The stripped line has nothing that [create_docx_from_markdown] reads as
    markup: no fence, heading or list marker at its start, no asterisk, no
    pair of angle brackets, and no name of a marker at its start. *)
Definition no_markup (para : string) : bool :=
  negb (Py.startswith "```" para) && negb (Py.startswith "#" para)
  && negb (Py.startswith "- " para) && negb (Py.contains "*" para)
  && negb (Py.contains "<<" para)
  && negb (Py.startswith "BOLD>>" para) && negb (Py.startswith "ITALIC>>" para).
(** * Properties *)

Set Warnings "-clear-no-such-hyp".

(** ** Strings and trees *)

Lemma append_cons (x : ascii) (a b : string) :
  String x a +:+ b = String x (a +:+ b).
Proof. reflexivity. Qed.

Lemma append_assoc (a b c : string) : (a +:+ b) +:+ c = a +:+ b +:+ c.
Proof.
  induction a as [|x a IH]; [reflexivity|]. now rewrite !append_cons, IH.
Qed.

Lemma append_empty_r (a : string) : a +:+ EmptyString = a.
Proof.
  induction a as [|x a IH]; [reflexivity|]. now rewrite append_cons, IH.
Qed.

Section TreeInduction.

Variable P : topic_data -> Prop.
Hypothesis step : forall id desc s ss sss,
  Forall P s -> Forall P ss -> Forall P sss -> P (TopicData id desc s ss sss).

Lemma topic_data_induction : forall t, P t.
Proof.
  fix IH 1. intros [id desc s ss sss].
  apply step.
  - induction s as [|x l IHl]; constructor; [apply IH | apply IHl].
  - induction ss as [|x l IHl]; constructor; [apply IH | apply IHl].
  - induction sss as [|x l IHl]; constructor; [apply IH | apply IHl].
Qed.

End TreeInduction.

Section PlanInduction.

Variable P : plan_node -> Prop.
Hypothesis step : forall id title content s ss sss,
  Forall P s -> Forall P ss -> Forall P sss ->
  P (PlanNode id title content s ss sss).

Lemma plan_node_induction : forall j, P j.
Proof.
  fix IH 1. intros [id title content s ss sss].
  apply step.
  - induction s as [|x l IHl]; constructor; [apply IH | apply IHl].
  - induction ss as [|x l IHl]; constructor; [apply IH | apply IHl].
  - induction sss as [|x l IHl]; constructor; [apply IH | apply IHl].
Qed.

End PlanInduction.

(** ** The generation cache *)

Section CacheFacts.

Variable model : llm.

Lemma text_hit prompt temp w text :
  generation_cache w !! prompt = Some text ->
  generate_text_from_prompt model prompt temp w = (text, w).
Proof. intros H. unfold generate_text_from_prompt. now rewrite H. Qed.

Lemma text_miss_success prompt temp w text :
  generation_cache w !! prompt = None ->
  model (length (requests w)) prompt (text_config temp) = Some text ->
  generate_text_from_prompt model prompt temp w
  = (Py.strip text, stored prompt (Py.strip text) (sent prompt w)).
Proof.
  intros Hc Hm. unfold generate_text_from_prompt. rewrite Hc. now rewrite Hm.
Qed.

Lemma text_miss_failure prompt temp w :
  generation_cache w !! prompt = None ->
  model (length (requests w)) prompt (text_config temp) = None ->
  generate_text_from_prompt model prompt temp w = (EmptyString, sent prompt w).
Proof.
  intros Hc Hm. unfold generate_text_from_prompt. rewrite Hc. now rewrite Hm.
Qed.

(** Whatever the service answers, a miss sends exactly the prompt. *)
Lemma text_miss_requests prompt temp w :
  generation_cache w !! prompt = None ->
  requests (snd (generate_text_from_prompt model prompt temp w))
  = requests w ++ [prompt].
Proof.
  intros Hc. unfold generate_text_from_prompt. rewrite Hc.
  now destruct (model _ _ _).
Qed.

Lemma text_outcome_content prompt temp w :
  fst (generate_text_from_prompt model prompt temp w)
  = notes_content (text_outcome model prompt temp w).
Proof.
  unfold generate_text_from_prompt, text_outcome.
  destruct (generation_cache w !! prompt); [reflexivity|].
  now destruct (model _ _ _).
Qed.

Lemma text_keeps_calls prompt temp w :
  chunk_calls (snd (generate_text_from_prompt model prompt temp w)) = chunk_calls w.
Proof.
  unfold generate_text_from_prompt.
  destruct (generation_cache w !! prompt); [reflexivity|].
  now destruct (model _ _ _).
Qed.

Variables subject difficulty_level : string.

#[local] Abbreviation chunk :=
  (generate_lesson_plan_chunk model subject difficulty_level).
#[local] Abbreviation chunk_prompt :=
  (build_prompt_with_hierarchy subject difficulty_level).

(** One chunk call: what it returns and what it records. *)
Lemma chunk_call_spec topic ctx depth temp w :
  let o := chunk_outcome model (chunk_prompt topic ctx depth) temp w in
  fst (chunk topic ctx depth temp w) = lesson_content o
  /\ chunk_calls (snd (chunk topic ctx depth temp w))
     = chunk_calls w ++ [LessonChunk (td_id topic) ctx depth o].
Proof.
  unfold generate_lesson_plan_chunk, chunk_outcome.
  destruct (generation_cache w !! _); [now split|].
  destruct (model _ _ _); now split.
Qed.

(** A chunk that the service answers is answered from the cache the second
    time. *)
Lemma chunk_twice topic ctx depth temp temp' w reply :
  generation_cache w !! chunk_prompt topic ctx depth = None ->
  model (length (requests w)) (chunk_prompt topic ctx depth) (chunk_config temp)
  = Some reply ->
  let first := chunk topic ctx depth temp w in
  let second := chunk topic ctx depth temp' (snd first) in
  fst first = Py.replace "*   " "- " (Py.strip reply)
  /\ generation_cache (snd first)
     = <[chunk_prompt topic ctx depth := fst first]> (generation_cache w)
  /\ fst second = fst first
  /\ requests (snd second) = requests w ++ [chunk_prompt topic ctx depth].
Proof.
  intros Hc Hm.
  assert (E : chunk topic ctx depth temp w
              = (Py.replace "*   " "- " (Py.strip reply),
                 called (LessonChunk (td_id topic) ctx depth (Generated reply))
                   (stored (chunk_prompt topic ctx depth)
                      (Py.replace "*   " "- " (Py.strip reply))
                      (sent (chunk_prompt topic ctx depth) w)))).
  { unfold generate_lesson_plan_chunk. now rewrite Hc, Hm. }
  cbv zeta. rewrite E. cbn [fst snd].
  unfold generate_lesson_plan_chunk. cbn [generation_cache called stored sent].
  rewrite lookup_insert_eq. now repeat split.
Qed.

End CacheFacts.



(** C4.  When the service fails on the first call for a prompt that is not
    cached, the call returns the empty string and the cache is unchanged, so
    it still has no entry for the prompt; a second call with the same prompt
    sends the prompt again and returns what the service then answers. *)
Theorem failure_is_not_cached (model : llm) (w : world) (prompt : string)
    (temp temp' : Q) :
  generation_cache w !! prompt = None ->
  model (length (requests w)) prompt (text_config temp) = None ->
  let first := generate_text_from_prompt model prompt temp w in
  let second := generate_text_from_prompt model prompt temp' (snd first) in
  fst first = EmptyString
  /\ generation_cache (snd first) = generation_cache w
  /\ generation_cache (snd first) !! prompt = None
  /\ requests (snd second) = requests w ++ [prompt; prompt]
  /\ fst second
     = match model (S (length (requests w))) prompt (text_config temp') with
       | Some text => Py.strip text
       | None => EmptyString
       end.
Proof.
  intros Hc Hm first second.
  assert (Hfirst : first = (EmptyString, sent prompt w))
    by (apply text_miss_failure; assumption).
  assert (Hlen : length (requests (snd first)) = S (length (requests w))).
  { rewrite Hfirst. simpl. rewrite length_app. simpl. lia. }
  repeat split.
  - now rewrite Hfirst.
  - now rewrite Hfirst.
  - now rewrite Hfirst.
  - unfold second. rewrite text_miss_requests.
    + rewrite Hfirst. simpl. now rewrite <- app_assoc.
    + now rewrite Hfirst.
  - unfold second, generate_text_from_prompt.
    replace (generation_cache (snd first) !! prompt) with (@None string)
      by (rewrite Hfirst; symmetry; exact Hc).
    rewrite Hlen. destruct (model (S _) _ _); reflexivity.
Qed.

Lemma failure_is_not_cached_witness :
  let model : llm := fun n _ _ => if Nat.eqb n 0 then None else Some " late " in
  let first := generate_text_from_prompt model "P" (8 # 10) world_init in
  let second := generate_text_from_prompt model "P" (8 # 10) (snd first) in
  fst first = EmptyString
  /\ generation_cache (snd first) !! "P" = None
  /\ requests (snd second) = ["P"; "P"]
  /\ fst second = "late".
Proof.
  pose proof (failure_is_not_cached
                (fun n _ _ => if Nat.eqb n 0 then None else Some " late ")
                world_init "P" (8 # 10) (8 # 10) (lookup_empty _) eq_refl) as H.
  cbv zeta in H. destruct H as (H1 & _ & H2 & H3 & H4).
  cbv zeta. exact (conj H1 (conj H2 (conj H3 H4))).
Defined.

(** ** The lesson-plan walker *)

Section WalkerFacts.

Variable model : llm.
Variables subject difficulty_level : string.
Variable temp : Q.

#[local] Abbreviation walk :=
  (generate_lesson_plan_chunk_json model subject difficulty_level temp).
#[local] Abbreviation walk_list :=
  (generate_topics model subject difficulty_level temp).

(** The walker in terms of the loop over a list of topics. *)
Lemma walk_unfold t ctx depth w :
  walk t ctx depth w =
  let clc := dict_update [(td_id t, td_description t)] ctx in
  let '(content, w) :=
    generate_lesson_plan_chunk model subject difficulty_level t clc depth temp w in
  let '(subs, w) := walk_list (td_subtopics t) clc (depth + 1) w in
  let '(subsubs, w) := walk_list (td_subsubtopics t) clc (depth + 2) w in
  let '(subsubsubs, w) := walk_list (td_subsubsubtopics t) clc (depth + 3) w in
  (PlanNode (td_id t) (td_description t) content subs subsubs subsubsubs, w).
Proof.
  destruct t as [id desc s ss sss]. simpl.
  set (clc := dict_update [(id, desc)] ctx).
  destruct (generate_lesson_plan_chunk _ _ _ _ clc depth temp w) as [content w1].
  assert (Hfix : forall l d w0,
    (fix walk (d : Z) (l : list topic_data) (w : world) {struct l}
       : list plan_node * world :=
       match l with
       | [] => ([], w)
       | t :: l' =>
           let '(j, w1) := generate_lesson_plan_chunk_json model subject
                             difficulty_level temp t clc d w in
           let '(js, w2) := walk d l' w1 in (j :: js, w2)
       end) d l w0 = walk_list l clc d w0).
  { induction l as [|x l IHl]; intros d w0; [reflexivity|].
    simpl. destruct (walk x clc d w0) as [j w']. now rewrite IHl. }
  rewrite Hfix. destruct (walk_list s clc (depth + 1) w1) as [subs w2].
  rewrite Hfix. destruct (walk_list ss clc (depth + 2) w2) as [subsubs w3].
  rewrite Hfix. reflexivity.
Qed.

Lemma walk_list_correct l :
  Forall (fun t => forall ctx depth w j w',
            walk t ctx depth w = (j, w') -> walk_spec t ctx depth w j w') l ->
  forall ctx depth w js w',
    walk_list l ctx depth w = (js, w') -> walk_list_spec l ctx depth w js w'.
Proof.
  induction 1 as [|t l Ht _ IHl]; intros ctx depth w js w' E.
  - injection E as <- <-. split; [reflexivity|].
    exists []. simpl. now rewrite app_nil_r.
  - simpl in E.
    destruct (walk t ctx depth w) as [j w1] eqn:E1.
    destruct (walk_list l ctx depth w1) as [js' w2] eqn:E2.
    injection E as <- <-.
    destruct (Ht _ _ _ _ _ E1) as (Ho & c1 & Hc1 & Hi1 & Ha1 & Hk1).
    destruct (IHl _ _ _ _ _ E2) as (Hos & c2 & Hc2 & Hi2 & Ha2 & Hk2).
    split; [simpl; now rewrite Ho, Hos|].
    exists (c1 ++ c2). repeat split.
    + now rewrite Hc2, Hc1, app_assoc.
    + simpl. now rewrite !map_app, Hi1, Hi2.
    + simpl. now rewrite !map_app, Ha1, Ha2.
    + simpl. now rewrite !map_app, Hk1, Hk2.
Qed.

Lemma walk_correct t :
  forall ctx depth w j w',
    walk t ctx depth w = (j, w') -> walk_spec t ctx depth w j w'.
Proof.
  induction t as [id desc s ss sss Hs Hss Hsss] using topic_data_induction.
  intros ctx depth w j w' E. rewrite walk_unfold in E. simpl in E.
  set (clc := dict_update [(id, desc)] ctx) in E.
  pose proof (chunk_call_spec model subject difficulty_level
                (TopicData id desc s ss sss) clc depth temp w) as [Hr Hk].
  simpl in Hr, Hk.
  destruct (generate_lesson_plan_chunk _ _ _ _ clc depth temp w) as [content w1].
  simpl in Hr, Hk.
  destruct (walk_list s clc (depth + 1) w1) as [subs w2] eqn:E1.
  destruct (walk_list ss clc (depth + 2) w2) as [subsubs w3] eqn:E2.
  destruct (walk_list sss clc (depth + 3) w3) as [subsubsubs w4] eqn:E3.
  injection E as <- <-.
  destruct (walk_list_correct s Hs _ _ _ _ _ E1) as (H1 & c1 & Hc1 & Hi1 & Ha1 & Hk1).
  destruct (walk_list_correct ss Hss _ _ _ _ _ E2) as (H2 & c2 & Hc2 & Hi2 & Ha2 & Hk2).
  destruct (walk_list_correct sss Hsss _ _ _ _ _ E3) as (H3 & c3 & Hc3 & Hi3 & Ha3 & Hk3).
  split; [simpl; now rewrite H1, H2, H3|].
  eexists (_ :: c1 ++ c2 ++ c3). repeat split.
  - rewrite Hc3, Hc2, Hc1, Hk. rewrite <- !app_assoc. reflexivity.
  - simpl. f_equal. now rewrite !map_app, Hi1, Hi2, Hi3.
  - simpl. fold clc. f_equal. now rewrite !map_app, Ha1, Ha2, Ha3.
  - simpl. rewrite Hr. f_equal. now rewrite !map_app, Hk1, Hk2, Hk3.
Qed.

(** The loop over the topics of a roadmap. *)
Lemma walk_topics_correct l ctx depth w js w' :
  walk_list l ctx depth w = (js, w') -> walk_list_spec l ctx depth w js w'.
Proof.
  apply walk_list_correct. apply Forall_forall. intros t _. apply walk_correct.
Qed.

End WalkerFacts.

(** ** The notes walker *)

Lemma plan_ids_cons x l : plan_ids (x :: l) = plan_ids [x] ++ plan_ids l.
Proof. unfold plan_ids. simpl. now rewrite app_nil_r, map_app. Qed.

Lemma plan_ids_node id title content s ss sss :
  plan_ids [PlanNode id title content s ss sss]
  = id :: plan_ids s ++ plan_ids ss ++ plan_ids sss.
Proof. unfold plan_ids. simpl. now rewrite app_nil_r, !map_app. Qed.

Lemma notes_text_app c1 c2 : notes_text (c1 ++ c2) = notes_text c1 +:+ notes_text c2.
Proof.
  induction c1 as [|c c1 IH]; simpl; [reflexivity|].
  now rewrite IH, !append_assoc.
Qed.

Section NotesFacts.

Variable model : llm.
Variable subject : string.
Variable plan : lesson_plan.
Variables difficulty_level highlighted_text : string.
Variable temp : Q.

#[local] Abbreviation notes_chunk :=
  (generate_lecture_notes_chunk model subject plan difficulty_level highlighted_text temp).
#[local] Abbreviation notes_walk :=
  (generate_notes_recursive model subject plan difficulty_level highlighted_text temp).
#[local] Abbreviation notes_list :=
  (generate_notes_list model subject plan difficulty_level highlighted_text temp).

(** One notes chunk call: what it returns and what it records. *)
Lemma notes_chunk_spec id ctx w :
  exists c, call_id c = id /\ call_context c = ctx
    /\ fst (notes_chunk id ctx w) = call_content c
    /\ chunk_calls (snd (notes_chunk id ctx w)) = chunk_calls w ++ [c].
Proof.
  unfold generate_lecture_notes_chunk.
  set (prompt := create_lecture_notes_prompt _ _ _ _ _ _).
  pose proof (text_outcome_content model prompt temp w) as Hc.
  pose proof (text_keeps_calls model prompt temp w) as Hk.
  destruct (generate_text_from_prompt model prompt temp w) as [text w1].
  simpl in *. eexists (NotesChunk id ctx _ _). repeat split.
  - exact Hc.
  - now rewrite Hk.
Qed.

Lemma notes_unfold data ctx n w :
  notes_walk data ctx (n, w) =
  if decide (pn_id data ∈ processed_ids n) then (n, w)
  else
    let clc := dict_set (dict_update [] ctx) (pn_id data) (pn_title data) in
    let '(topic_content, w1) := notes_chunk (pn_id data) clc w in
    let n1 := Notes (document_text n +:+ topic_content +:+ nl +:+ nl)
                    (item_count n + 1) ({[pn_id data]} ∪ processed_ids n) in
    notes_list (pn_subsubsubtopics data) clc
      (notes_list (pn_subsubtopics data) clc
         (notes_list (pn_subtopics data) clc (n1, w1))).
Proof.
  destruct data as [id title content s ss sss]. simpl.
  destruct (decide (id ∈ processed_ids n)); [reflexivity|].
  set (clc := dict_set (dict_update [] ctx) id title).
  destruct (notes_chunk id clc w) as [text w1].
  assert (Hfix : forall l st,
    (fix walk (l : list plan_node) (s : notes * world) {struct l} : notes * world :=
       match l with
       | [] => s
       | item :: l' =>
           walk l' (generate_notes_recursive model subject plan difficulty_level
                      highlighted_text temp item clc s)
       end) l st = notes_list l clc st).
  { induction l as [|x l IHl]; intros st; [reflexivity|]. simpl. apply IHl. }
  now rewrite !Hfix.
Qed.

Lemma notes_list_cons x l ctx st :
  notes_list (x :: l) ctx st = notes_list l ctx (notes_walk x ctx st).
Proof. reflexivity. Qed.

Lemma notes_list_correct l :
  Forall (fun data => forall ctx n w,
            fresh_ids (plan_ids [data]) n ->
            notes_spec (plan_ids [data]) n w (notes_walk data ctx (n, w))) l ->
  forall ctx n w,
    fresh_ids (plan_ids l) n ->
    notes_spec (plan_ids l) n w (notes_list l ctx (n, w)).
Proof.
  induction 1 as [|data l Hd _ IH]; intros ctx n w [Hnd Hfr].
  - exists []. simpl. rewrite app_nil_r, append_empty_r.
    repeat split; try lia. set_solver.
  - rewrite plan_ids_cons in Hnd, Hfr |- *. rewrite notes_list_cons.
    apply NoDup_app in Hnd as (Hnd1 & Hdisj & Hnd2).
    assert (Hd' := Hd ctx n w). clear Hd.
    destruct (notes_walk data ctx (n, w)) as [n1 w1].
    destruct Hd' as (c1 & Hk1 & Hi1 & Ht1 & Hc1 & Hp1).
    { split; [assumption|]. intros i Hi. apply Hfr, elem_of_app. now left. }
    assert (IH' := IH ctx n1 w1). clear IH.
    destruct (notes_list l ctx (n1, w1)) as [n2 w2].
    destruct IH' as (c2 & Hk2 & Hi2 & Ht2 & Hc2 & Hp2).
    { split; [assumption|]. intros i Hi. rewrite Hp1.
      intros [Hin|Hin]%elem_of_union.
      - apply elem_of_list_to_set in Hin. now apply (Hdisj i).
      - apply (Hfr i); [|assumption]. apply elem_of_app. now right. }
    exists (c1 ++ c2). repeat split.
    + now rewrite Hk2, Hk1, app_assoc.
    + now rewrite map_app, Hi1, Hi2.
    + now rewrite Ht2, Ht1, notes_text_app, append_assoc.
    + rewrite Hc2, Hc1, length_app. lia.
    + rewrite Hp2, Hp1, list_to_set_app_L. set_solver.
Qed.

Lemma notes_walk_correct data :
  forall ctx n w,
    fresh_ids (plan_ids [data]) n ->
    notes_spec (plan_ids [data]) n w (notes_walk data ctx (n, w)).
Proof.
  induction data as [id title content s ss sss Hs Hss Hsss]
    using plan_node_induction.
  intros ctx n w [Hnd Hfr]. rewrite notes_unfold.
  rewrite plan_ids_node in Hnd, Hfr |- *. simpl pn_id. simpl pn_title.
  simpl pn_subtopics. simpl pn_subsubtopics. simpl pn_subsubsubtopics.
  apply NoDup_cons in Hnd as (Hid & Hnd).
  rewrite !elem_of_app in Hid.
  apply NoDup_app in Hnd as (Hn1 & Hd1 & Hnd).
  apply NoDup_app in Hnd as (Hn2 & Hd2 & Hn3).
  destruct (decide (id ∈ processed_ids n)) as [Hin|_].
  { exfalso. apply (Hfr id); [apply elem_of_cons; now left | assumption]. }
  set (clc := dict_set (dict_update [] ctx) id title). cbv zeta.
  destruct (notes_chunk_spec id clc w) as (c & Hci & _ & Hcc & Hck).
  destruct (notes_chunk id clc w) as [text w1]. simpl in Hcc, Hck.
  set (n1 := Notes _ _ _).
  assert (L1 := notes_list_correct s Hs clc n1 w1).
  destruct (notes_list s clc (n1, w1)) as [n2 w2].
  destruct L1 as (c1 & Hk1 & Hi1 & Ht1 & Hc1 & Hp1).
  { split; [assumption|]. intros i Hi. simpl.
    intros [->%elem_of_singleton|Hin]%elem_of_union; [tauto|].
    apply (Hfr i); [|assumption]. rewrite elem_of_cons, !elem_of_app. tauto. }
  simpl in Ht1, Hc1, Hp1.
  assert (L2 := notes_list_correct ss Hss clc n2 w2).
  destruct (notes_list ss clc (n2, w2)) as [n3 w3].
  destruct L2 as (c2 & Hk2 & Hi2 & Ht2 & Hc2 & Hp2).
  { split; [assumption|]. intros i Hi. rewrite Hp1.
    intros [Hin|[->%elem_of_singleton|Hin]%elem_of_union]%elem_of_union.
    - apply elem_of_list_to_set in Hin. apply (Hd1 i Hin), elem_of_app. now left.
    - tauto.
    - apply (Hfr i); [|assumption]. rewrite elem_of_cons, !elem_of_app. tauto. }
  assert (L3 := notes_list_correct sss Hsss clc n3 w3).
  destruct (notes_list sss clc (n3, w3)) as [n4 w4].
  destruct L3 as (c3 & Hk3 & Hi3 & Ht3 & Hc3 & Hp3).
  { split; [assumption|]. intros i Hi. rewrite Hp2, Hp1.
    intros [Hin|[Hin|[->%elem_of_singleton|Hin]%elem_of_union]%elem_of_union]%elem_of_union.
    - apply elem_of_list_to_set in Hin. now apply (Hd2 i Hin).
    - apply elem_of_list_to_set in Hin. apply (Hd1 i Hin), elem_of_app. now right.
    - tauto.
    - apply (Hfr i); [|assumption]. rewrite elem_of_cons, !elem_of_app. tauto. }
  exists (c :: c1 ++ c2 ++ c3). repeat split.
  - rewrite Hk3, Hk2, Hk1, Hck. rewrite <- !app_assoc. reflexivity.
  - simpl. now rewrite !map_app, Hci, Hi1, Hi2, Hi3.
  - rewrite Ht3, Ht2, Ht1. simpl. rewrite !notes_text_app, Hcc, !append_assoc.
    reflexivity.
  - rewrite Hc3, Hc2, Hc1. simpl. rewrite !length_app. lia.
  - rewrite Hp3, Hp2, Hp1. simpl. rewrite !list_to_set_app_L. set_solver.
Qed.

(** The notes traversal on a whole plan. *)
Lemma notes_plan_correct ctx n w :
  fresh_ids (plan_ids (lp_topics plan)) n ->
  notes_spec (plan_ids (lp_topics plan)) n w (notes_list (lp_topics plan) ctx (n, w)).
Proof.
  apply notes_list_correct. apply Forall_forall. intros data _.
  apply notes_walk_correct.
Qed.

End NotesFacts.

(** ** Failed chunks *)




(** ** Depths *)

Section DepthsOfShapedTrees.

Context {A : Type} (g h : Z -> A) (d0 : Z).
Hypothesis at1 : g d0 = h 1.
Hypothesis at2 : g (d0 + 1) = h 2.
Hypothesis at3 : g (d0 + 1 + 2) = h 3.
Hypothesis at4 : g (d0 + 1 + 2 + 3) = h 4.

Lemma views_of_list (P : topic_data -> Prop) d level l :
  (forall t ctx, P t ->
     map (depth_view g) (walker_arguments ctx d t)
     = map (level_view h) (nesting_levels level t)) ->
  Forall P l ->
  forall ctx,
    map (depth_view g) (flat_map (walker_arguments ctx d) l)
    = map (level_view h) (flat_map (nesting_levels level) l).
Proof.
  intros Hone Hall ctx. induction Hall as [|t l Ht _ IH]; [reflexivity|].
  simpl. now rewrite !map_app, IH, (Hone t ctx Ht).
Qed.

Lemma views_level4 t ctx :
  level4_shaped t ->
  map (depth_view g) (walker_arguments ctx (d0 + 1 + 2 + 3) t)
  = map (level_view h) (nesting_levels 4 t).
Proof.
  destruct t as [id desc s ss sss]. unfold level4_shaped. simpl.
  intros (-> & -> & ->). simpl.
  unfold depth_view, level_view. simpl. now rewrite at4.
Qed.

Lemma views_level3 t ctx :
  level3_shaped t ->
  map (depth_view g) (walker_arguments ctx (d0 + 1 + 2) t)
  = map (level_view h) (nesting_levels 3 t).
Proof.
  destruct t as [id desc s ss sss]. unfold level3_shaped. simpl.
  intros (-> & -> & Hsss). simpl.
  unfold depth_view at 1, level_view at 1. simpl. rewrite at3. f_equal.
  apply (views_of_list level4_shaped); [|assumption].
  intros; now apply views_level4.
Qed.

Lemma views_level2 t ctx :
  level2_shaped t ->
  map (depth_view g) (walker_arguments ctx (d0 + 1) t)
  = map (level_view h) (nesting_levels 2 t).
Proof.
  destruct t as [id desc s ss sss]. unfold level2_shaped. simpl.
  intros (-> & -> & Hss). simpl.
  unfold depth_view at 1, level_view at 1. simpl. rewrite at2. f_equal.
  rewrite !app_nil_r.
  apply (views_of_list level3_shaped); [|assumption].
  intros; now apply views_level3.
Qed.

Lemma views_level1 t ctx :
  level1_shaped t ->
  map (depth_view g) (walker_arguments ctx d0 t)
  = map (level_view h) (nesting_levels 1 t).
Proof.
  destruct t as [id desc s ss sss]. unfold level1_shaped. simpl.
  intros (-> & -> & Hs). simpl.
  unfold depth_view at 1, level_view at 1. simpl. rewrite at1. f_equal.
  rewrite !app_nil_r.
  apply (views_of_list level2_shaped); [|assumption].
  intros; now apply views_level2.
Qed.

End DepthsOfShapedTrees.

(** From depth 3 on the instruction is the same. *)
Lemma focus_line_deep (d e : Z) : 3 <= d -> 3 <= e -> focus_line d = focus_line e.
Proof.
  intros Hd He. unfold focus_line.
  destruct (Z.eqb_spec d 1); [lia|]. destruct (Z.eqb_spec d 2); [lia|].
  destruct (Z.eqb_spec e 1); [lia|]. destruct (Z.eqb_spec e 2); [lia|].
  destruct (Z.leb_spec 3 d); [|lia]. destruct (Z.leb_spec 3 e); [|lia].
  reflexivity.
Qed.

Lemma call_depths_of_arguments calls args :
  map lesson_arguments calls = map Some args ->
  call_depths calls = map (depth_view (fun d => d)) args.
Proof.
  revert args. induction calls as [|c calls IH]; intros [|a args] H;
    try discriminate; [reflexivity|].
  simpl in H. injection H as Hc Hrest.
  unfold call_depths. simpl. fold (call_depths calls). rewrite (IH _ Hrest).
  destruct c as [id ctx depth o|]; [|discriminate].
  injection Hc as <-. reflexivity.
Qed.

(** ** The shape of a parsed roadmap *)

Lemma has_key_grow st e a k : has_key st a k -> has_key (st ++ [e]) a k.
Proof.
  intros (e' & Hl & Hk). exists e'. split; [|assumption].
  now apply lookup_app_l_Some.
Qed.

Lemma has_key_new st e : has_key (st ++ [e]) (length st) (e_key e).
Proof. exists e. split; [|reflexivity]. apply list_lookup_middle. reflexivity. Qed.

Lemma has_key_append_child st t c a k :
  has_key st a k -> has_key (append_child st t c) a k.
Proof.
  intros (e & Hl & Hk). unfold append_child.
  destruct (decide (t = a)) as [->|Hne].
  - eexists. rewrite list_lookup_alter_eq, Hl. simpl. split; [reflexivity|assumption].
  - exists e. now rewrite list_lookup_alter_ne.
Qed.

Lemma entry_ok_mono st st' e :
  (forall a k, has_key st a k -> has_key st' a k) ->
  entry_ok st e -> entry_ok st' e.
Proof.
  intros Hm. unfold entry_ok. destruct (next_key _); [|auto].
  intros H. eapply Forall_impl; [exact H|]. intros; now apply Hm.
Qed.

Lemma store_ok_grow st e :
  (forall a e0, st !! a = Some e0 -> entry_ok st e0) ->
  e_children e = [] ->
  forall a e0, (st ++ [e]) !! a = Some e0 -> entry_ok (st ++ [e]) e0.
Proof.
  intros Hst He a e0 Hl.
  apply lookup_snoc_Some in Hl as [[_ Hl]|[_ <-]].
  - eapply entry_ok_mono; [|eapply Hst, Hl]. intros; now apply has_key_grow.
  - unfold entry_ok. rewrite He. destruct (next_key _); constructor.
Qed.

Lemma store_ok_append_child st t c k k' :
  (forall a e0, st !! a = Some e0 -> entry_ok st e0) ->
  has_key st t k -> next_key k = Some k' -> has_key st c k' ->
  forall a e0, append_child st t c !! a = Some e0 ->
               entry_ok (append_child st t c) e0.
Proof.
  intros Hst (et & Hlt & Hkt) Hn Hc a e0 Hl.
  unfold append_child in Hl.
  destruct (decide (t = a)) as [->|Hne].
  - rewrite list_lookup_alter_eq, Hlt in Hl. simpl in Hl. injection Hl as <-.
    unfold entry_ok. simpl. rewrite Hkt, Hn.
    apply Forall_app. split.
    + specialize (Hst _ _ Hlt). unfold entry_ok in Hst. rewrite Hkt, Hn in Hst.
      eapply Forall_impl; [exact Hst|]. intros; now apply has_key_append_child.
    + constructor; [|constructor]. now apply has_key_append_child.
  - rewrite list_lookup_alter_ne in Hl by assumption.
    eapply entry_ok_mono; [|eapply Hst, Hl]. intros; now apply has_key_append_child.
Qed.

Lemma parser_init_ok : parser_ok parser_init.
Proof. repeat split; simpl; try constructor; try discriminate. Qed.

(** The effect of a line that opens an entry at one of the lower levels:
    the entry is stored, and hung under [parent] if there is one. *)
Lemma attach_ok st parent e k :
  (forall a e0, st !! a = Some e0 -> entry_ok st e0) ->
  e_children e = [] ->
  next_key k = Some (e_key e) ->
  (forall t, parent = Some t -> has_key st t k) ->
  let st' := match parent with
             | Some t => append_child (st ++ [e]) t (length st)
             | None => st ++ [e]
             end in
  (forall a e0, st' !! a = Some e0 -> entry_ok st' e0)
  /\ (forall a k0, has_key st a k0 -> has_key st' a k0)
  /\ has_key st' (length st) (e_key e).
Proof.
  intros Hst He Hn Hp. destruct parent as [t|]; simpl.
  - repeat split.
    + eapply store_ok_append_child; [now apply store_ok_grow| | exact Hn | apply has_key_new].
      apply has_key_grow; now apply Hp.
    + intros; now apply has_key_append_child, has_key_grow.
    + apply has_key_append_child, has_key_new.
  - repeat split.
    + now apply store_ok_grow.
    + intros; now apply has_key_grow.
    + apply has_key_new.
Qed.

Lemma parse_line_ok line p : parser_ok p -> parser_ok (parse_line line p).
Proof.
  intros (Hst & Htop & H1 & H2 & H3). unfold parse_line.
  destruct (groups2 _) as [[a desc]|].
  { repeat split; simpl.
    - now apply store_ok_grow.
    - apply Forall_app. split.
      + eapply Forall_impl; [exact Htop|]. intros; now apply has_key_grow.
      + constructor; [|constructor].
        apply (has_key_new _ (Entry _ _ Subtopics [])).
    - intros ? [= <-]. apply (has_key_new _ (Entry _ _ Subtopics [])).
    - discriminate.
    - discriminate. }
  destruct (groups3 _) as [[[a b] desc]|].
  { destruct (attach_ok (store p) (current_topic p)
                (Entry (path_id [a; b]) desc Subsubtopics []) Subtopics Hst
                eq_refl eq_refl H1) as (Ha & Hb & Hc).
    repeat split; simpl.
    - exact Ha.
    - eapply Forall_impl; [exact Htop|]. intros; now apply Hb.
    - intros; apply Hb; auto.
    - intros ? [= <-]. exact Hc.
    - discriminate. }
  destruct (groups4 _) as [[[[a b] c] desc]|].
  { destruct (attach_ok (store p) (current_subtopic p)
                (Entry (path_id [a; b; c]) desc Subsubsubtopics []) Subsubtopics Hst
                eq_refl eq_refl H2) as (Ha & Hb & Hc).
    repeat split; simpl.
    - exact Ha.
    - eapply Forall_impl; [exact Htop|]. intros; now apply Hb.
    - intros; apply Hb; auto.
    - intros; apply Hb; auto.
    - intros ? [= <-]. exact Hc. }
  destruct (groups5 _) as [[[[[a b] c] d] desc]|].
  { destruct (attach_ok (store p) (current_subsubtopic p)
                (Entry (path_id [a; b; c; d]) desc Details []) Subsubsubtopics Hst
                eq_refl eq_refl H3) as (Ha & Hb & Hc).
    repeat split; simpl.
    - exact Ha.
    - eapply Forall_impl; [exact Htop|]. intros; now apply Hb.
    - intros; apply Hb; auto.
    - intros; apply Hb; auto.
    - intros; apply Hb; auto. }
  repeat split; simpl; assumption.
Qed.

Lemma parse_lines_ok lines p : parser_ok p -> parser_ok (parse_lines lines p).
Proof.
  revert p. unfold parse_lines.
  induction lines as [|raw lines IH]; intros p Hp; [assumption|].
  simpl. apply IH. unfold parse_step.
  destruct (Py.truthy _); [now apply parse_line_ok | assumption].
Qed.

Lemma read_entry_step f st a :
  read_entry (S f) st a =
  match st !! a with
  | Some e =>
      let below := map (read_entry f st) (e_children e) in
      match e_key e with
      | Subtopics => TopicData (e_id e) (e_description e) below [] []
      | Subsubtopics => TopicData (e_id e) (e_description e) [] below []
      | Subsubsubtopics => TopicData (e_id e) (e_description e) [] [] below
      | Details => TopicData (e_id e) (e_description e) [] [] []
      end
  | None => TopicData EmptyString EmptyString [] [] []
  end.
Proof. reflexivity. Qed.

Section ShapeOfStoredTrees.

Variable st : list entry.
Hypothesis Hst : forall a e, st !! a = Some e -> entry_ok st e.

Lemma read_below (P : topic_data -> Prop) f k children :
  (forall c, has_key st c k -> P (read_entry f st c)) ->
  Forall (fun c => has_key st c k) children ->
  Forall P (map (read_entry f st) children).
Proof.
  intros HP H. apply Forall_map. eapply Forall_impl; [exact H|]. exact HP.
Qed.

Lemma read_level4 f a :
  has_key st a Details -> level4_shaped (read_entry (S f) st a).
Proof.
  intros (e & Hl & Hk). rewrite read_entry_step, Hl, Hk. now repeat split.
Qed.

Lemma read_level3 f a :
  has_key st a Subsubsubtopics -> level3_shaped (read_entry (S (S f)) st a).
Proof.
  intros (e & Hl & Hk). pose proof (Hst _ _ Hl) as He.
  unfold entry_ok in He. rewrite Hk in He. simpl in He.
  rewrite read_entry_step, Hl, Hk. repeat split.
  eapply read_below; [|exact He]. intros; now apply read_level4.
Qed.

Lemma read_level2 f a :
  has_key st a Subsubtopics -> level2_shaped (read_entry (S (S (S f))) st a).
Proof.
  intros (e & Hl & Hk). pose proof (Hst _ _ Hl) as He.
  unfold entry_ok in He. rewrite Hk in He. simpl in He.
  rewrite read_entry_step, Hl, Hk. repeat split.
  eapply read_below; [|exact He]. intros; now apply read_level3.
Qed.

Lemma read_level1 f a :
  has_key st a Subtopics -> level1_shaped (read_entry (S (S (S (S f)))) st a).
Proof.
  intros (e & Hl & Hk). pose proof (Hst _ _ Hl) as He.
  unfold entry_ok in He. rewrite Hk in He. simpl in He.
  rewrite read_entry_step, Hl, Hk. repeat split.
  eapply read_below; [|exact He]. intros; now apply read_level2.
Qed.

End ShapeOfStoredTrees.

(** Every tree of a parsed roadmap has the four-level shape. *)
Lemma parse_roadmap_shaped text : Forall level1_shaped (parse_roadmap text).
Proof.
  unfold parse_roadmap, roadmap_of.
  destruct (parse_lines_ok (Py.split nl text) parser_init parser_init_ok)
    as (Hst & Htop & _).
  apply Forall_map. eapply Forall_impl; [exact Htop|].
  intros a Ha. now apply read_level1.
Qed.

(** C8, as the claim states it, fails at the third level: with root depth 1
    the sub-subtopic of a three-level roadmap is generated with depth 4, not
    with the root depth plus its level minus 1. *)
Lemma depth_is_not_parent_plus_one :
  let model : llm := fun _ _ _ => None in
  let text := "T1: A" +:+ nl +:+ "T1.1: B" +:+ nl +:+ "T1.1.1: C" in
  let r := generate_lesson_plan_recursive model "Maths" "Btech" (7 # 10)
             text [] 1 world_init in
  call_depths (chunk_calls (snd r)) = [("T1", 1); ("T1.1", 2); ("T1.1.1", 4)]
  /\ call_depths (chunk_calls (snd r))
     <> map (level_view (depth_by_level 1))
            (flat_map (nesting_levels 1) (parse_roadmap text)).
Proof. cbv zeta. split; [vm_compute; reflexivity | vm_compute; discriminate]. Qed.

(** C8.  On the roadmap parsed from any text, started at any root depth from
    1 on, the walker calls the chunk generator with the arguments
    [walker_arguments] lists: into [subtopics] the depth grows by 1, into
    [subsubtopics] by 2, into [subsubsubtopics] by 3.  A node at nesting
    level 1, 2, 3, 4 is therefore generated with the root depth plus 0, 1,
    3, 6, and the instruction its prompt gets is still the one of the root
    depth plus its level minus 1. *)
Theorem walker_depth_follows_keys (model : llm) (subject difficulty_level : string)
    (temp : Q) (text : string) (ctx : context) (depth : Z) (w : world) :
  1 <= depth ->
  let r := generate_lesson_plan_recursive model subject difficulty_level temp
             text ctx depth w in
  let levels := flat_map (nesting_levels 1) (parse_roadmap text) in
  exists calls,
    chunk_calls (snd r) = chunk_calls w ++ calls
    /\ map lesson_arguments calls
       = map Some (flat_map (walker_arguments ctx depth) (parse_roadmap text))
    /\ call_depths calls
       = map (level_view (fun level => depth + level_offset level)) levels
    /\ map (fun c => (fst c, focus_line (snd c))) (call_depths calls)
       = map (level_view (fun level => focus_line (depth_by_level depth level)))
             levels.
Proof.
  intros Hd r levels. unfold r, generate_lesson_plan_recursive.
  destruct (generate_topics _ _ _ _ _ _ _ _) as [js w'] eqn:E.
  apply walk_topics_correct in E as (_ & calls & Hk & _ & Ha & _).
  exists calls. cbn [snd]. split; [exact Hk|]. split; [exact Ha|].
  rewrite (call_depths_of_arguments _ _ Ha). split.
  - apply (views_of_list (fun d => d) _ level1_shaped);
      [|apply parse_roadmap_shaped].
    intros t c Ht. apply views_level1; try assumption; unfold level_offset; simpl; lia.
  - rewrite map_map.
    apply (views_of_list focus_line
             (fun level => focus_line (depth_by_level depth level)) level1_shaped);
      [|apply parse_roadmap_shaped].
    intros t c Ht. apply views_level1; try assumption; unfold depth_by_level.
    + f_equal. lia.
    + f_equal. lia.
    + apply focus_line_deep; lia.
    + apply focus_line_deep; lia.
Qed.

Lemma walker_depth_follows_keys_witness :
  let model : llm := fun _ _ _ => None in
  let text := "T1: A" +:+ nl +:+ "T1.1: B" +:+ nl +:+ "T1.1.1: C" in
  let r := generate_lesson_plan_recursive model "Maths" "Btech" (7 # 10)
             text [] 2 world_init in
  exists calls,
    chunk_calls (snd r) = chunk_calls world_init ++ calls
    /\ call_depths calls
       = map (level_view (fun level => 2 + level_offset level))
             (flat_map (nesting_levels 1) (parse_roadmap text)).
Proof.
  pose proof (walker_depth_follows_keys (fun _ _ _ => None) "Maths" "Btech" (7 # 10)
                ("T1: A" +:+ nl +:+ "T1.1: B" +:+ nl +:+ "T1.1.1: C") [] 2
                world_init ltac:(lia)) as H.
  cbv zeta in H. destruct H as (calls & H1 & _ & H2 & _).
  cbv zeta. exists calls. exact (conj H1 H2).
Defined.

(** ** The context a node is generated with *)

Lemma dict_set_keeps {V} (d : dict V) k k' (v : V) :
  is_Some (dict_get d k) -> is_Some (dict_get (dict_set d k' v) k).
Proof.
  induction d as [|[k0 v0] d IH]; simpl; intros H.
  - destruct H as [? H]. discriminate.
  - destruct (String.eqb k0 k') eqn:E'; simpl;
      destruct (String.eqb k0 k) eqn:E; eauto.
Qed.

Lemma dict_update_keeps {V} (other d : dict V) k :
  is_Some (dict_get d k) -> is_Some (dict_get (dict_update d other) k).
Proof.
  unfold dict_update. revert d.
  induction other as [|[k' v'] other IH]; intros d H; [assumption|].
  simpl. apply IH. now apply dict_set_keeps.
Qed.

(** In every chunk call of the lesson-plan walker the topic's own id is a
    key of the context the call is given as the context of its parents. *)
Lemma own_id_in_walker_context t :
  forall ctx depth,
    Forall (fun a => is_Some (dict_get (snd (fst a)) (fst (fst a))))
           (walker_arguments ctx depth t).
Proof.
  induction t as [id desc s ss sss Hs Hss Hsss] using topic_data_induction.
  intros ctx depth. simpl. constructor.
  - simpl. apply dict_update_keeps. simpl. rewrite String.eqb_refl. eauto.
  - assert (Hl : forall l d c,
               Forall (fun t => forall ctx depth,
                         Forall (fun a => is_Some (dict_get (snd (fst a)) (fst (fst a))))
                                (walker_arguments ctx depth t)) l ->
               Forall (fun a => is_Some (dict_get (snd (fst a)) (fst (fst a))))
                      (flat_map (walker_arguments c d) l)).
    { intros l d c H. induction H as [|x l Hx _ IH]; simpl; [constructor|].
      apply Forall_app. split; [apply Hx | exact IH]. }
    rewrite !Forall_app. repeat split; now apply Hl.
Qed.

Lemma dict_set_has {V} (d : dict V) k (v : V) : is_Some (dict_get (dict_set d k v) k).
Proof.
  induction d as [|[k0 v0] d IH]; simpl.
  - rewrite String.eqb_refl. eauto.
  - destruct (String.eqb k0 k) eqn:E; simpl; rewrite E; eauto.
Qed.

Lemma own_id_of_arguments calls args :
  map lesson_arguments calls = map Some args ->
  Forall (fun a => is_Some (dict_get (snd (fst a)) (fst (fst a)))) args ->
  Forall own_id_in_context calls.
Proof.
  revert args. induction calls as [|c calls IH]; intros [|a args] H Hargs;
    try discriminate; constructor.
  - simpl in H. injection H as Hc _. apply Forall_cons in Hargs as [Ha _].
    destruct c as [id ctx depth o|]; [|discriminate].
    injection Hc as <-. exact Ha.
  - simpl in H. injection H as _ Hrest. apply Forall_cons in Hargs as [_ Hargs].
    now apply (IH args).
Qed.

Section NotesContexts.

Variable model : llm.
Variable subject : string.
Variable plan : lesson_plan.
Variables difficulty_level highlighted_text : string.
Variable temp : Q.

#[local] Abbreviation notes_walk :=
  (generate_notes_recursive model subject plan difficulty_level highlighted_text temp).
#[local] Abbreviation notes_list :=
  (generate_notes_list model subject plan difficulty_level highlighted_text temp).

Lemma notes_list_own l :
  Forall (fun data => forall ctx n w,
            adds_own_contexts w (notes_walk data ctx (n, w))) l ->
  forall ctx n w, adds_own_contexts w (notes_list l ctx (n, w)).
Proof.
  induction 1 as [|data l Hd _ IH]; intros ctx n w.
  - exists []. split; [simpl; now rewrite app_nil_r | constructor].
  - rewrite notes_list_cons.
    destruct (Hd ctx n w) as (c1 & Hk1 & Ho1).
    destruct (notes_walk data ctx (n, w)) as [n1 w1].
    destruct (IH ctx n1 w1) as (c2 & Hk2 & Ho2).
    exists (c1 ++ c2). split.
    + rewrite Hk2. simpl in Hk1. now rewrite Hk1, app_assoc.
    + apply Forall_app. now split.
Qed.

Lemma notes_walk_own data :
  forall ctx n w, adds_own_contexts w (notes_walk data ctx (n, w)).
Proof.
  induction data as [id title content s ss sss Hs Hss Hsss]
    using plan_node_induction.
  intros ctx n w. rewrite notes_unfold.
  simpl pn_id. simpl pn_title.
  simpl pn_subtopics. simpl pn_subsubtopics. simpl pn_subsubsubtopics.
  destruct (decide (id ∈ processed_ids n)) as [_|_].
  { exists []. split; [simpl; now rewrite app_nil_r | constructor]. }
  set (clc := dict_set (dict_update [] ctx) id title). cbv zeta.
  destruct (notes_chunk_spec model subject plan difficulty_level highlighted_text
              temp id clc w) as (c & Hci & Hcx & _ & Hck).
  destruct (generate_lecture_notes_chunk _ _ _ _ _ _ id clc w) as [text w1].
  simpl in Hck. set (n1 := Notes _ _ _).
  destruct (notes_list_own s Hs clc n1 w1) as (c1 & Hk1 & Ho1).
  destruct (notes_list s clc (n1, w1)) as [n2 w2].
  destruct (notes_list_own ss Hss clc n2 w2) as (c2 & Hk2 & Ho2).
  destruct (notes_list ss clc (n2, w2)) as [n3 w3].
  destruct (notes_list_own sss Hsss clc n3 w3) as (c3 & Hk3 & Ho3).
  simpl in Hk1, Hk2.
  exists (c :: c1 ++ c2 ++ c3). split.
  - rewrite Hk3, Hk2, Hk1, Hck. rewrite <- !app_assoc. reflexivity.
  - constructor; [|rewrite !Forall_app; tauto].
    unfold own_id_in_context. rewrite Hci, Hcx. apply dict_set_has.
Qed.

End NotesContexts.

(** C2.  Both walkers hand each node its outgoing context.  In the
    lesson-plan stage, on the roadmap parsed from any text, the chunk
    generator is called once per topic and every call gets a context with
    the topic's own id as a key; in the notes stage every chunk call of the
    traversal of any plan gets a context with the node's own id as a key.
    At the tree T1 with the children T1.1 and T1.2 the node's own id and
    description stand in the context of its own prompt, first in the
    lesson-plan stage and last in the notes stage, and every prompt sent
    lists the node itself under the heading for its parents.  No sibling
    appears. *)
Theorem own_entry_in_parent_context :
  (forall (model : llm) (subject difficulty_level : string) (temp : Q)
          (text : string) (ctx : context) (depth : Z) (w : world),
      exists calls,
        chunk_calls (snd (generate_lesson_plan_recursive model subject
                            difficulty_level temp text ctx depth w))
        = chunk_calls w ++ calls
        /\ map call_id calls = map td_id (flat_map topic_nodes (parse_roadmap text))
        /\ Forall own_id_in_context calls)
  /\ (forall (model : llm) (subject : string) (plan : lesson_plan)
             (difficulty_level highlighted_text : string) (temp : Q)
             (fresh : document) (w : world),
        exists calls,
          chunk_calls (snd (create_detailed_notes_recursive model subject plan
                              difficulty_level highlighted_text temp fresh w))
          = chunk_calls w ++ calls
          /\ Forall own_id_in_context calls)
  /\
  let model : llm := fun _ _ _ => Some "ok" in
  let text := "T1: A" +:+ nl +:+ "T1.1: B" +:+ nl +:+ "T1.2: C" in
  let lesson := generate_lesson_plan_recursive model "Maths" "Btech" (7 # 10)
                  text [] 1 world_init in
  let notes := create_detailed_notes_recursive model "Maths" (fst lesson) "Btech"
                 "[]" (8 # 10) (Document 164 []) world_init in
  call_contexts (chunk_calls (snd lesson))
  = [("T1", [("T1", "A")]);
     ("T1.1", [("T1.1", "B"); ("T1", "A")]);
     ("T1.2", [("T1.2", "C"); ("T1", "A")])]
  /\ call_contexts (chunk_calls (snd notes))
     = [("T1", [("T1", "A")]);
        ("T1.1", [("T1", "A"); ("T1.1", "B")]);
        ("T1.2", [("T1", "A"); ("T1.2", "C")])]
  /\ map (fun own_and_prompt =>
            Py.contains ("**Context from Parent Topics:**" +:+ nl
                         +:+ "  - **" +:+ fst own_and_prompt +:+ ":** ")
                        (snd own_and_prompt))
         (combine ["T1"; "T1.1"; "T1.2"] (requests (snd lesson)))
     = [true; true; true]
  /\ map (fun own_and_prompt =>
            Py.contains ("  - **" +:+ fst own_and_prompt +:+ ":** ")
                        (snd own_and_prompt))
         (combine ["T1"; "T1.1"; "T1.2"] (requests (snd notes)))
     = [true; true; true].
Proof.
  split; [|split].
  - intros model subject difficulty_level temp text ctx depth w.
    unfold generate_lesson_plan_recursive.
    destruct (generate_topics _ _ _ _ _ _ _ _) as [js w'] eqn:E.
    apply walk_topics_correct in E as (_ & calls & Hk & Hi & Ha & _).
    exists calls. cbn [snd]. split; [exact Hk|]. split; [exact Hi|].
    apply (own_id_of_arguments _ _ Ha).
    apply Forall_flat_map, Forall_forall. intros t _.
    apply own_id_in_walker_context.
  - intros model subject plan difficulty_level highlighted_text temp fresh w.
    unfold create_detailed_notes_recursive.
    pose proof (notes_list_own model subject plan difficulty_level highlighted_text
                  temp (lp_topics plan)) as H.
    destruct (H ltac:(apply Forall_forall; intros data _; apply notes_walk_own)
                [] (Notes EmptyString 0 ∅) w) as (calls & Hk & Ho).
    destruct (generate_notes_list _ _ _ _ _ _ _ _ _) as [n w'].
    exists calls. now split.
  - cbv zeta. repeat split; vm_compute; reflexivity.
Qed.

(** ** Lines the parser does not take *)

Lemma parse_line_unmatched line p :
  line_path line = None ->
  parse_line line p
  = Parser (store p) (topics p) (current_topic p) (current_subtopic p)
           (current_subsubtopic p) (current_subsubsubtopic p)
           (warnings p ++ ["Warning: Could not parse line: " +:+ line]).
Proof.
  unfold line_path, parse_line.
  destruct (groups2 _) as [[? ?]|]; [discriminate|].
  destruct (groups3 _) as [[[? ?] ?]|]; [discriminate|].
  destruct (groups4 _) as [[[[? ?] ?] ?]|]; [discriminate|].
  destruct (groups5 _) as [[[[[? ?] ?] ?] ?]|]; [discriminate|].
  reflexivity.
Qed.

(** What a line with a path does to the store: it adds one entry, hung
    under the tracked parent if the level has one.  The numbers of the path
    decide nothing but the id. *)
Lemma parse_line_matched line p numbers :
  line_path line = Some numbers ->
  exists e,
    e_id e = path_id numbers /\ e_children e = []
    /\ warnings (parse_line line p) = warnings p
    /\ match numbers with
       | [_] =>
           store (parse_line line p) = store p ++ [e]
           /\ topics (parse_line line p) = topics p ++ [length (store p)]
       | _ =>
           topics (parse_line line p) = topics p
           /\ store (parse_line line p)
              = match tracked_parent p (length numbers) with
                | Some t => append_child (store p ++ [e]) t (length (store p))
                | None => store p ++ [e]
                end
       end.
Proof.
  unfold line_path, parse_line.
  destruct (groups2 _) as [[? ?]|].
  { intros [= <-]. eexists (Entry _ _ _ []). simpl. repeat split; reflexivity. }
  destruct (groups3 _) as [[[? ?] ?]|].
  { intros [= <-]. eexists (Entry _ _ _ []). simpl. repeat split; reflexivity. }
  destruct (groups4 _) as [[[[? ?] ?] ?]|].
  { intros [= <-]. eexists (Entry _ _ _ []). simpl. repeat split; reflexivity. }
  destruct (groups5 _) as [[[[[? ?] ?] ?] ?]|].
  { intros [= <-]. eexists (Entry _ _ _ []). simpl. repeat split; reflexivity. }
  discriminate.
Qed.

Lemma line_path_truthy line numbers :
  line_path line = Some numbers -> Py.truthy line = true.
Proof. destruct line; [discriminate | reflexivity]. Qed.

(** The warnings do not steer the parser. *)
Lemma parse_step_same_tracking p q raw :
  same_tracking p q -> same_tracking (parse_step p raw) (parse_step q raw).
Proof.
  destruct p, q. unfold same_tracking. simpl.
  intros (-> & -> & -> & -> & -> & ->).
  unfold parse_step. destruct (Py.truthy _); [|now repeat split].
  unfold parse_line. simpl.
  destruct (groups2 _) as [[? ?]|]; [now repeat split|].
  destruct (groups3 _) as [[[? ?] ?]|]; [now repeat split|].
  destruct (groups4 _) as [[[[? ?] ?] ?]|]; [now repeat split|].
  destruct (groups5 _) as [[[[[? ?] ?] ?] ?]|]; now repeat split.
Qed.

Lemma parse_lines_same_tracking lines p q :
  same_tracking p q -> same_tracking (parse_lines lines p) (parse_lines lines q).
Proof.
  revert p q. unfold parse_lines.
  induction lines as [|raw lines IH]; intros p q H; [assumption|].
  simpl. apply IH. now apply parse_step_same_tracking.
Qed.

Lemma parse_lines_app l1 l2 p :
  parse_lines (l1 ++ l2) p = parse_lines l2 (parse_lines l1 p).
Proof. unfold parse_lines. apply fold_left_app. Qed.

Lemma unmatched_step_same_tracking p raw :
  line_path (Py.strip raw) = None -> same_tracking (parse_step p raw) p.
Proof.
  intros H. unfold parse_step. destruct (Py.truthy _); [|now repeat split].
  rewrite (parse_line_unmatched _ _ H). now repeat split.
Qed.

(** Reading a tree does not look at entries stored later. *)
Lemma read_entry_grow st e :
  (forall a e0, st !! a = Some e0 -> entry_ok st e0) ->
  forall fuel a, (a < length st)%nat ->
    read_entry fuel (st ++ [e]) a = read_entry fuel st a.
Proof.
  intros Hst. induction fuel as [|f IH]; intros a Ha; [reflexivity|].
  rewrite !read_entry_step, lookup_app_l by assumption.
  destruct (st !! a) as [e0|] eqn:El; [|reflexivity].
  assert (Hc : Forall (fun c => (c < length st)%nat) (e_children e0)).
  { specialize (Hst _ _ El). unfold entry_ok in Hst.
    destruct (next_key _).
    - eapply Forall_impl; [exact Hst|]. intros child (e1 & H1 & _).
      now apply lookup_lt_Some in H1.
    - rewrite Hst. constructor. }
  assert (Hm : map (read_entry f (st ++ [e])) (e_children e0)
               = map (read_entry f st) (e_children e0)).
  { induction Hc as [|child l Hlt _ IHl]; [reflexivity|]. cbn [map].
    now rewrite IH, IHl. }
  cbv zeta. now rewrite Hm.
Qed.

Lemma roadmap_of_grow p e :
  parser_ok p ->
  map (read_entry 5 (store p ++ [e])) (topics p) = roadmap_of p.
Proof.
  intros (Hst & Htop & _). unfold roadmap_of.
  induction Htop as [|a l (e0 & Ha & _) _ IH]; [reflexivity|].
  cbn [map]. rewrite IH. f_equal. apply read_entry_grow; [assumption|].
  now apply lookup_lt_Some in Ha.
Qed.

(** C5, as the claim states it, fails on a line whose numbers do not
    continue the tracked path: after [T1: A], the line [T2.1: B] is not
    skipped, it becomes a subtopic of T1. *)
Lemma misaligned_line_is_not_skipped :
  let p := parse_lines ["T1: A"] parser_init in
  let line := "T2.1: B" in
  path_aligned p line = false
  /\ roadmap_of (parse_line line p)
     = [TopicData "T1" "A" [TopicData "T2.1" "B" [] [] []] [] []]
  /\ roadmap_of (parse_line line p) <> roadmap_of p.
Proof.
  cbv zeta. repeat split; [vm_compute; reflexivity .. | vm_compute; discriminate].
Qed.

(** C5.  After any lines, a line that matches no pattern only adds a
    warning, and the roadmap of the whole text is the one of the text without
    that line.  A line of the second to fourth level, when no entry of the
    level above is tracked, is stored but hung nowhere: the roadmap stays as
    it was, and no warning is given.  When an entry of the level above is
    tracked the line is hung under it, whatever its numbers.  The three-line
    text of the claim gives the top-level nodes A and C, with B under A. *)
Theorem parser_skips_unmatched_and_orphan_lines
    (before after : list string) (raw : string) :
  let line := Py.strip raw in
  let p := parse_lines before parser_init in
  (line_path line = None ->
     roadmap_of (parse_lines (before ++ raw :: after) parser_init)
     = roadmap_of (parse_lines (before ++ after) parser_init)
     /\ same_tracking (parse_step p raw) p
     /\ (line <> EmptyString ->
         warnings (parse_step p raw)
         = warnings p ++ ["Warning: Could not parse line: " +:+ line]))
  /\ (forall numbers,
        line_path line = Some numbers -> (1 < length numbers)%nat ->
        tracked_parent p (length numbers) = None ->
        roadmap_of (parse_step p raw) = roadmap_of p
        /\ warnings (parse_step p raw) = warnings p)
  /\ (forall numbers t,
        line_path line = Some numbers ->
        tracked_parent p (length numbers) = Some t ->
        exists e,
          e_id e = path_id numbers
          /\ store (parse_step p raw)
             = append_child (store p ++ [e]) t (length (store p)))
  /\ parse_roadmap ("T1: A" +:+ nl +:+ "T1.2: B" +:+ nl +:+ "T1: C")
     = [TopicData "T1" "A" [TopicData "T1.2" "B" [] [] []] [] [];
        TopicData "T1" "C" [] [] []].
Proof.
  intros line p.
  assert (Hp : parser_ok p) by apply parse_lines_ok, parser_init_ok.
  split; [|split; [|split]].
  - intros Hnone. split; [|split].
    + assert (E1 : parse_lines (before ++ raw :: after) parser_init
                   = parse_lines after (parse_step p raw)).
      { unfold p, parse_lines. now rewrite fold_left_app. }
      assert (E2 : parse_lines (before ++ after) parser_init = parse_lines after p).
      { unfold p, parse_lines. apply fold_left_app. }
      pose proof (parse_lines_same_tracking after _ _
                    (unmatched_step_same_tracking p raw Hnone)) as (Hs & Ht & _).
      rewrite E1, E2. unfold roadmap_of. now rewrite Hs, Ht.
    + now apply unmatched_step_same_tracking.
    + intros Hne. unfold parse_step. fold line.
      destruct line; [contradiction|]. simpl Py.truthy. cbv iota.
      now rewrite (parse_line_unmatched _ _ Hnone).
  - intros numbers Hsome Hlen Hnone.
    unfold parse_step. fold line. rewrite (line_path_truthy _ _ Hsome).
    destruct (parse_line_matched line p numbers Hsome) as (e & _ & _ & Hw & H).
    split; [|exact Hw].
    destruct numbers as [|a [|b rest]]; [simpl in Hlen; lia ..|].
    destruct H as (Ht & Hs). rewrite Hnone in Hs.
    unfold roadmap_of at 1. rewrite Hs, Ht. now apply roadmap_of_grow.
  - intros numbers t Hsome Hparent.
    unfold parse_step. fold line. rewrite (line_path_truthy _ _ Hsome).
    destruct (parse_line_matched line p numbers Hsome) as (e & Hid & _ & _ & H).
    exists e. split; [exact Hid|].
    destruct numbers as [|a [|b rest]]; [discriminate ..|].
    destruct H as (_ & Hs). now rewrite Hparent in Hs.
  - vm_compute. reflexivity.
Qed.

(** ** The Markdown writer *)

(** C6 at the text of the claim.  The heading and the two list items are
    written as the claim says.  The paragraph has three runs, all empty: the
    text before the first marker, then one bold run for each of the segments
    [BOLD>>bold] and [BOLD>> text], whose slices [[6:-6]] are empty.  Neither
    "bold" nor "text" reaches the document.  An unmatched pair of asterisks
    is lost the same way; a lone asterisk is written as it stands. *)
Theorem bold_runs_lose_their_text (styles : Z) :
  create_docx_from_markdown (Document styles [])
    ("# A" +:+ nl +:+ "- one" +:+ nl +:+ "- two" +:+ nl +:+ "**bold** text")
  = Document styles
      [Heading "A" 1;
       Paragraph (Some "List Bullet") None [Run "one" false false];
       Paragraph (Some "List Bullet") None [Run "two" false false];
       Paragraph None None
         [Run EmptyString false false; Run EmptyString true false;
          Run EmptyString true false]]
  /\ mark_italic 20 (mark_bold 20 "**bold** text") = "<<BOLD>>bold<<BOLD>> text"
  /\ Py.split "<<" "<<BOLD>>bold<<BOLD>> text" = [EmptyString; "BOLD>>bold"; "BOLD>> text"]
  /\ Py.slice "BOLD>>bold" (Some 6) (Some (-6)) = EmptyString
  /\ create_docx_from_markdown (Document styles []) "**bold"
     = Document styles
         [Paragraph None None
            [Run EmptyString false false; Run EmptyString false true;
             Run EmptyString false true]]
  /\ create_docx_from_markdown (Document styles []) "a * b"
     = Document styles [Paragraph None None [Run "a * b" false false]].
Proof. repeat split; vm_compute; reflexivity. Qed.

(** ** Looking up a lesson-plan entry *)

Lemma find_entry_unfold target data :
  find_entry_recursive target data =
  if String.eqb (pn_id data) target then Some (pn_content data)
  else match find_entry_in_list target (pn_subtopics data) with
       | Some result => Some result
       | None =>
           match find_entry_in_list target (pn_subsubtopics data) with
           | Some result => Some result
           | None => find_entry_in_list target (pn_subsubsubtopics data)
           end
       end.
Proof.
  destruct data as [id title content s ss sss]. simpl.
  destruct (String.eqb id target); [reflexivity|].
  assert (Hfix : forall l,
    (fix in_list (l : list plan_node) : option string :=
       match l with
       | [] => None
       | item :: l' =>
           match find_entry_recursive target item with
           | Some result => if Py.truthy result then Some result else in_list l'
           | None => in_list l'
           end
       end) l = find_entry_in_list target l).
  { induction l as [|x l IHl]; [reflexivity|]. simpl. now rewrite IHl. }
  now rewrite !Hfix.
Qed.

Section EmptyEntries.

Variable target : string.

(** Every node with the wanted id has empty content. *)
#[local] Abbreviation blank :=
  (Forall (fun n => pn_id n = target -> pn_content n = EmptyString)).

Lemma find_in_blank_list l :
  Forall (fun data => blank (plan_nodes data) ->
                      find_entry_recursive target data = None
                      \/ find_entry_recursive target data = Some EmptyString) l ->
  blank (flat_map plan_nodes l) -> find_entry_in_list target l = None.
Proof.
  induction 1 as [|data l Hd _ IH]; intros Hb; [reflexivity|].
  simpl in Hb. apply Forall_app in Hb as [Hb1 Hb2]. simpl.
  destruct (Hd Hb1) as [-> | ->]; now apply IH.
Qed.

Lemma find_in_blank_node data :
  blank (plan_nodes data) ->
  find_entry_recursive target data = None
  \/ find_entry_recursive target data = Some EmptyString.
Proof.
  induction data as [id title content s ss sss Hs Hss Hsss]
    using plan_node_induction.
  intros Hb. rewrite find_entry_unfold. simpl in Hb |- *.
  apply Forall_cons in Hb as [Hroot Hb].
  apply Forall_app in Hb as [Hb1 Hb]. apply Forall_app in Hb as [Hb2 Hb3].
  destruct (String.eqb_spec id target) as [E|_].
  - right. f_equal. now apply Hroot.
  - left. rewrite (find_in_blank_list s Hs Hb1), (find_in_blank_list ss Hss Hb2).
    now apply find_in_blank_list.
Qed.

Lemma find_in_blank_plan l :
  blank (flat_map plan_nodes l) -> find_entry_in_list target l = None.
Proof.
  apply find_in_blank_list. apply Forall_forall. intros data _.
  apply find_in_blank_node.
Qed.

End EmptyEntries.

(** C10.  When every node of the plan that carries the id has empty content
    (in particular when no node carries it), [extract_lesson_plan_entry]
    returns [None]: a matching node with empty content does not end the
    search of the list it is in, and the notes prompt of the chunk is built
    with [None], which the template prints as the word None. *)
Theorem empty_content_is_not_found (plan : lesson_plan) (current_id : string)
    (model : llm) (subject difficulty_level highlighted_text : string)
    (temp : Q) (ctx : context) (w : world) :
  Forall (fun n => pn_id n = current_id -> pn_content n = EmptyString)
         (flat_map plan_nodes (lp_topics plan)) ->
  extract_lesson_plan_entry plan current_id = None
  /\ (forall item rest,
        pn_id item = current_id -> pn_content item = EmptyString ->
        find_entry_recursive current_id item = Some EmptyString
        /\ find_entry_in_list current_id (item :: rest)
           = find_entry_in_list current_id rest)
  /\ generate_lecture_notes_chunk model subject plan difficulty_level
       highlighted_text temp current_id ctx w
     = (let prompt := create_lecture_notes_prompt subject None current_id
                        difficulty_level highlighted_text (dict_update [] ctx) in
        let '(generated_content, w') :=
          generate_text_from_prompt model prompt temp w in
        (generated_content,
         called (NotesChunk current_id ctx None (text_outcome model prompt temp w))
                w'))
  /\ format_entry None = "None".
Proof.
  intros Hblank.
  assert (E : extract_lesson_plan_entry plan current_id = None)
    by now apply find_in_blank_plan.
  split; [exact E|]. split; [|split; [|reflexivity]].
  - intros item rest Hid Hc.
    assert (F : find_entry_recursive current_id item = Some EmptyString).
    { rewrite find_entry_unfold, Hid, String.eqb_refl. now rewrite Hc. }
    split; [exact F|]. simpl. now rewrite F.
  - unfold generate_lecture_notes_chunk. now rewrite E.
Qed.

Lemma empty_content_is_not_found_witness :
  extract_lesson_plan_entry
    (LessonPlan "Maths" "Btech"
       [PlanNode "T1" "Sets" EmptyString [PlanNode "T1.1" "Union" "text" [] [] []] [] []])
    "T1" = None.
Proof.
  refine (proj1 (empty_content_is_not_found
                   (LessonPlan "Maths" "Btech"
                      [PlanNode "T1" "Sets" EmptyString
                         [PlanNode "T1.1" "Union" "text" [] [] []] [] []])
                   "T1" (fun _ _ _ => None) "Maths" "Btech" "[]" (8 # 10) []
                   world_init _)).
  simpl. constructor; [reflexivity|]. constructor; [discriminate|]. constructor.
Defined.

(** ** The first pipeline *)

Lemma dict_set_all_dicts (structure : dict App.plan_value) k d :
  all_dicts structure -> all_dicts (dict_set structure k (App.PlanDict d)).
Proof.
  unfold all_dicts. induction 1 as [|[k0 v0] l H0 Hl IH]; simpl.
  - constructor; [now exists d | constructor].
  - destruct (String.eqb k0 k); constructor;
      [now exists d | exact Hl | exact H0 | exact IH].
Qed.

Lemma parse_plan_line_dicts p raw :
  all_dicts (App.lesson_plan_structure p) ->
  all_dicts (App.lesson_plan_structure (App.parse_plan_line p raw)).
Proof.
  intros H. unfold App.parse_plan_line.
  destruct (negb (Py.truthy _)); [assumption|].
  destruct (negb (Py.contains _ _)); [now apply dict_set_all_dicts|].
  destruct (_ =? 1).
  { destruct (map _ _) as [|topic [|subtopic [|? ?]]]; try assumption.
    destruct (bool_decide _); [|assumption]. simpl.
    unfold App.set_subtopic.
    destruct (dict_get _ _) as [[d|]|]; try assumption.
    now apply dict_set_all_dicts. }
  destruct (_ =? 2); [|assumption].
  destruct (map _ _) as [|topic [|subtopic [|sub_subtopic [|? ?]]]]; try assumption.
  destruct (_ && _); [|assumption]. simpl.
  unfold App.append_sub_subtopic.
  destruct (dict_get _ _) as [[d|]|]; try assumption.
  destruct (dict_get d _); [|assumption].
  now apply dict_set_all_dicts.
Qed.

(** [parse_lesson_plan] maps every topic to a dictionary. *)
Lemma parse_lesson_plan_dicts text : all_dicts (App.parse_lesson_plan text).
Proof.
  unfold App.parse_lesson_plan.
  assert (H : forall lines p,
             all_dicts (App.lesson_plan_structure p) ->
             all_dicts (App.lesson_plan_structure
                          (fold_left App.parse_plan_line lines p))).
  { induction lines as [|raw lines IH]; intros p Hp; [assumption|].
    simpl. apply IH. now apply parse_plan_line_dicts. }
  apply H. constructor.
Qed.

(** C9.  For every text whose parsed structure has a topic, every value of
    the structure is a dictionary, and [create_detailed_notes_docx] ends
    with a [NameError] for [subtopic] while it sums the slides: no notes
    document is returned, whatever the service would answer. *)
Theorem notes_docx_raises_name_error (client : App.completions)
    (lesson_plan_text difficulty_level : string) (pdf_content : option string)
    (calls : nat) :
  App.parse_lesson_plan lesson_plan_text <> [] ->
  all_dicts (App.parse_lesson_plan lesson_plan_text)
  /\ App.create_detailed_notes_docx client (App.parse_lesson_plan lesson_plan_text)
       difficulty_level pdf_content calls
     = App.Raised (App.NameError "subtopic").
Proof.
  intros Hne. pose proof (parse_lesson_plan_dicts lesson_plan_text) as Hd.
  split; [exact Hd|].
  destruct (App.parse_lesson_plan lesson_plan_text) as [|[topic v] rest];
    [contradiction|].
  apply Forall_cons in Hd as [[d Hv] _]. simpl in Hv. subst v.
  reflexivity.
Qed.

Lemma notes_docx_raises_name_error_witness :
  App.create_detailed_notes_docx (fun _ _ _ _ => Some "slide")
    (App.parse_lesson_plan ("Topic 1" +:+ nl +:+ "Topic 1 -> Sub 1"))
    "Btech" None 0
  = App.Raised (App.NameError "subtopic").
Proof.
  refine (proj2 (notes_docx_raises_name_error (fun _ _ _ _ => Some "slide")
                   ("Topic 1" +:+ nl +:+ "Topic 1 -> Sub 1") "Btech" None 0 _)).
  vm_compute. discriminate.
Defined.

(** ** The snapshot *)

Lemma length_append_string (a b : string) :
  String.length (a +:+ b) = (String.length a + String.length b)%nat.
Proof.
  induction a as [|x a IH]; [reflexivity|].
  rewrite append_cons. simpl. now rewrite IH.
Qed.

Section JsonInduction.

Variable P : Json.json -> Prop.
Hypothesis on_string : forall s, P (Json.JString s).
Hypothesis on_array : forall items, Forall P items -> P (Json.JArray items).
Hypothesis on_object :
  forall members, Forall (fun kv => P (snd kv)) members -> P (Json.JObject members).

Lemma json_induction : forall v, P v.
Proof.
  fix IH 1. intros [s|items|members].
  - apply on_string.
  - apply on_array. induction items as [|x l IHl]; constructor; [apply IH | apply IHl].
  - apply on_object.
    induction members as [|[k x] l IHl]; constructor; [apply IH | apply IHl].
Qed.

End JsonInduction.

(** One character written and read back. *)
Lemma read_escaped_char (c : ascii) (tail : string) :
  Json.read_string (Json.escape_char c +:+ tail)
  = match Json.read_string tail with
    | Some (t, r) => Some (String c t, r)
    | None => None
    end.
Proof. destruct c as [[] [] [] [] [] [] [] []]; reflexivity. Qed.

Lemma read_closing_quote (rest : string) :
  Json.read_string (dq +:+ rest) = Some (EmptyString, rest).
Proof. reflexivity. Qed.

(** A string written and read back, from after the opening quote. *)
Lemma read_escaped (s rest : string) :
  Json.read_string (Json.escape s +:+ dq +:+ rest) = Some (s, rest).
Proof.
  induction s as [|c s IH]; [apply read_closing_quote|].
  simpl Json.escape. rewrite append_assoc, read_escaped_char. now rewrite IH.
Qed.

Lemma need_array items : Json.need (Json.JArray items) = S (Json.need_items items).
Proof. reflexivity. Qed.

Lemma need_object members :
  Json.need (Json.JObject members) = S (Json.need_members members).
Proof.
  simpl. f_equal. induction members as [|[k x] l IH]; [reflexivity|].
  simpl. now rewrite IH.
Qed.

Lemma dump_array level x items :
  Json.dump level (Json.JArray (x :: items))
  = "[" +:+ Json.newline_indent (S level) +:+ Json.dump (S level) x
    +:+ Json.dump_items (S level) items +:+ Json.newline_indent level +:+ "]".
Proof.
  simpl. do 4 f_equal.
  induction items as [|y l IH]; [reflexivity|]. simpl. now rewrite IH.
Qed.

Lemma dump_object level k x members :
  Json.dump level (Json.JObject ((k, x) :: members))
  = "{" +:+ Json.newline_indent (S level) +:+ Json.dump_string k +:+ ": "
    +:+ Json.dump (S level) x +:+ Json.dump_members (S level) members
    +:+ Json.newline_indent level +:+ "}".
Proof.
  simpl. do 6 f_equal.
  induction members as [|[k' y] l IH]; [reflexivity|]. simpl. now rewrite IH.
Qed.

Lemma skip_ws_spaces n s : Json.skip_ws (Json.spaces n +:+ s) = Json.skip_ws s.
Proof. induction n as [|n IH]; [reflexivity|]. exact IH. Qed.

Lemma skip_ws_newline_indent level s :
  Json.skip_ws (Json.newline_indent level +:+ s) = Json.skip_ws s.
Proof.
  unfold Json.newline_indent. rewrite append_assoc.
  change (Json.skip_ws (nl +:+ Json.spaces (4 * level) +:+ s))
    with (Json.skip_ws (Json.spaces (4 * level) +:+ s)).
  apply skip_ws_spaces.
Qed.

(** A written value starts with a quote, a bracket or a brace. *)
Lemma dump_starts level v :
  exists c s, Json.dump level v = String c s
    /\ (c = ascii_of_nat 34 \/ c = ascii_of_nat 91 \/ c = ascii_of_nat 123).
Proof.
  destruct v as [t|[|x l]|[|[k x] l]].
  - exists (ascii_of_nat 34), (Json.escape t +:+ dq). split; [reflexivity|auto].
  - exists (ascii_of_nat 91), "]". split; [reflexivity|auto].
  - rewrite dump_array. eexists _, _. split; [reflexivity|auto].
  - exists (ascii_of_nat 123), "}". split; [reflexivity|auto].
  - rewrite dump_object. eexists _, _. split; [reflexivity|auto].
Qed.

Lemma skip_ws_dump level v s :
  Json.skip_ws (Json.dump level v +:+ s) = Json.dump level v +:+ s.
Proof.
  destruct (dump_starts level v) as (c & t & -> & [-> | [-> | ->]]); reflexivity.
Qed.

Lemma skip_ws_indented_dump n level v s :
  Json.skip_ws (Json.newline_indent n +:+ Json.dump level v +:+ s)
  = Json.dump level v +:+ s.
Proof. now rewrite skip_ws_newline_indent, skip_ws_dump. Qed.

Lemma read_token_string f t rest :
  Json.read_token (S f) (Json.dump_string t +:+ rest) = Some (Json.JString t, rest).
Proof.
  unfold Json.dump_string. rewrite !append_assoc.
  change (Json.read_token (S f) (dq +:+ Json.escape t +:+ dq +:+ rest))
    with (match Json.read_string (Json.escape t +:+ dq +:+ rest) with
          | Some (t', r') => Some (Json.JString t', r')
          | None => None
          end).
  now rewrite read_escaped.
Qed.

Lemma read_items_step f s :
  Json.read_items (S f) s
  = match Json.read_token f (Json.skip_ws s) with
    | Some (v, r) =>
        match Json.skip_ws r with
        | String c r' =>
            let n := N_of_ascii c in
            if (n =? 93)%N then Some ([v], r')
            else if (n =? 44)%N then
              match Json.read_items f r' with
              | Some (l, r'') => Some (v :: l, r'')
              | None => None
              end
            else None
        | EmptyString => None
        end
    | None => None
    end.
Proof. reflexivity. Qed.

Lemma read_token_array f level x tail :
  Json.read_token (S f)
    ("[" +:+ Json.newline_indent level +:+ Json.dump level x +:+ tail)
  = match Json.read_items f
            (Json.newline_indent level +:+ Json.dump level x +:+ tail) with
    | Some (l, r) => Some (Json.JArray l, r)
    | None => None
    end.
Proof.
  change (Json.read_token (S f)
            ("[" +:+ Json.newline_indent level +:+ Json.dump level x +:+ tail))
    with (match Json.skip_ws (Json.newline_indent level +:+ Json.dump level x +:+ tail) with
          | String c' r' =>
              if (N_of_ascii c' =? 93)%N then Some (Json.JArray [], r')
              else match Json.read_items f
                           (Json.newline_indent level +:+ Json.dump level x +:+ tail) with
                   | Some (l, r'') => Some (Json.JArray l, r'')
                   | None => None
                   end
          | EmptyString => None
          end).
  rewrite skip_ws_indented_dump.
  destruct (dump_starts level x) as (c & t & -> & [-> | [-> | ->]]); reflexivity.
Qed.

Lemma read_token_object f level k tail :
  Json.read_token (S f)
    ("{" +:+ Json.newline_indent level +:+ Json.dump_string k +:+ tail)
  = match Json.read_members f
            (Json.newline_indent level +:+ Json.dump_string k +:+ tail) with
    | Some (l, r) => Some (Json.JObject l, r)
    | None => None
    end.
Proof.
  change (Json.read_token (S f)
            ("{" +:+ Json.newline_indent level +:+ Json.dump_string k +:+ tail))
    with (match Json.skip_ws (Json.newline_indent level +:+ Json.dump_string k +:+ tail) with
          | String c' r' =>
              if (N_of_ascii c' =? 125)%N then Some (Json.JObject [], r')
              else match Json.read_members f
                           (Json.newline_indent level +:+ Json.dump_string k +:+ tail) with
                   | Some (l, r'') => Some (Json.JObject l, r'')
                   | None => None
                   end
          | EmptyString => None
          end).
  rewrite skip_ws_newline_indent. reflexivity.
Qed.

Lemma read_members_step f level k x tail :
  Json.read_members (S f)
    (Json.newline_indent level +:+ Json.dump_string k +:+ ": "
     +:+ Json.dump level x +:+ tail)
  = match Json.read_token f (Json.dump level x +:+ tail) with
    | Some (v, r3) =>
        match Json.skip_ws r3 with
        | String c r4 =>
            let n := N_of_ascii c in
            if (n =? 125)%N then Some ([(k, v)], r4)
            else if (n =? 44)%N then
              match Json.read_members f r4 with
              | Some (l, r5) => Some ((k, v) :: l, r5)
              | None => None
              end
            else None
        | EmptyString => None
        end
    | None => None
    end.
Proof.
  set (after := Json.dump level x +:+ tail).
  change (Json.read_members (S f)
            (Json.newline_indent level +:+ Json.dump_string k +:+ ": " +:+ after))
    with (match Json.skip_ws (Json.newline_indent level +:+ Json.dump_string k
                              +:+ ": " +:+ after) with
          | String q r =>
              if (N_of_ascii q =? 34)%N then
                match Json.read_string r with
                | Some (k', r1) =>
                    match Json.skip_ws r1 with
                    | String colon r2 =>
                        if (N_of_ascii colon =? 58)%N then
                          match Json.read_token f (Json.skip_ws r2) with
                          | Some (v, r3) =>
                              match Json.skip_ws r3 with
                              | String c r4 =>
                                  let n := N_of_ascii c in
                                  if (n =? 125)%N then Some ([(k', v)], r4)
                                  else if (n =? 44)%N then
                                    match Json.read_members f r4 with
                                    | Some (l, r5) => Some ((k', v) :: l, r5)
                                    | None => None
                                    end
                                  else None
                              | EmptyString => None
                              end
                          | None => None
                          end
                        else None
                    | EmptyString => None
                    end
                | None => None
                end
              else None
          | EmptyString => None
          end).
  rewrite skip_ws_newline_indent. unfold Json.dump_string.
  rewrite !append_assoc.
  change (Json.skip_ws (dq +:+ Json.escape k +:+ dq +:+ ": " +:+ after))
    with (String (ascii_of_nat 34) (Json.escape k +:+ dq +:+ ": " +:+ after)).
  cbv iota beta. change (N_of_ascii (ascii_of_nat 34) =? 34)%N with true.
  cbv iota. rewrite read_escaped.
  change (Json.skip_ws (": " +:+ after)) with (String ":" (" " +:+ after)).
  cbv iota beta. change (N_of_ascii ":" =? 58)%N with true. cbv iota.
  change (Json.skip_ws (" " +:+ after)) with (Json.skip_ws after).
  unfold after. now rewrite skip_ws_dump.
Qed.

Lemma need_items_cons x l :
  Json.need_items (x :: l) = S (Json.need x + Json.need_items l).
Proof. reflexivity. Qed.

Lemma need_members_cons k x l :
  Json.need_members ((k, x) :: l) = S (Json.need x + Json.need_members l).
Proof. reflexivity. Qed.

(** The items of a list written and read back, up to the closing
    bracket. *)
Lemma read_items_dump level l :
  Forall Json.reads_back l ->
  forall x close rest fuel,
    Json.reads_back x ->
    Json.skip_ws close = "]" +:+ rest ->
    (Json.need_items (x :: l) <= fuel)%nat ->
    Json.read_items fuel
      (Json.newline_indent level +:+ Json.dump level x
       +:+ Json.dump_items level l +:+ close)
    = Some (x :: l, rest).
Proof.
  induction 1 as [|y l Hy Hl IH]; intros x close rest fuel Hx Hclose Hfuel;
    rewrite need_items_cons in Hfuel;
    (destruct fuel as [|f]; [lia|]);
    rewrite read_items_step, skip_ws_indented_dump, Hx by lia.
  - change (Json.dump_items level [] +:+ close) with close.
    rewrite Hclose. reflexivity.
  - change (Json.dump_items level (y :: l) +:+ close)
      with (("," +:+ Json.newline_indent level +:+ Json.dump level y
             +:+ Json.dump_items level l) +:+ close).
    rewrite !append_assoc.
    change (Json.skip_ws ("," +:+ Json.newline_indent level +:+ Json.dump level y
                          +:+ Json.dump_items level l +:+ close))
      with (String "," (Json.newline_indent level +:+ Json.dump level y
                        +:+ Json.dump_items level l +:+ close)).
    cbv iota beta zeta. change (N_of_ascii "," =? 93)%N with false.
    change (N_of_ascii "," =? 44)%N with true. cbv iota.
    rewrite (IH y close rest f Hy Hclose) by lia. reflexivity.
Qed.

(** The members of a dictionary written and read back, up to the closing
    brace. *)
Lemma read_members_dump level l :
  Forall (fun kv => Json.reads_back (snd kv)) l ->
  forall k x close rest fuel,
    Json.reads_back x ->
    Json.skip_ws close = "}" +:+ rest ->
    (Json.need_members ((k, x) :: l) <= fuel)%nat ->
    Json.read_members fuel
      (Json.newline_indent level +:+ Json.dump_string k +:+ ": "
       +:+ Json.dump level x +:+ Json.dump_members level l +:+ close)
    = Some ((k, x) :: l, rest).
Proof.
  induction 1 as [|[k' y] l Hy Hl IH]; intros k x close rest fuel Hx Hclose Hfuel;
    rewrite need_members_cons in Hfuel;
    (destruct fuel as [|f]; [lia|]);
    rewrite read_members_step, Hx by lia.
  - change (Json.dump_members level [] +:+ close) with close.
    rewrite Hclose. reflexivity.
  - change (Json.dump_members level ((k', y) :: l) +:+ close)
      with (("," +:+ Json.newline_indent level +:+ Json.dump_string k' +:+ ": "
             +:+ Json.dump level y +:+ Json.dump_members level l) +:+ close).
    rewrite !append_assoc.
    change (Json.skip_ws ("," +:+ Json.newline_indent level +:+ Json.dump_string k'
                          +:+ ": " +:+ Json.dump level y
                          +:+ Json.dump_members level l +:+ close))
      with (String "," (Json.newline_indent level +:+ Json.dump_string k'
                        +:+ ": " +:+ Json.dump level y
                        +:+ Json.dump_members level l +:+ close)).
    cbv iota beta zeta. change (N_of_ascii "," =? 125)%N with false.
    change (N_of_ascii "," =? 44)%N with true. cbv iota.
    rewrite (IH k' y close rest f Hy Hclose) by lia. reflexivity.
Qed.

(** Every value is read back from its writing, at any nesting level and
    before any text. *)
Lemma read_token_dump v : Json.reads_back v.
Proof.
  induction v as [t|items Hitems|members Hmembers] using json_induction;
    intros level rest fuel Hfuel.
  - destruct fuel as [|f]; [simpl in Hfuel; lia|]. apply read_token_string.
  - rewrite need_array in Hfuel. destruct fuel as [|f]; [lia|].
    destruct items as [|x l]; [reflexivity|].
    apply Forall_cons in Hitems as [Hx Hl].
    rewrite dump_array, !append_assoc, read_token_array.
    rewrite (read_items_dump (S level) l Hl x
               (Json.newline_indent level +:+ "]" +:+ rest) rest f Hx);
      [reflexivity| |lia].
    now rewrite skip_ws_newline_indent.
  - rewrite need_object in Hfuel. destruct fuel as [|f]; [lia|].
    destruct members as [|[k x] l]; [reflexivity|].
    apply Forall_cons in Hmembers as [Hx Hl].
    rewrite dump_object, !append_assoc, read_token_object.
    rewrite (read_members_dump (S level) l Hl k x
               (Json.newline_indent level +:+ "}" +:+ rest) rest f Hx);
      [reflexivity| |lia].
    now rewrite skip_ws_newline_indent.
Qed.

(** The text of a value is longer than the fuel that reads it back. *)
Lemma need_le_length v level :
  (Json.need v <= String.length (Json.dump level v))%nat.
Proof.
  revert level.
  induction v as [t|items Hitems|members Hmembers] using json_induction;
    intros level.
  - unfold Json.dump, Json.dump_string. rewrite !length_append_string.
    change (String.length dq) with 1%nat. simpl. lia.
  - rewrite need_array. destruct items as [|x l]; [simpl; lia|].
    apply Forall_cons in Hitems as [Hx Hl].
    rewrite dump_array, need_items_cons, !length_append_string.
    assert (Json.need_items l <= String.length (Json.dump_items (S level) l))%nat
      as Hrest.
    { induction Hl as [|y l Hy Hl IH]; [simpl; lia|].
      rewrite need_items_cons. simpl Json.dump_items.
      rewrite !length_append_string. specialize (Hy (S level)).
      change (String.length ",") with 1%nat. lia. }
    specialize (Hx (S level)).
    change (String.length "[") with 1%nat. change (String.length "]") with 1%nat.
    lia.
  - rewrite need_object. destruct members as [|[k x] l]; [simpl; lia|].
    apply Forall_cons in Hmembers as [Hx Hl].
    rewrite dump_object, need_members_cons, !length_append_string.
    assert (Json.need_members l <= String.length (Json.dump_members (S level) l))%nat
      as Hrest.
    { induction Hl as [|[k' y] l Hy Hl IH]; [simpl; lia|].
      rewrite need_members_cons. simpl Json.dump_members.
      rewrite !length_append_string. specialize (Hy (S level)).
      cbn [snd] in Hy. change (String.length ",") with 1%nat. lia. }
    specialize (Hx (S level)). cbn [snd] in Hx.
    change (String.length "{") with 1%nat. change (String.length "}") with 1%nat.
    lia.
Qed.

(** Reading what was written gives the value back. *)
Lemma json_load_dump v : Json.json_load (Json.json_dump v) = Some v.
Proof.
  unfold Json.json_load, Json.json_dump, Json.read_value.
  rewrite <- (append_empty_r (Json.dump 0 v)) at 2.
  rewrite skip_ws_dump, read_token_dump; [reflexivity|].
  pose proof (need_le_length v 0). lia.
Qed.

Lemma node_of_json_unfold members :
  Json.node_of_json (Json.JObject members)
  = match Json.read_fields members (Json.Fields None None None [] [] []) with
    | Some (Json.Fields (Some i) (Some t) (Some c) s ss sss) =>
        Some (PlanNode i t c s ss sss)
    | _ => None
    end.
Proof.
  simpl.
  match goal with
  | |- context [?f members (Json.Fields None None None [] [] [])] =>
      assert (Hread : forall ms acc, f ms acc = Json.read_fields ms acc)
  end.
  { induction ms as [|[k x] ms IH]; intros acc; [reflexivity|].
    destruct x as [t|items|ms']; simpl.
    - now rewrite !IH.
    - match goal with
      | |- context [match ?g items with Some _ => _ | None => _ end] =>
          assert (Hn : forall l, g l = Json.nodes_of_json l)
      end.
      { induction l as [|y l IHl]; [reflexivity|]. simpl. now rewrite IHl. }
      rewrite Hn. destruct (Json.nodes_of_json items); [|reflexivity].
      now rewrite !IH.
    - reflexivity. }
  now rewrite Hread.
Qed.

Lemma node_to_json_unfold j :
  Json.node_to_json j
  = Json.JObject
      ([("id", Json.JString (pn_id j)); ("title", Json.JString (pn_title j));
        ("content", Json.JString (pn_content j))]
       ++ match pn_subtopics j with
          | [] => []
          | _ => [("subtopics", Json.JArray (map Json.node_to_json (pn_subtopics j)))]
          end
       ++ match pn_subsubtopics j with
          | [] => []
          | _ => [("subsubtopics",
                   Json.JArray (map Json.node_to_json (pn_subsubtopics j)))]
          end
       ++ match pn_subsubsubtopics j with
          | [] => []
          | _ => [("subsubsubtopics",
                   Json.JArray (map Json.node_to_json (pn_subsubsubtopics j)))]
          end).
Proof. destruct j; reflexivity. Qed.

Lemma nodes_round_trip l :
  Forall (fun j => Json.node_of_json (Json.node_to_json j) = Some j) l ->
  Json.nodes_of_json (map Json.node_to_json l) = Some l.
Proof.
  induction 1 as [|j l Hj Hl IH]; [reflexivity|].
  cbn [map Json.nodes_of_json]. now rewrite Hj, IH.
Qed.

(** A node is read back from its dictionary. *)
Lemma node_round_trip j : Json.node_of_json (Json.node_to_json j) = Some j.
Proof.
  induction j as [id title content s ss sss Hs Hss Hsss] using plan_node_induction.
  apply nodes_round_trip in Hs, Hss, Hsss.
  rewrite node_to_json_unfold, node_of_json_unfold.
  cbn [pn_id pn_title pn_content pn_subtopics pn_subsubtopics pn_subsubsubtopics].
  remember (map Json.node_to_json s) as js eqn:Ejs.
  remember (map Json.node_to_json ss) as jss eqn:Ejss.
  remember (map Json.node_to_json sss) as jsss eqn:Ejsss.
  clear Ejs Ejss Ejsss.
  destruct s, ss, sss; simpl; rewrite ?Hs; simpl; rewrite ?Hss; simpl;
    rewrite ?Hsss; reflexivity.
Qed.

(** A lesson plan is read back from its dictionary. *)
Lemma plan_round_trip p : Json.plan_of_json (Json.plan_to_json p) = Some p.
Proof.
  destruct p as [subject difficulty topics].
  unfold Json.plan_to_json, Json.plan_of_json.
  cbn [lp_subject lp_difficulty lp_topics].
  change ((("subject" =? "subject")%string && ("difficulty" =? "difficulty")%string
           && ("topics" =? "topics")%string)) with true.
  cbv iota.
  rewrite nodes_round_trip; [reflexivity|].
  apply Forall_forall. intros j _. apply node_round_trip.
Qed.


(** * Further properties *)

(** ** Looking below a lesson-plan entry *)

Lemma find_app_first {A} (f : A -> bool) (l1 l2 : list A) :
  List.find f (l1 ++ l2)
  = match List.find f l1 with Some x => Some x | None => List.find f l2 end.
Proof.
  induction l1 as [|x l1 IH]; [reflexivity|].
  simpl. destruct (f x); [reflexivity | exact IH].
Qed.

Lemma find_dict_unfold target data :
  HasSubChunks.find_entry_recursive target data =
  if has_id target data then Some data
  else match HasSubChunks.find_entry_in_list target (pn_subtopics data) with
       | Some result => Some result
       | None =>
           match HasSubChunks.find_entry_in_list target (pn_subsubtopics data) with
           | Some result => Some result
           | None => HasSubChunks.find_entry_in_list target (pn_subsubsubtopics data)
           end
       end.
Proof.
  destruct data as [id title content s ss sss]. unfold has_id. simpl.
  destruct (String.eqb id target); [reflexivity|].
  assert (Hfix : forall l,
    (fix in_list (l : list plan_node) : option plan_node :=
       match l with
       | [] => None
       | item :: l' =>
           match HasSubChunks.find_entry_recursive target item with
           | Some result => Some result
           | None => in_list l'
           end
       end) l = HasSubChunks.find_entry_in_list target l).
  { induction l as [|x l IHl]; [reflexivity|]. simpl. now rewrite IHl. }
  now rewrite !Hfix.
Qed.

(** The search of [has_sub_chunks] gives the first dictionary in document
    order that carries the id. *)
Lemma find_dict_in_list_first target l :
  Forall (fun data => HasSubChunks.find_entry_recursive target data
                      = List.find (has_id target) (plan_nodes data)) l ->
  HasSubChunks.find_entry_in_list target l
  = List.find (has_id target) (flat_map plan_nodes l).
Proof.
  induction 1 as [|x l Hx _ IH]; [reflexivity|].
  simpl. rewrite find_app_first, Hx, IH. reflexivity.
Qed.

Lemma find_dict_first target data :
  HasSubChunks.find_entry_recursive target data
  = List.find (has_id target) (plan_nodes data).
Proof.
  induction data as [id title content s ss sss Hs Hss Hsss]
    using plan_node_induction.
  rewrite find_dict_unfold.
  cbn [plan_nodes List.find pn_subtopics pn_subsubtopics pn_subsubsubtopics].
  destruct (has_id target _); [reflexivity|].
  rewrite !find_app_first.
  now rewrite !find_dict_in_list_first by assumption.
Qed.

Lemma has_sub_keys_children data :
  HasSubChunks.has_sub_keys_recursive data
  = match pn_children data with [] => false | _ :: _ => true end.
Proof.
  destruct data as [id title content [|a s] [|b ss] [|c sss]]; reflexivity.
Qed.

(** [has_sub_chunks] answers for the first dictionary in document order
    that carries the id: [True] exactly when that dictionary has a child
    under one of the three keys, and [False] when no dictionary carries the
    id. *)
Theorem has_sub_chunks_first_entry (plan : lesson_plan) (current_id : string) :
  has_sub_chunks plan current_id
  = match List.find (has_id current_id) (flat_map plan_nodes (lp_topics plan)) with
    | Some entry =>
        match pn_children entry with [] => false | _ :: _ => true end
    | None => false
    end.
Proof.
  unfold has_sub_chunks.
  rewrite find_dict_in_list_first
    by (apply Forall_forall; intros data _; apply find_dict_first).
  destruct (List.find _ _); [apply has_sub_keys_children | reflexivity].
Qed.

Lemma find_ids_unfold target data found :
  find_subtopic_ids_recursive target data found =
  (if (if has_id target data then true else found)
   then map pn_id (pn_children data) else [])
  ++ flat_map (fun item =>
                 find_subtopic_ids_recursive target item
                   (if has_id target data then true else found))
              (pn_children data).
Proof.
  destruct data as [id title content s ss sss]. unfold has_id, pn_children.
  cbn [find_subtopic_ids_recursive pn_id pn_subtopics pn_subsubtopics
       pn_subsubsubtopics].
  set (found' := if String.eqb id target then true else found).
  assert (Hfix : forall l,
    (fix in_list (l : list plan_node) : list string :=
       match l with
       | [] => []
       | item :: l' => find_subtopic_ids_recursive target item found' ++ in_list l'
       end) l
    = flat_map (fun item => find_subtopic_ids_recursive target item found') l).
  { induction l as [|x l IHl]; [reflexivity|]. simpl. now rewrite IHl. }
  rewrite !Hfix, !flat_map_app, !map_app.
  destruct found'; [|reflexivity].
  destruct s, ss, sss; reflexivity.
Qed.

Lemma ids_below_children data :
  ids_below data = map pn_id (pn_children data) ++ flat_map ids_below (pn_children data).
Proof.
  destruct data as [id title content s ss sss]. unfold pn_children.
  cbn [ids_below pn_subtopics pn_subsubtopics pn_subsubsubtopics].
  rewrite !flat_map_app, !map_app, <- !app_assoc. reflexivity.
Qed.

Lemma plan_nodes_children data :
  plan_nodes data = data :: flat_map plan_nodes (pn_children data).
Proof.
  destruct data as [id title content s ss sss]. unfold pn_children.
  cbn [plan_nodes pn_subtopics pn_subsubtopics pn_subsubsubtopics].
  now rewrite !flat_map_app.
Qed.

Lemma children_induction (P : plan_node -> Prop) :
  (forall data, Forall P (pn_children data) -> P data) -> forall data, P data.
Proof.
  intros step. apply plan_node_induction. intros id title content s ss sss Hs Hss Hsss.
  apply step. unfold pn_children. simpl. rewrite !Forall_app. tauto.
Qed.

Lemma flat_map_ext_Forall {A B} (f g : A -> list B) l :
  Forall (fun x => f x = g x) l -> flat_map f l = flat_map g l.
Proof. induction 1 as [|x l Hx _ IH]; [reflexivity|]. simpl. now rewrite Hx, IH. Qed.

Lemma flat_map_nil_Forall {A B} (f : A -> list B) l :
  Forall (fun x => f x = []) l -> flat_map f l = [].
Proof. induction 1 as [|x l Hx _ IH]; [reflexivity|]. simpl. now rewrite Hx, IH. Qed.

(** Below a found dictionary the walk gives every id, whatever is looked
    for. *)
Lemma find_ids_found target data :
  find_subtopic_ids_recursive target data true = ids_below data.
Proof.
  induction data as [data IH] using children_induction.
  rewrite find_ids_unfold, ids_below_children.
  replace (if has_id target data then true else true) with true
    by now destruct (has_id target data).
  f_equal. now apply flat_map_ext_Forall.
Qed.

Lemma has_id_eq target data : has_id target data = true <-> pn_id data = target.
Proof. unfold has_id. apply String.eqb_eq. Qed.

Lemma has_id_ne target data : has_id target data = false <-> pn_id data <> target.
Proof. unfold has_id. apply String.eqb_neq. Qed.

Lemma plan_ids_children data :
  plan_ids [data] = pn_id data :: plan_ids (pn_children data).
Proof.
  unfold plan_ids. cbn [flat_map]. rewrite app_nil_r, plan_nodes_children.
  reflexivity.
Qed.

(** Where no dictionary carries the id the walk gives nothing. *)
Lemma find_ids_absent target data :
  target ∉ plan_ids [data] ->
  find_subtopic_ids_recursive target data false = [].
Proof.
  induction data as [data IH] using children_induction. intros Hnot.
  rewrite plan_ids_children in Hnot. apply not_elem_of_cons in Hnot as [Hne Hnot].
  rewrite find_ids_unfold.
  replace (has_id target data) with false
    by (symmetry; apply has_id_ne; congruence).
  cbn [app]. apply flat_map_nil_Forall.
  revert IH Hnot. generalize (pn_children data) as l.
  induction l as [|x l IHl]; intros IH Hnot; [constructor|].
  apply Forall_cons in IH as [Hx Hl].
  rewrite plan_ids_cons in Hnot. apply not_elem_of_app in Hnot as [H1 H2].
  constructor; [now apply Hx | now apply IHl].
Qed.

Lemma find_ids_absent_list target l :
  target ∉ plan_ids l ->
  flat_map (fun item => find_subtopic_ids_recursive target item false) l = [].
Proof.
  induction l as [|x l IH]; intros Hnot; [reflexivity|].
  rewrite plan_ids_cons in Hnot. apply not_elem_of_app in Hnot as [H1 H2].
  simpl. now rewrite find_ids_absent, IH.
Qed.

Lemma elem_of_plan_ids n l : n ∈ flat_map plan_nodes l -> pn_id n ∈ plan_ids l.
Proof.
  intros H. unfold plan_ids. apply list_elem_of_In, in_map, list_elem_of_In, H.
Qed.

Lemma elem_of_flat_map_cons {A B} (f : A -> list B) x l y :
  y ∈ flat_map f (x :: l) <-> y ∈ f x \/ y ∈ flat_map f l.
Proof. simpl. apply elem_of_app. Qed.

Section OneEntry.

Variable n : plan_node.

(** In a list of trees with pairwise different ids, the walk for the id of
    a dictionary [n] of the list gives the ids below [n]. *)
Lemma find_ids_present_list l :
  Forall (fun data => NoDup (plan_ids [data]) -> n ∈ plan_nodes data ->
            find_subtopic_ids_recursive (pn_id n) data false = ids_below n) l ->
  NoDup (plan_ids l) -> n ∈ flat_map plan_nodes l ->
  flat_map (fun item => find_subtopic_ids_recursive (pn_id n) item false) l
  = ids_below n.
Proof.
  induction 1 as [|x l Hx _ IH]; intros Hnd Hin.
  - simpl in Hin. now apply elem_of_nil in Hin.
  - rewrite plan_ids_cons in Hnd. apply NoDup_app in Hnd as (Hnd1 & Hdisj & Hnd2).
    apply elem_of_flat_map_cons in Hin as [Hin|Hin]; simpl.
    + rewrite Hx, find_ids_absent_list, app_nil_r; try assumption; [reflexivity|].
      apply Hdisj. apply (elem_of_plan_ids n [x]). simpl. now rewrite app_nil_r.
    + rewrite find_ids_absent, IH; try assumption; [reflexivity|].
      intros Hx'. apply (Hdisj _ Hx'). now apply elem_of_plan_ids.
Qed.

Lemma find_ids_present data :
  NoDup (plan_ids [data]) -> n ∈ plan_nodes data ->
  find_subtopic_ids_recursive (pn_id n) data false = ids_below n.
Proof.
  induction data as [data IH] using children_induction. intros Hnd Hin.
  rewrite plan_ids_children in Hnd. apply NoDup_cons in Hnd as [Hfresh Hnd].
  rewrite plan_nodes_children in Hin. apply elem_of_cons in Hin as [->|Hin].
  - rewrite find_ids_unfold.
    replace (has_id (pn_id data) data) with true
      by (symmetry; now apply has_id_eq).
    rewrite ids_below_children. f_equal.
    apply flat_map_ext_Forall, Forall_forall. intros x _. apply find_ids_found.
  - rewrite find_ids_unfold.
    replace (has_id (pn_id n) data) with false.
    + cbn [app]. now apply find_ids_present_list.
    + symmetry. apply has_id_ne. intros E. apply Hfresh. rewrite E.
      now apply elem_of_plan_ids.
Qed.

End OneEntry.

(** The ids below a dictionary are those of all the dictionaries under it,
    each once, in another order. *)
Lemma ids_below_descendants data :
  ids_below data ≡ₚ plan_ids (pn_children data).
Proof.
  induction data as [data IH] using children_induction.
  rewrite ids_below_children.
  revert IH. generalize (pn_children data) as l.
  induction l as [|x l IHl]; intros IH; [reflexivity|].
  apply Forall_cons in IH as [Hx Hl]. specialize (IHl Hl).
  rewrite plan_ids_cons, plan_ids_children. cbn [map flat_map].
  rewrite <- Hx, <- IHl.
  cbn [app]. constructor. rewrite !app_assoc. apply Permutation_app_tail.
  apply Permutation_app_comm.
Qed.

(** In a plan whose ids are pairwise different, [get_sub_chunks] for the id
    of a dictionary of the plan gives the ids of all the dictionaries below
    it, each once: first those of its children, key by key, then what is
    below each child.  For an id that no dictionary carries it gives the
    empty list. *)
Theorem get_sub_chunks_lists_descendants (plan : lesson_plan) (n : plan_node) :
  NoDup (plan_ids (lp_topics plan)) ->
  n ∈ flat_map plan_nodes (lp_topics plan) ->
  get_sub_chunks plan (pn_id n)
  = map pn_id (pn_children n) ++ flat_map ids_below (pn_children n)
  /\ get_sub_chunks plan (pn_id n) ≡ₚ plan_ids (pn_children n)
  /\ (forall other, other ∉ plan_ids (lp_topics plan) ->
                    get_sub_chunks plan other = []).
Proof.
  intros Hnd Hin.
  assert (E : get_sub_chunks plan (pn_id n) = ids_below n).
  { unfold get_sub_chunks. apply find_ids_present_list; try assumption.
    apply Forall_forall. intros data _. apply find_ids_present. }
  split; [now rewrite E, ids_below_children|].
  split; [rewrite E; apply ids_below_descendants|].
  intros other Hnot. now apply find_ids_absent_list.
Qed.

Lemma get_sub_chunks_lists_descendants_witness :
  let leaf id := PlanNode id id "text" [] [] [] in
  let n := PlanNode "T1.1" "B" "b" [] [leaf "T1.1.1"; leaf "T1.1.2"] [] in
  let plan := LessonPlan "Maths" "Btech"
                [PlanNode "T1" "A" "a" [n; leaf "T1.2"] [] []; leaf "T2"] in
  get_sub_chunks plan "T1.1" = ["T1.1.1"; "T1.1.2"]
  /\ get_sub_chunks plan "T1" = ["T1.1"; "T1.2"; "T1.1.1"; "T1.1.2"].
Proof.
  cbv zeta. split.
  - refine (proj1 (get_sub_chunks_lists_descendants
                     (LessonPlan "Maths" "Btech"
                        [PlanNode "T1" "A" "a"
                           [PlanNode "T1.1" "B" "b" []
                              [PlanNode "T1.1.1" "T1.1.1" "text" [] [] [];
                               PlanNode "T1.1.2" "T1.1.2" "text" [] [] []] [];
                            PlanNode "T1.2" "T1.2" "text" [] [] []] [] [];
                         PlanNode "T2" "T2" "text" [] [] []])
                     (PlanNode "T1.1" "B" "b" []
                        [PlanNode "T1.1.1" "T1.1.1" "text" [] [] [];
                         PlanNode "T1.1.2" "T1.1.2" "text" [] [] []] []) _ _)).
    + vm_compute. repeat constructor; set_solver.
    + vm_compute. set_solver.
  - vm_compute. reflexivity.
Defined.

Lemma ids_below_nil data : ids_below data = [] <-> pn_children data = [].
Proof.
  rewrite ids_below_children. split.
  - intros H. apply app_eq_nil in H as [H _]. now apply map_eq_nil in H.
  - now intros ->.
Qed.

(** In a plan whose ids are pairwise different, [has_sub_chunks] says
    [True] for an id exactly when [get_sub_chunks] gives at least one id
    for it. *)
Theorem has_sub_chunks_iff_get_sub_chunks (plan : lesson_plan) (current_id : string) :
  NoDup (plan_ids (lp_topics plan)) ->
  has_sub_chunks plan current_id
  = match get_sub_chunks plan current_id with [] => false | _ :: _ => true end.
Proof.
  intros Hnd. unfold has_sub_chunks.
  rewrite find_dict_in_list_first
    by (apply Forall_forall; intros data _; apply find_dict_first).
  destruct (List.find _ _) as [n|] eqn:E.
  - apply find_some in E as [Hin Hid].
    apply list_elem_of_In in Hin. apply has_id_eq in Hid. subst current_id.
    assert (G : get_sub_chunks plan (pn_id n) = ids_below n).
    { unfold get_sub_chunks. apply find_ids_present_list; try assumption.
      apply Forall_forall. intros data _. apply find_ids_present. }
    rewrite G, has_sub_keys_children.
    destruct (pn_children n) eqn:Ec.
    + now rewrite (proj2 (ids_below_nil n) Ec).
    + destruct (ids_below n) eqn:Eb; [|reflexivity].
      apply ids_below_nil in Eb. congruence.
  - unfold get_sub_chunks. rewrite find_ids_absent_list; [reflexivity|].
    intros Hin. unfold plan_ids in Hin.
    apply list_elem_of_In, in_map_iff in Hin as (n & Hid & Hin).
    pose proof (find_none _ _ E n Hin) as Hno.
    apply has_id_ne in Hno. contradiction.
Qed.

Lemma has_sub_chunks_iff_get_sub_chunks_witness :
  let plan := LessonPlan "Maths" "Btech"
                [PlanNode "T1" "A" "a" [PlanNode "T1.1" "B" "b" [] [] []] [] [];
                 PlanNode "T2" "C" "c" [] [] []] in
  has_sub_chunks plan "T1" = true /\ get_sub_chunks plan "T1" = ["T1.1"]
  /\ has_sub_chunks plan "T2" = false.
Proof.
  cbv zeta. split; [|split; vm_compute; reflexivity].
  rewrite (has_sub_chunks_iff_get_sub_chunks
             (LessonPlan "Maths" "Btech"
                [PlanNode "T1" "A" "a" [PlanNode "T1.1" "B" "b" [] [] []] [] [];
                 PlanNode "T2" "C" "c" [] [] []]) "T1").
  - vm_compute. reflexivity.
  - vm_compute. repeat constructor; set_solver.
Defined.

(** ** Looking up the content of an entry *)

Lemma find_entry_in_list_app target l1 l2 :
  find_entry_in_list target (l1 ++ l2)
  = match find_entry_in_list target l1 with
    | Some result => Some result
    | None => find_entry_in_list target l2
    end.
Proof.
  induction l1 as [|x l1 IH]; [reflexivity|]. simpl.
  destruct (find_entry_recursive target x) as [r|]; [|exact IH].
  destruct (Py.truthy r); [reflexivity | exact IH].
Qed.

Lemma find_entry_children target data :
  find_entry_recursive target data
  = if has_id target data then Some (pn_content data)
    else find_entry_in_list target (pn_children data).
Proof.
  rewrite find_entry_unfold. unfold has_id, pn_children.
  destruct (String.eqb _ _); [reflexivity|].
  rewrite !find_entry_in_list_app.
  destruct (find_entry_in_list target (pn_subtopics data)); [reflexivity|].
  now destruct (find_entry_in_list target (pn_subsubtopics data)).
Qed.

(** Where no dictionary carries the id the search gives [None]. *)
Lemma find_entry_absent target data :
  target ∉ plan_ids [data] -> find_entry_recursive target data = None.
Proof.
  induction data as [data IH] using children_induction. intros Hnot.
  rewrite plan_ids_children in Hnot. apply not_elem_of_cons in Hnot as [Hne Hnot].
  rewrite find_entry_children.
  replace (has_id target data) with false
    by (symmetry; apply has_id_ne; congruence).
  revert IH Hnot. generalize (pn_children data) as l.
  induction l as [|x l IHl]; intros IH Hnot; [reflexivity|].
  apply Forall_cons in IH as [Hx Hl].
  rewrite plan_ids_cons in Hnot. apply not_elem_of_app in Hnot as [H1 H2].
  simpl. rewrite (Hx H1). now apply IHl.
Qed.

Lemma find_entry_absent_list target l :
  target ∉ plan_ids l -> find_entry_in_list target l = None.
Proof.
  induction l as [|x l IH]; intros Hnot; [reflexivity|].
  rewrite plan_ids_cons in Hnot. apply not_elem_of_app in Hnot as [H1 H2].
  simpl. now rewrite find_entry_absent, IH.
Qed.

Section OneContent.

Variable n : plan_node.
Hypothesis has_content : pn_content n <> EmptyString.

Lemma truthy_content : Py.truthy (pn_content n) = true.
Proof. destruct (pn_content n); [contradiction | reflexivity]. Qed.

Lemma find_entry_present_list l :
  Forall (fun data => NoDup (plan_ids [data]) -> n ∈ plan_nodes data ->
            find_entry_recursive (pn_id n) data = Some (pn_content n)) l ->
  NoDup (plan_ids l) -> n ∈ flat_map plan_nodes l ->
  find_entry_in_list (pn_id n) l = Some (pn_content n).
Proof.
  induction 1 as [|x l Hx _ IH]; intros Hnd Hin.
  - simpl in Hin. now apply elem_of_nil in Hin.
  - rewrite plan_ids_cons in Hnd. apply NoDup_app in Hnd as (Hnd1 & Hdisj & Hnd2).
    apply elem_of_flat_map_cons in Hin as [Hin|Hin]; simpl.
    + rewrite Hx by assumption. now rewrite truthy_content.
    + rewrite find_entry_absent; [now apply IH|].
      intros Hx'. apply (Hdisj _ Hx'). now apply elem_of_plan_ids.
Qed.

Lemma find_entry_present data :
  NoDup (plan_ids [data]) -> n ∈ plan_nodes data ->
  find_entry_recursive (pn_id n) data = Some (pn_content n).
Proof.
  induction data as [data IH] using children_induction. intros Hnd Hin.
  rewrite plan_ids_children in Hnd. apply NoDup_cons in Hnd as [Hfresh Hnd].
  rewrite plan_nodes_children in Hin. apply elem_of_cons in Hin as [->|Hin].
  - rewrite find_entry_children.
    now replace (has_id (pn_id data) data) with true
      by (symmetry; now apply has_id_eq).
  - rewrite find_entry_children.
    replace (has_id (pn_id n) data) with false.
    + now apply find_entry_present_list.
    + symmetry. apply has_id_ne. intros E. apply Hfresh. rewrite E.
      now apply elem_of_plan_ids.
Qed.

End OneContent.

(** In a plan whose ids are pairwise different, [extract_lesson_plan_entry]
    for the id of a dictionary with a non-empty content gives that content,
    wherever the dictionary is in the plan; for an id that no dictionary
    carries it gives [None]. *)
Theorem extract_finds_content (plan : lesson_plan) (n : plan_node) :
  NoDup (plan_ids (lp_topics plan)) ->
  n ∈ flat_map plan_nodes (lp_topics plan) ->
  pn_content n <> EmptyString ->
  extract_lesson_plan_entry plan (pn_id n) = Some (pn_content n)
  /\ (forall other, other ∉ plan_ids (lp_topics plan) ->
                    extract_lesson_plan_entry plan other = None).
Proof.
  intros Hnd Hin Hc. split.
  - unfold extract_lesson_plan_entry. apply find_entry_present_list; try assumption.
    apply Forall_forall. intros data _. now apply find_entry_present.
  - intros other Hnot. now apply find_entry_absent_list.
Qed.

Lemma extract_finds_content_witness :
  extract_lesson_plan_entry
    (LessonPlan "Maths" "Btech"
       [PlanNode "T1" "A" EmptyString []
          [PlanNode "T1.1" "B" "b" [] [] [PlanNode "T1.1.1" "C" "deep" [] [] []]] [];
        PlanNode "T2" "D" "d" [] [] []])
    "T1.1.1" = Some "deep".
Proof.
  refine (proj1 (extract_finds_content
                   (LessonPlan "Maths" "Btech"
                      [PlanNode "T1" "A" EmptyString []
                         [PlanNode "T1.1" "B" "b" [] []
                            [PlanNode "T1.1.1" "C" "deep" [] [] []]] [];
                       PlanNode "T2" "D" "d" [] [] []])
                   (PlanNode "T1.1.1" "C" "deep" [] [] []) _ _ _)).
  - vm_compute. repeat constructor; set_solver.
  - vm_compute. set_solver.
  - discriminate.
Defined.

(** ** The progress of the notes traversal *)

Lemma count_items_nodes l : count_items l = Z.of_nat (length (flat_map plan_nodes l)).
Proof.
  assert (Hnode : forall data,
             count_items_recursive data = Z.of_nat (length (plan_nodes data))).
  { induction data as [id title content s ss sss Hs Hss Hsss]
      using plan_node_induction.
    assert (Hfix : forall l,
      Forall (fun data => count_items_recursive data
                          = Z.of_nat (length (plan_nodes data))) l ->
      (fix in_list (l : list plan_node) : Z :=
         match l with
         | [] => 0
         | item :: l' => count_items_recursive item + in_list l'
         end) l = Z.of_nat (length (flat_map plan_nodes l))).
    { induction 1 as [|x l0 Hx _ IH]; [reflexivity|].
      cbn [flat_map]. rewrite length_app, Hx, IH. lia. }
    cbn [count_items_recursive plan_nodes pn_subtopics pn_subsubtopics
         pn_subsubsubtopics length].
    rewrite !Hfix by assumption. rewrite !length_app. lia. }
  induction l as [|x l IH]; [reflexivity|].
  cbn [count_items fold_right flat_map]. fold (count_items l).
  rewrite length_app, Hnode, IH. lia.
Qed.

Section NotesProgress.

Variable model : llm.
Variable subject : string.
Variable plan : lesson_plan.
Variables difficulty_level highlighted_text : string.
Variable temp : Q.

#[local] Abbreviation notes_walk :=
  (generate_notes_recursive model subject plan difficulty_level highlighted_text temp).
#[local] Abbreviation notes_list :=
  (generate_notes_list model subject plan difficulty_level highlighted_text temp).

Lemma notes_list_app l1 l2 ctx st :
  notes_list (l1 ++ l2) ctx st = notes_list l2 ctx (notes_list l1 ctx st).
Proof. unfold generate_notes_list. apply fold_left_app. Qed.

Lemma notes_progress_list l :
  Forall (fun data => forall ctx n w,
            notes_progress_spec (plan_ids [data]) n w (notes_walk data ctx (n, w))) l ->
  forall ctx n w, notes_progress_spec (plan_ids l) n w (notes_list l ctx (n, w)).
Proof.
  induction 1 as [|data l Hd _ IH]; intros ctx n w.
  - exists []. simpl. rewrite app_nil_r. repeat split; try lia.
    + set_solver.
    + constructor.
    + now apply elem_of_nil in H.
    + now apply elem_of_nil in H.
  - rewrite notes_list_cons, plan_ids_cons.
    assert (Hd' := Hd ctx n w). clear Hd.
    destruct (notes_walk data ctx (n, w)) as [n1 w1].
    destruct Hd' as (c1 & Hk1 & Hc1 & Hp1 & Hn1 & Hi1).
    assert (IH' := IH ctx n1 w1). clear IH.
    destruct (notes_list l ctx (n1, w1)) as [n2 w2].
    destruct IH' as (c2 & Hk2 & Hc2 & Hp2 & Hn2 & Hi2).
    exists (c1 ++ c2). rewrite map_app. repeat split.
    + now rewrite Hk2, Hk1, app_assoc.
    + rewrite Hc2, Hc1, length_app. lia.
    + rewrite Hp2, Hp1, list_to_set_app_L. set_solver.
    + apply NoDup_app. split; [assumption|]. split; [|assumption].
      intros i Hin1 Hin2. apply Hi2 in Hin2 as [_ Hnot]. apply Hnot.
      rewrite Hp1. apply elem_of_union. left. now apply elem_of_list_to_set.
    + apply elem_of_app in H as [H|H]; apply elem_of_app.
      * left. now apply Hi1.
      * right. now apply Hi2.
    + apply elem_of_app in H as [H|H].
      * now apply Hi1.
      * apply Hi2 in H as [_ Hnot]. rewrite Hp1 in Hnot. set_solver.
Qed.

Lemma notes_unfold_children data ctx n w :
  notes_walk data ctx (n, w) =
  if decide (pn_id data ∈ processed_ids n) then (n, w)
  else
    let clc := dict_set (dict_update [] ctx) (pn_id data) (pn_title data) in
    let '(topic_content, w1) :=
      generate_lecture_notes_chunk model subject plan difficulty_level
        highlighted_text temp (pn_id data) clc w in
    let n1 := Notes (document_text n +:+ topic_content +:+ nl +:+ nl)
                    (item_count n + 1) ({[pn_id data]} ∪ processed_ids n) in
    notes_list (pn_children data) clc (n1, w1).
Proof.
  rewrite notes_unfold. destruct (decide _); [reflexivity|]. cbv zeta.
  destruct (generate_lecture_notes_chunk _ _ _ _ _ _ _ _ _) as [text w1].
  unfold pn_children. now rewrite !notes_list_app.
Qed.

Lemma notes_progress_walk data :
  forall ctx n w,
    notes_progress_spec (plan_ids [data]) n w (notes_walk data ctx (n, w)).
Proof.
  induction data as [data IH] using children_induction.
  intros ctx n w. rewrite notes_unfold_children, plan_ids_children.
  destruct (decide (pn_id data ∈ processed_ids n)) as [Hin|Hnot].
  { exists []. simpl. rewrite app_nil_r. repeat split; try lia.
    - set_solver.
    - constructor.
    - now apply elem_of_nil in H.
    - now apply elem_of_nil in H. }
  set (clc := dict_set (dict_update [] ctx) (pn_id data) (pn_title data)).
  cbv zeta.
  destruct (notes_chunk_spec model subject plan difficulty_level highlighted_text
              temp (pn_id data) clc w) as (c & Hci & _ & _ & Hck).
  destruct (generate_lecture_notes_chunk _ _ _ _ _ _ _ clc w) as [text w1].
  simpl in Hck. set (n1 := Notes _ _ _).
  assert (L := notes_progress_list (pn_children data) IH clc n1 w1).
  destruct (notes_list (pn_children data) clc (n1, w1)) as [n2 w2].
  destruct L as (c1 & Hk1 & Hc1 & Hp1 & Hn1 & Hi1).
  simpl in Hc1, Hp1.
  exists (c :: c1). cbn [map length]. rewrite Hci. repeat split.
  - rewrite Hk1, Hck, <- app_assoc. reflexivity.
  - rewrite Hc1. lia.
  - rewrite Hp1. cbn [list_to_set foldr]. set_solver.
  - apply NoDup_cons. split; [|assumption].
    intros Hin. apply Hi1 in Hin as [_ Hno]. apply Hno. simpl. set_solver.
  - apply elem_of_cons in H as [->|H]; [apply elem_of_cons; now left|].
    apply elem_of_cons. right. now apply Hi1.
  - apply elem_of_cons in H as [->|H]; [assumption|].
    apply Hi1 in H as [_ Hno]. simpl in Hno. set_solver.
Qed.

End NotesProgress.


(** ** What the generators leave in the cache *)

Lemma world_grows_refl w : world_grows w w.
Proof. split; reflexivity. Qed.

Lemma world_grows_trans w1 w2 w3 :
  world_grows w1 w2 -> world_grows w2 w3 -> world_grows w1 w3.
Proof. intros [H1 H2] [H3 H4]. split; etrans; eassumption. Qed.

Lemma world_grows_sent prompt w : world_grows w (sent prompt w).
Proof. split; [reflexivity|]. simpl. now apply prefix_app_r. Qed.

Lemma world_grows_stored prompt text w :
  generation_cache w !! prompt = None -> world_grows w (stored prompt text w).
Proof. intros H. split; [|reflexivity]. simpl. now apply insert_subseteq. Qed.

Lemma world_grows_called c w : world_grows w (called c w).
Proof. split; reflexivity. Qed.

Section GrowingWorld.

Variable model : llm.

Lemma text_grows prompt temp w :
  world_grows w (snd (generate_text_from_prompt model prompt temp w)).
Proof.
  unfold generate_text_from_prompt.
  destruct (generation_cache w !! prompt) eqn:E; [apply world_grows_refl|].
  destruct (model _ _ _); simpl; [|apply world_grows_sent].
  split; simpl; [now apply insert_subseteq | now apply prefix_app_r].
Qed.

Lemma roadmap_grows subject syllabus_text difficulty_level temp w :
  world_grows w (snd (generate_roadmap model subject syllabus_text
                        difficulty_level temp w)).
Proof. apply text_grows. Qed.

Lemma chunk_grows subject difficulty_level topic ctx depth temp w :
  world_grows w (snd (generate_lesson_plan_chunk model subject difficulty_level
                        topic ctx depth temp w)).
Proof.
  unfold generate_lesson_plan_chunk.
  destruct (generation_cache w !! _) eqn:E; [apply world_grows_called|].
  destruct (model _ _ _); simpl.
  - split; simpl; [now apply insert_subseteq | now apply prefix_app_r].
  - split; simpl; [reflexivity | now apply prefix_app_r].
Qed.

Variables subject difficulty_level : string.
Variable temp : Q.

#[local] Abbreviation walk :=
  (generate_lesson_plan_chunk_json model subject difficulty_level temp).
#[local] Abbreviation walk_list :=
  (generate_topics model subject difficulty_level temp).

Lemma walk_list_grows l :
  Forall (fun t => forall ctx depth w, world_grows w (snd (walk t ctx depth w))) l ->
  forall ctx depth w, world_grows w (snd (walk_list l ctx depth w)).
Proof.
  induction 1 as [|t l Ht _ IH]; intros ctx depth w; [apply world_grows_refl|].
  simpl. specialize (Ht ctx depth w).
  destruct (walk t ctx depth w) as [j w1]. specialize (IH ctx depth w1).
  destruct (walk_list l ctx depth w1) as [js w2]. simpl in *.
  now apply (world_grows_trans _ w1).
Qed.

Lemma walk_grows t :
  forall ctx depth w, world_grows w (snd (walk t ctx depth w)).
Proof.
  induction t as [id desc s ss sss Hs Hss Hsss] using topic_data_induction.
  intros ctx depth w. rewrite walk_unfold. cbv zeta.
  set (clc := dict_update _ ctx).
  pose proof (chunk_grows subject difficulty_level (TopicData id desc s ss sss)
                clc depth temp w) as G0.
  destruct (generate_lesson_plan_chunk _ _ _ _ clc depth temp w) as [content w1].
  pose proof (walk_list_grows _ Hs clc (depth + 1) w1) as G1.
  cbn [td_subtopics td_subsubtopics td_subsubsubtopics].
  destruct (walk_list s clc (depth + 1) w1) as [subs w2].
  pose proof (walk_list_grows _ Hss clc (depth + 2) w2) as G2.
  destruct (walk_list ss clc (depth + 2) w2) as [subsubs w3].
  pose proof (walk_list_grows _ Hsss clc (depth + 3) w3) as G3.
  destruct (walk_list sss clc (depth + 3) w3) as [subsubsubs w4].
  simpl in *. eauto using world_grows_trans.
Qed.

Lemma walk_topics_grows l ctx depth w :
  world_grows w (snd (walk_list l ctx depth w)).
Proof.
  apply walk_list_grows. apply Forall_forall. intros t _. apply walk_grows.
Qed.

Variable plan : lesson_plan.
Variable highlighted_text : string.

#[local] Abbreviation notes_walk :=
  (generate_notes_recursive model subject plan difficulty_level highlighted_text temp).
#[local] Abbreviation notes_list :=
  (generate_notes_list model subject plan difficulty_level highlighted_text temp).

Lemma notes_chunk_grows id ctx w :
  world_grows w (snd (generate_lecture_notes_chunk model subject plan
                        difficulty_level highlighted_text temp id ctx w)).
Proof.
  unfold generate_lecture_notes_chunk.
  set (prompt := create_lecture_notes_prompt _ _ _ _ _ _).
  pose proof (text_grows prompt temp w) as G.
  destruct (generate_text_from_prompt model prompt temp w) as [text w1].
  simpl in *. eapply world_grows_trans; [exact G | apply world_grows_called].
Qed.

Lemma notes_list_grows l :
  Forall (fun data => forall ctx n w,
            world_grows w (snd (notes_walk data ctx (n, w)))) l ->
  forall ctx n w, world_grows w (snd (notes_list l ctx (n, w))).
Proof.
  induction 1 as [|data l Hd _ IH]; intros ctx n w; [apply world_grows_refl|].
  rewrite notes_list_cons. specialize (Hd ctx n w).
  destruct (notes_walk data ctx (n, w)) as [n1 w1]. simpl in Hd.
  now apply (world_grows_trans _ w1).
Qed.

Lemma notes_walk_grows data :
  forall ctx n w, world_grows w (snd (notes_walk data ctx (n, w))).
Proof.
  induction data as [data IH] using children_induction.
  intros ctx n w. rewrite notes_unfold_children.
  destruct (decide _); [apply world_grows_refl|]. cbv zeta.
  set (clc := dict_set _ _ _).
  pose proof (notes_chunk_grows (pn_id data) clc w) as G0.
  destruct (generate_lecture_notes_chunk _ _ _ _ _ _ _ clc w) as [text w1].
  simpl in G0. eapply world_grows_trans; [exact G0|].
  now apply notes_list_grows.
Qed.

End GrowingWorld.

(** No generator removes or changes an entry of the cache, and none takes
    back a request: from the world a call starts in to the world it leaves,
    every cached prompt keeps its text and the requests sent before are
    still the first ones sent.  This holds for the roadmap generator, the
    text generator, the chunk generator, the whole lesson-plan generation
    and the whole notes generation. *)
Theorem generators_only_add_to_the_cache (model : llm)
    (subject difficulty_level syllabus_text highlighted_text roadmap prompt : string)
    (temp : Q) (topic : topic_data) (ctx : context) (depth : Z)
    (plan : lesson_plan) (fresh : document) (w : world) :
  world_grows w (snd (generate_roadmap model subject syllabus_text
                        difficulty_level temp w))
  /\ world_grows w (snd (generate_text_from_prompt model prompt temp w))
  /\ world_grows w (snd (generate_lesson_plan_chunk model subject difficulty_level
                           topic ctx depth temp w))
  /\ world_grows w (snd (generate_lesson_plan_recursive model subject
                           difficulty_level temp roadmap ctx depth w))
  /\ world_grows w (snd (create_detailed_notes_recursive model subject plan
                           difficulty_level highlighted_text temp fresh w)).
Proof.
  split; [apply roadmap_grows|]. split; [apply text_grows|].
  split; [apply chunk_grows|]. split.
  - unfold generate_lesson_plan_recursive.
    pose proof (walk_topics_grows model subject difficulty_level temp
                  (parse_roadmap roadmap) ctx depth w) as G.
    now destruct (generate_topics _ _ _ _ _ _ _ _).
  - unfold create_detailed_notes_recursive.
    pose proof (notes_list_grows model subject difficulty_level temp plan
                  highlighted_text (lp_topics plan)) as G.
    specialize (G ltac:(apply Forall_forall; intros data _; apply notes_walk_grows)
                  [] (Notes EmptyString 0 ∅) w).
    now destruct (generate_notes_list _ _ _ _ _ _ _ _ _).
Qed.

(** ** Generating again *)

Lemma same_service_state_called c w : same_service_state w (called c w).
Proof. split; reflexivity. Qed.

Section Replay.

Variables model model' : llm.
Hypothesis answers : always_answers model.
Variables subject difficulty_level : string.
Variables temp temp' : Q.

(** After a call of the chunk generator that the service answered, the
    prompt is cached with the text the call returned. *)
Lemma chunk_cached topic ctx depth w :
  generation_cache
    (snd (generate_lesson_plan_chunk model subject difficulty_level topic ctx
            depth temp w))
    !! build_prompt_with_hierarchy subject difficulty_level topic ctx depth
  = Some (fst (generate_lesson_plan_chunk model subject difficulty_level topic
                 ctx depth temp w)).
Proof.
  unfold generate_lesson_plan_chunk.
  destruct (generation_cache w !! _) eqn:E; [exact E|].
  destruct (model _ _ _) eqn:M; [|now apply answers in M].
  simpl. apply lookup_insert_eq.
Qed.

Lemma chunk_hit topic ctx depth w text :
  generation_cache w
    !! build_prompt_with_hierarchy subject difficulty_level topic ctx depth
  = Some text ->
  generate_lesson_plan_chunk model' subject difficulty_level topic ctx depth
    temp' w
  = (text, called (LessonChunk (td_id topic) ctx depth (Cached text)) w).
Proof. intros H. unfold generate_lesson_plan_chunk. now rewrite H. Qed.

#[local] Abbreviation walk :=
  (generate_lesson_plan_chunk_json model subject difficulty_level temp).
#[local] Abbreviation walk_list :=
  (generate_topics model subject difficulty_level temp).
#[local] Abbreviation walk_again :=
  (generate_lesson_plan_chunk_json model' subject difficulty_level temp').
#[local] Abbreviation walk_list_again :=
  (generate_topics model' subject difficulty_level temp').

Lemma walk_list_replays l :
  Forall (fun t => forall ctx depth w w',
            generation_cache (snd (walk t ctx depth w)) ⊆ generation_cache w' ->
            exists w'', walk_again t ctx depth w' = (fst (walk t ctx depth w), w'')
                        /\ same_service_state w' w'') l ->
  forall ctx depth w w',
    generation_cache (snd (walk_list l ctx depth w)) ⊆ generation_cache w' ->
    exists w'', walk_list_again l ctx depth w'
                = (fst (walk_list l ctx depth w), w'')
                /\ same_service_state w' w''.
Proof.
  induction 1 as [|t l Ht _ IH]; intros ctx depth w w' Hsub.
  - exists w'. split; [reflexivity | split; reflexivity].
  - simpl in *. specialize (Ht ctx depth w w').
    destruct (walk t ctx depth w) as [j w1].
    pose proof (walk_topics_grows model subject difficulty_level temp l ctx depth w1)
      as [G _].
    specialize (IH ctx depth w1).
    destruct (walk_list l ctx depth w1) as [js w2]. simpl in *.
    destruct Ht as (wa & -> & Ec & Er); [etrans; eassumption|].
    destruct (IH wa) as (wb & -> & Ec' & Er'); [now rewrite Ec|].
    exists wb. split; [reflexivity|]. split; congruence.
Qed.

Lemma walk_replays t :
  forall ctx depth w w',
    generation_cache (snd (walk t ctx depth w)) ⊆ generation_cache w' ->
    exists w'', walk_again t ctx depth w' = (fst (walk t ctx depth w), w'')
                /\ same_service_state w' w''.
Proof.
  induction t as [id desc s ss sss Hs Hss Hsss] using topic_data_induction.
  intros ctx depth w w'. rewrite !walk_unfold. cbv zeta.
  set (t := TopicData id desc s ss sss).
  set (clc := dict_update _ ctx).
  pose proof (chunk_cached t clc depth w) as Hc.
  destruct (generate_lesson_plan_chunk model _ _ _ clc depth temp w)
    as [content w1].
  cbn [td_subtopics td_subsubtopics td_subsubsubtopics t].
  pose proof (walk_topics_grows model subject difficulty_level temp s clc
                (depth + 1) w1) as [G1 _].
  pose proof (walk_list_replays s Hs clc (depth + 1) w1) as R1.
  destruct (walk_list s clc (depth + 1) w1) as [subs w2].
  pose proof (walk_topics_grows model subject difficulty_level temp ss clc
                (depth + 2) w2) as [G2 _].
  pose proof (walk_list_replays ss Hss clc (depth + 2) w2) as R2.
  destruct (walk_list ss clc (depth + 2) w2) as [subsubs w3].
  pose proof (walk_topics_grows model subject difficulty_level temp sss clc
                (depth + 3) w3) as [G3 _].
  pose proof (walk_list_replays sss Hsss clc (depth + 3) w3) as R3.
  destruct (walk_list sss clc (depth + 3) w3) as [subsubsubs w4].
  simpl in *. intros Hsub.
  assert (S3 : generation_cache w3 ⊆ generation_cache w') by (etrans; eassumption).
  assert (S2 : generation_cache w2 ⊆ generation_cache w') by (etrans; eassumption).
  assert (S1 : generation_cache w1 ⊆ generation_cache w') by (etrans; eassumption).
  rewrite (chunk_hit t clc depth w' content)
    by (eapply lookup_weaken; eassumption).
  destruct (R1 (called (LessonChunk (td_id t) clc depth (Cached content)) w'))
    as (wa & -> & Eca & Era); [exact S2|].
  destruct (R2 wa) as (wb & -> & Ecb & Erb); [now rewrite Eca|].
  destruct (R3 wb) as (wc & -> & Ecc & Erc); [now rewrite Ecb, Eca|].
  exists wc. split; [reflexivity|]. split; simpl in *; congruence.
Qed.

End Replay.

(** When the service answered every request of a lesson-plan generation,
    generating the lesson plan again for the same subject, level, roadmap,
    context and depth sends no request and gives the same plan, whatever
    the temperature is and whatever the service would do: every chunk is
    served from the cache. *)
Theorem lesson_plan_again_is_served_from_the_cache (model model' : llm)
    (subject difficulty_level roadmap : string) (temp temp' : Q)
    (ctx : context) (depth : Z) (w : world) :
  always_answers model ->
  let first := generate_lesson_plan_recursive model subject difficulty_level
                 temp roadmap ctx depth w in
  let second := generate_lesson_plan_recursive model' subject difficulty_level
                  temp' roadmap ctx depth (snd first) in
  fst second = fst first
  /\ requests (snd second) = requests (snd first)
  /\ generation_cache (snd second) = generation_cache (snd first).
Proof.
  intros Hans first second. unfold second, first, generate_lesson_plan_recursive.
  pose proof (walk_list_replays model model' subject difficulty_level temp
                temp' (parse_roadmap roadmap)) as R.
  specialize (R ltac:(apply Forall_forall; intros t _; now apply walk_replays)
                ctx depth w).
  destruct (generate_topics model _ _ _ _ _ _ w) as [js w1]. simpl in *.
  destruct (R w1) as (w2 & -> & Ec & Er); [reflexivity|].
  simpl. auto.
Qed.

Lemma lesson_plan_again_is_served_from_the_cache_witness :
  let model : llm := fun n _ _ => Some ("  chunk " +:+ Py.str_of_Z (Z.of_nat n)) in
  let silent : llm := fun _ _ _ => None in
  let text := "T1: A" +:+ nl +:+ "T1.1: B" in
  let first := generate_lesson_plan_recursive model "Maths" "Btech" (7 # 10)
                 text [] 1 world_init in
  let second := generate_lesson_plan_recursive silent "Maths" "Btech" (2 # 10)
                  text [] 1 (snd first) in
  fst second = fst first /\ length (requests (snd second)) = 2%nat.
Proof.
  cbv zeta. split.
  - refine (proj1 (lesson_plan_again_is_served_from_the_cache
                     (fun n _ _ => Some ("  chunk " +:+ Py.str_of_Z (Z.of_nat n)))
                     (fun _ _ _ => None) "Maths" "Btech"
                     ("T1: A" +:+ nl +:+ "T1.1: B") (7 # 10) (2 # 10) [] 1
                     world_init _)).
    intros n prompt config. discriminate.
  - vm_compute. reflexivity.
Defined.

Section NotesReplay.

Variables model model' : llm.
Hypothesis answers : always_answers model.
Variable subject : string.
Variable plan : lesson_plan.
Variables difficulty_level highlighted_text : string.
Variables temp temp' : Q.

Lemma text_cached prompt w :
  generation_cache (snd (generate_text_from_prompt model prompt temp w)) !! prompt
  = Some (fst (generate_text_from_prompt model prompt temp w)).
Proof.
  unfold generate_text_from_prompt.
  destruct (generation_cache w !! prompt) eqn:E; [exact E|].
  destruct (model _ _ _) eqn:M; [|now apply answers in M].
  simpl. apply lookup_insert_eq.
Qed.

#[local] Abbreviation notes_chunk :=
  (generate_lecture_notes_chunk model subject plan difficulty_level
     highlighted_text temp).
#[local] Abbreviation notes_chunk_again :=
  (generate_lecture_notes_chunk model' subject plan difficulty_level
     highlighted_text temp').
#[local] Abbreviation notes_walk :=
  (generate_notes_recursive model subject plan difficulty_level highlighted_text temp).
#[local] Abbreviation notes_list :=
  (generate_notes_list model subject plan difficulty_level highlighted_text temp).
#[local] Abbreviation notes_walk_again :=
  (generate_notes_recursive model' subject plan difficulty_level highlighted_text
     temp').
#[local] Abbreviation notes_list_again :=
  (generate_notes_list model' subject plan difficulty_level highlighted_text temp').

Lemma notes_chunk_replays id ctx w w' :
  generation_cache (snd (notes_chunk id ctx w)) ⊆ generation_cache w' ->
  exists w'', notes_chunk_again id ctx w' = (fst (notes_chunk id ctx w), w'')
              /\ same_service_state w' w''.
Proof.
  unfold generate_lecture_notes_chunk.
  set (prompt := create_lecture_notes_prompt _ _ _ _ _ _).
  pose proof (text_cached prompt w) as Hc.
  destruct (generate_text_from_prompt model prompt temp w) as [text w1].
  simpl in *. intros Hsub.
  rewrite (text_hit model' prompt temp' w' text)
    by (eapply lookup_weaken; eassumption).
  eexists. split; [reflexivity | apply same_service_state_called].
Qed.

Lemma notes_list_replays l :
  Forall (fun data => forall ctx n w w',
            generation_cache (snd (notes_walk data ctx (n, w))) ⊆ generation_cache w' ->
            exists w'', notes_walk_again data ctx (n, w')
                        = (fst (notes_walk data ctx (n, w)), w'')
                        /\ same_service_state w' w'') l ->
  forall ctx n w w',
    generation_cache (snd (notes_list l ctx (n, w))) ⊆ generation_cache w' ->
    exists w'', notes_list_again l ctx (n, w')
                = (fst (notes_list l ctx (n, w)), w'')
                /\ same_service_state w' w''.
Proof.
  induction 1 as [|data l Hd _ IH]; intros ctx n w w' Hsub.
  - exists w'. split; [reflexivity | split; reflexivity].
  - rewrite !notes_list_cons in *. specialize (Hd ctx n w w').
    destruct (notes_walk data ctx (n, w)) as [n1 w1].
    pose proof (notes_list_grows model subject difficulty_level temp plan
                  highlighted_text l) as G.
    specialize (G ltac:(apply Forall_forall; intros d _; apply notes_walk_grows)
                  ctx n1 w1) as [G _].
    simpl in Hd. destruct Hd as (wa & -> & Ec & Er); [etrans; eassumption|].
    destruct (IH ctx n1 w1 wa) as (wb & -> & Ec' & Er'); [now rewrite Ec|].
    exists wb. split; [reflexivity|]. split; congruence.
Qed.

Lemma notes_walk_replays data :
  forall ctx n w w',
    generation_cache (snd (notes_walk data ctx (n, w))) ⊆ generation_cache w' ->
    exists w'', notes_walk_again data ctx (n, w')
                = (fst (notes_walk data ctx (n, w)), w'')
                /\ same_service_state w' w''.
Proof.
  induction data as [data IH] using children_induction.
  intros ctx n w w'. rewrite !notes_unfold_children.
  destruct (decide _).
  { intros _. exists w'. split; [reflexivity | split; reflexivity]. }
  cbv zeta. set (clc := dict_set _ _ _).
  pose proof (notes_chunk_replays (pn_id data) clc w w') as R0.
  destruct (notes_chunk (pn_id data) clc w) as [text w1].
  set (n1 := Notes _ _ _).
  pose proof (notes_list_grows model subject difficulty_level temp plan
                highlighted_text (pn_children data)) as G.
  specialize (G ltac:(apply Forall_forall; intros d _; apply notes_walk_grows)
                clc n1 w1) as [G _].
  intros Hsub. simpl in R0.
  destruct R0 as (wa & -> & Ec & Er); [etrans; eassumption|].
  fold n1.
  destruct (notes_list_replays _ IH clc n1 w1 wa) as (wb & -> & Ec' & Er');
    [now rewrite Ec|].
  exists wb. split; [reflexivity|]. split; congruence.
Qed.

End NotesReplay.

(** When the service answered every request of a notes generation,
    generating the notes again for the same plan sends no request and
    writes the same document, whatever the temperature is and whatever the
    service would do. *)
Theorem notes_again_are_served_from_the_cache (model model' : llm)
    (subject : string) (plan : lesson_plan)
    (difficulty_level highlighted_text : string) (temp temp' : Q)
    (fresh : document) (w : world) :
  always_answers model ->
  let first := create_detailed_notes_recursive model subject plan
                 difficulty_level highlighted_text temp fresh w in
  let second := create_detailed_notes_recursive model' subject plan
                  difficulty_level highlighted_text temp' fresh (snd first) in
  fst second = fst first
  /\ requests (snd second) = requests (snd first)
  /\ generation_cache (snd second) = generation_cache (snd first).
Proof.
  intros Hans first second. unfold second, first, create_detailed_notes_recursive.
  pose proof (notes_list_replays model model' subject plan difficulty_level
                highlighted_text temp temp' (lp_topics plan)) as R.
  specialize (R ltac:(apply Forall_forall; intros d _; now apply notes_walk_replays)
                [] (Notes EmptyString 0 ∅) w).
  destruct (generate_notes_list model _ _ _ _ _ _ _ _) as [n1 w1]. simpl in *.
  destruct (R w1) as (w2 & -> & Ec & Er); [reflexivity|].
  simpl. auto.
Qed.

Lemma notes_again_are_served_from_the_cache_witness :
  let model : llm := fun n _ _ => Some ("  notes " +:+ Py.str_of_Z (Z.of_nat n)) in
  let silent : llm := fun _ _ _ => None in
  let plan := LessonPlan "Maths" "Btech"
                [PlanNode "T1" "A" "a" [PlanNode "T1.1" "B" "b" [] [] []] [] []] in
  let first := create_detailed_notes_recursive model "Maths" plan "Btech" "[]"
                 (8 # 10) (Document 164 []) world_init in
  let second := create_detailed_notes_recursive silent "Maths" plan "Btech" "[]"
                  (1 # 10) (Document 164 []) (snd first) in
  fst second = fst first /\ length (requests (snd second)) = 2%nat.
Proof.
  cbv zeta. split.
  - refine (proj1 (notes_again_are_served_from_the_cache
                     (fun n _ _ => Some ("  notes " +:+ Py.str_of_Z (Z.of_nat n)))
                     (fun _ _ _ => None) "Maths"
                     (LessonPlan "Maths" "Btech"
                        [PlanNode "T1" "A" "a"
                           [PlanNode "T1.1" "B" "b" [] [] []] [] []])
                     "Btech" "[]" (8 # 10) (1 # 10) (Document 164 []) world_init _)).
    intros n prompt config. discriminate.
  - vm_compute. reflexivity.
Defined.

(** ** The Markdown writer on lists *)

Lemma lstrip_by_head p s :
  Py.lstrip_by p s = EmptyString
  \/ exists c r, Py.lstrip_by p s = String c r /\ p c = false.
Proof.
  induction s as [|c s IH]; [now left|]. simpl.
  destruct (p c) eqn:E; [exact IH|]. right. eauto.
Qed.

Lemma rstrip_by_head p c r :
  p c = false -> exists r', Py.rstrip_by p (String c r) = String c r'.
Proof.
  intros E. simpl. destruct (Py.rstrip_by p r); [rewrite E|]; eauto.
Qed.

(** A stripped string does not start with white space. *)
Lemma lstrip_strip s : Py.lstrip (Py.strip s) = Py.strip s.
Proof.
  unfold Py.strip, Py.lstrip.
  destruct (lstrip_by_head Py.isspace s) as [->|(c & r & -> & E)]; [reflexivity|].
  destruct (rstrip_by_head Py.isspace c r E) as [r' ->]. simpl. now rewrite E.
Qed.

Lemma flat_block_add_run i r bs :
  Forall flat_block bs ->
  Forall flat_block
    (alter (fun b => match b with
                     | Paragraph st ind rs => Paragraph st ind (rs ++ [r])
                     | Heading _ _ => b
                     end) i bs).
Proof.
  intros H. apply Forall_alter; [exact H|]. intros [text level|st ind rs] _; auto.
Qed.

(** The level of a list item is always 1. *)
Lemma list_level_is_one (wr : writer) raw :
  (if negb (in_list wr) then 1
   else
     let spaces := Py.len (Py.strip raw) - Py.len (Py.lstrip (Py.strip raw)) in
     let new_level := spaces / 2 + 1 in
     if list_level wr <? new_level then new_level
     else if new_level <? list_level wr then new_level
     else list_level wr) = 1.
Proof.
  destruct (negb (in_list wr)); [reflexivity|].
  rewrite lstrip_strip, Z.sub_diag. cbv zeta.
  change (0 / 2 + 1) with 1.
  destruct (list_level wr <? 1) eqn:E1; [reflexivity|].
  destruct (1 <? list_level wr) eqn:E2; [reflexivity|]. lia.
Qed.

Lemma write_paragraph_flat wr raw :
  Forall flat_block (blocks (doc wr)) ->
  Forall flat_block (blocks (doc (write_paragraph wr raw))).
Proof.
  intros H. unfold write_paragraph.
  destruct (Py.startswith "```" (Py.strip raw)).
  { destruct (negb (in_code_block wr)); [|exact H]. simpl.
    apply Forall_app. split; [exact H|]. constructor; [|constructor].
    split; [reflexivity|]. right. right. eauto. }
  destruct (in_code_block wr).
  { destruct (code_para wr); [|exact H]. simpl. now apply flat_block_add_run. }
  destruct (Py.startswith "#" (Py.strip raw)).
  { simpl. apply Forall_app. split; [exact H|]. now repeat constructor. }
  destruct (Py.startswith "- " (Py.strip raw) || Py.startswith "* " (Py.strip raw)).
  { rewrite list_level_is_one. simpl. apply Forall_app. split; [exact H|].
    constructor; [|constructor]. split; [reflexivity|]. right. now left. }
  cbv zeta.
  destruct (Py.truthy _).
  - destruct (in_list wr); simpl; (apply Forall_app; split; [exact H|]);
      (constructor; [|constructor]); (split; [reflexivity | now left]).
  - now destruct (in_list wr).
Qed.



(** ** The parser of the first pipeline *)

Lemma dict_get_set_eq {V} (d : dict V) k (v : V) :
  dict_get (dict_set d k v) k = Some v.
Proof.
  induction d as [|[k0 v0] d IH]; simpl.
  - now rewrite String.eqb_refl.
  - destruct (String.eqb k0 k) eqn:E; simpl; now rewrite E.
Qed.

Lemma dict_get_set_ne {V} (d : dict V) k k' (v : V) :
  k <> k' -> dict_get (dict_set d k v) k' = dict_get d k'.
Proof.
  intros Hne. induction d as [|[k0 v0] d IH]; simpl.
  - now apply String.eqb_neq in Hne as ->.
  - destruct (String.eqb k0 k) eqn:E; simpl.
    + apply String.eqb_eq in E as ->. now apply String.eqb_neq in Hne as ->.
    + now rewrite IH.
Qed.

(** [len(s.split(sep)) = s.count(sep) + 1] *)
Lemma split_from_length sep s :
  forall skip cur,
    Z.of_nat (length (Py.split_from sep s skip cur)) = 1 + Py.count_from sep s skip.
Proof.
  induction s as [|c s IH]; intros skip cur; [reflexivity|].
  cbn [Py.split_from Py.count_from]. destruct skip as [|k]; [|apply IH].
  destruct (String.prefix sep (String c s)).
  - cbn [length]. rewrite Nat2Z.inj_succ, IH. lia.
  - apply IH.
Qed.

Lemma split_length sep s :
  Z.of_nat (length (Py.split sep s)) = 1 + Py.count sep s.
Proof. apply split_from_length. Qed.

Lemma parse_plan_line_safe p raw :
  subscripts_safe p -> subscripts_safe (App.parse_plan_line p raw).
Proof.
  intros H. unfold App.parse_plan_line.
  destruct (negb (Py.truthy (Py.strip raw))); [exact H|].
  destruct (negb (Py.contains "->" (Py.strip raw))).
  { unfold subscripts_safe. simpl. exists []. now rewrite dict_get_set_eq. }
  destruct (Py.count "->" (Py.strip raw) =? 1).
  { destruct (map Py.strip (Py.split "->" (Py.strip raw)))
      as [|topic [|subtopic [|]]]; try exact H.
    destruct (bool_decide (Some topic = App.current_topic p)) eqn:E; [|exact H].
    apply bool_decide_eq_true in E. unfold subscripts_safe in *.
    rewrite <- E in H. destruct H as (d & Hd & _). simpl. rewrite <- E.
    unfold App.set_subtopic. rewrite Hd.
    exists (dict_set d subtopic []). rewrite !dict_get_set_eq.
    split; [reflexivity | eauto]. }
  destruct (Py.count "->" (Py.strip raw) =? 2); [|exact H].
  destruct (map Py.strip (Py.split "->" (Py.strip raw)))
    as [|topic [|subtopic [|sub_subtopic [|]]]]; try exact H.
  destruct (bool_decide (Some topic = App.current_topic p)) eqn:E1; [|exact H].
  destruct (bool_decide (Some subtopic = App.current_subtopic p)) eqn:E2;
    [|exact H].
  apply bool_decide_eq_true in E1, E2. unfold subscripts_safe in *.
  rewrite <- E1, <- E2 in H. destruct H as (d & Hd & [l Hl]).
  simpl. rewrite <- E1, <- E2. unfold App.append_sub_subtopic. rewrite Hd, Hl.
  exists (dict_set d subtopic (l ++ [sub_subtopic])). rewrite !dict_get_set_eq.
  split; [reflexivity | eauto].
Qed.

(** The loop of [parse_lesson_plan] never misses a key and never fails to
    unpack a line: after any lines, the tracked topic is a key of the
    structure with a dictionary as its value and the tracked subtopic is a
    key of that dictionary, which are the only subscripts the loop takes;
    and a line with one arrow splits into two parts, a line with two arrows
    into three. *)
Theorem parse_lesson_plan_subscripts_never_miss (lines : list string) (line : string) :
  subscripts_safe (fold_left App.parse_plan_line lines (App.PlanParser [] None None))
  /\ (Py.count "->" line = 1 ->
      exists topic subtopic, Py.split "->" line = [topic; subtopic])
  /\ (Py.count "->" line = 2 ->
      exists topic subtopic sub_subtopic,
        Py.split "->" line = [topic; subtopic; sub_subtopic]).
Proof.
  split; [|split].
  - assert (G : forall p, subscripts_safe p ->
                          subscripts_safe (fold_left App.parse_plan_line lines p)).
    { induction lines as [|raw l IH]; intros p Hp; [exact Hp|].
      simpl. apply IH. now apply parse_plan_line_safe. }
    apply G. reflexivity.
  - intros H. pose proof (split_length "->" line) as L. rewrite H in L.
    destruct (Py.split "->" line) as [|a [|b [|c l]]]; simpl in L; try lia. eauto.
  - intros H. pose proof (split_length "->" line) as L. rewrite H in L.
    destruct (Py.split "->" line) as [|a [|b [|c [|d l]]]]; simpl in L; try lia.
    eauto.
Qed.

Lemma dict_set_keys {V} (P : string -> Prop) (d : dict V) k (v : V) :
  Forall (fun kv => P (fst kv)) d -> P k ->
  Forall (fun kv => P (fst kv)) (dict_set d k v).
Proof.
  intros H Hk. induction H as [|[k0 v0] d H0 Hd IH]; simpl.
  - now repeat constructor.
  - destruct (String.eqb k0 k); constructor; assumption.
Qed.

Lemma dict_get_key {V} (P : string -> Prop) (d : dict V) k (v : V) :
  Forall (fun kv => P (fst kv)) d -> dict_get d k = Some v -> P k.
Proof.
  intros H. induction H as [|[k0 v0] d H0 _ IH]; simpl; [discriminate|].
  destruct (String.eqb k0 k) eqn:E; [|exact IH].
  apply String.eqb_eq in E as <-. now intros _.
Qed.

Lemma parse_plan_line_keys (P : string -> Prop) p raw :
  (Py.strip raw <> EmptyString -> Py.contains "->" (Py.strip raw) = false ->
   P (Py.strip raw)) ->
  Forall (fun kv => P (fst kv)) (App.lesson_plan_structure p) ->
  Forall (fun kv => P (fst kv))
         (App.lesson_plan_structure (App.parse_plan_line p raw)).
Proof.
  intros Hline H. unfold App.parse_plan_line.
  destruct (Py.strip raw) as [|c line'] eqn:Es; [exact H|]. cbn [Py.truthy negb].
  destruct (Py.contains "->" (String c line')) eqn:Ec; cbn [negb].
  2:{ simpl. apply dict_set_keys; [exact H|]. now apply Hline. }
  destruct (Py.count "->" (String c line') =? 1).
  { destruct (map Py.strip (Py.split "->" (String c line')))
      as [|topic [|subtopic [|]]]; try exact H.
    destruct (bool_decide _); [|exact H]. simpl. unfold App.set_subtopic.
    destruct (dict_get _ topic) as [[d|]|] eqn:Ed; try exact H.
    apply dict_set_keys; [exact H|]. eapply dict_get_key; eassumption. }
  destruct (Py.count "->" (String c line') =? 2); [|exact H].
  destruct (map Py.strip (Py.split "->" (String c line')))
    as [|topic [|subtopic [|sub_subtopic [|]]]]; try exact H.
  destruct (_ && _); [|exact H]. simpl. unfold App.append_sub_subtopic.
  destruct (dict_get _ topic) as [[d|]|] eqn:Ed; try exact H.
  destruct (dict_get d subtopic); [|exact H].
  apply dict_set_keys; [exact H|]. eapply dict_get_key; eassumption.
Qed.

(** Every topic of the structure [parse_lesson_plan] returns is a line of
    the text, stripped, that is not empty and has no arrow: a subtopic or
    sub-subtopic line never adds a topic. *)
Theorem parse_lesson_plan_topics_are_lines (lesson_plan_text : string) :
  Forall (fun kv =>
            topic_line (Py.split nl (Py.strip lesson_plan_text)) (fst kv))
         (App.parse_lesson_plan lesson_plan_text).
Proof.
  unfold App.parse_lesson_plan.
  set (all := Py.split nl (Py.strip lesson_plan_text)).
  assert (G : forall lines p,
             (forall raw, raw ∈ lines -> raw ∈ all) ->
             Forall (fun kv => topic_line all (fst kv)) (App.lesson_plan_structure p) ->
             Forall (fun kv => topic_line all (fst kv))
                    (App.lesson_plan_structure
                       (fold_left App.parse_plan_line lines p))).
  { induction lines as [|raw l IH]; intros p Hin Hp; [exact Hp|].
    simpl. apply IH.
    - intros r Hr. apply Hin. now apply elem_of_cons; right.
    - apply (parse_plan_line_keys (topic_line all)); [|exact Hp].
      intros Hne Hc. split; [|now split].
      apply list_elem_of_In, in_map, list_elem_of_In, Hin.
      apply elem_of_cons. now left. }
  apply G; [auto | constructor].
Qed.

(** ** The roadmap the parser builds *)

Lemma path_id_numbered numbers : numbered (length numbers) (path_id numbers).
Proof.
  exists (map Py.int_of_digits numbers). split; [apply length_map|].
  unfold path_id. now rewrite map_map.
Qed.

Lemma ids_numbered_grow st e :
  ids_numbered st -> numbered (key_level (e_key e)) (e_id e) ->
  ids_numbered (st ++ [e]).
Proof.
  intros Hst He a e0 Hl.
  apply lookup_snoc_Some in Hl as [[_ Hl]|[_ <-]]; [now apply (Hst a)|exact He].
Qed.

Lemma ids_numbered_append_child st t c :
  ids_numbered st -> ids_numbered (append_child st t c).
Proof.
  intros Hst a e0 Hl. unfold append_child in Hl.
  destruct (decide (t = a)) as [->|Hne].
  - rewrite list_lookup_alter_eq in Hl.
    destruct (st !! a) as [e|] eqn:E; [|discriminate].
    simpl in Hl. injection Hl as <-. simpl. now apply (Hst a).
  - rewrite list_lookup_alter_ne in Hl by assumption. now apply (Hst a).
Qed.

Lemma ids_numbered_attach st parent e :
  ids_numbered st -> numbered (key_level (e_key e)) (e_id e) ->
  ids_numbered match parent with
               | Some t => append_child (st ++ [e]) t (length st)
               | None => st ++ [e]
               end.
Proof.
  intros Hst He. destruct parent.
  - now apply ids_numbered_append_child, ids_numbered_grow.
  - now apply ids_numbered_grow.
Qed.

Lemma parse_line_numbered line p :
  ids_numbered (store p) -> ids_numbered (store (parse_line line p)).
Proof.
  intros H. unfold parse_line.
  destruct (groups2 _) as [[a desc]|].
  { simpl. apply ids_numbered_grow; [exact H|]. apply (path_id_numbered [a]). }
  destruct (groups3 _) as [[[a b] desc]|].
  { simpl. apply ids_numbered_attach; [exact H|]. apply (path_id_numbered [a; b]). }
  destruct (groups4 _) as [[[[a b] c] desc]|].
  { simpl. apply ids_numbered_attach; [exact H|].
    apply (path_id_numbered [a; b; c]). }
  destruct (groups5 _) as [[[[[a b] c] d] desc]|].
  { simpl. apply ids_numbered_attach; [exact H|].
    apply (path_id_numbered [a; b; c; d]). }
  exact H.
Qed.

Lemma parse_lines_numbered lines p :
  ids_numbered (store p) -> ids_numbered (store (parse_lines lines p)).
Proof.
  revert p. unfold parse_lines.
  induction lines as [|raw lines IH]; intros p Hp; [assumption|].
  simpl. apply IH. unfold parse_step.
  destruct (Py.truthy _); [now apply parse_line_numbered | assumption].
Qed.

Section NumbersOfStoredTrees.

Variable st : list entry.
Hypothesis Hst : forall a e, st !! a = Some e -> entry_ok st e.
Hypothesis Hid : ids_numbered st.

#[local] Abbreviation level_numbered :=
  (fun a : string * Z => numbered (Z.to_nat (snd a)) (fst a)).

Lemma read_numbered_below f (level : Z) k children :
  (forall c, has_key st c k ->
             Forall level_numbered (nesting_levels level (read_entry f st c))) ->
  Forall (fun c => has_key st c k) children ->
  Forall level_numbered
         (flat_map (nesting_levels level) (map (read_entry f st) children)).
Proof.
  intros HP H. apply Forall_flat_map, Forall_map.
  eapply Forall_impl; [exact H|]. exact HP.
Qed.

Lemma read_numbered4 f a :
  has_key st a Details ->
  Forall level_numbered (nesting_levels 4 (read_entry (S f) st a)).
Proof.
  intros (e & Hl & Hk). pose proof (Hid _ _ Hl) as Hn. rewrite Hk in Hn.
  rewrite read_entry_step, Hl, Hk. simpl. now repeat constructor.
Qed.

Lemma read_numbered3 f a :
  has_key st a Subsubsubtopics ->
  Forall level_numbered (nesting_levels 3 (read_entry (S (S f)) st a)).
Proof.
  intros (e & Hl & Hk). pose proof (Hst _ _ Hl) as He.
  pose proof (Hid _ _ Hl) as Hn. rewrite Hk in Hn.
  unfold entry_ok in He. rewrite Hk in He. simpl in He.
  rewrite read_entry_step, Hl, Hk.
  cbn [nesting_levels td_id td_subtopics td_subsubtopics td_subsubsubtopics
       flat_map app].
  constructor; [exact Hn|].
  eapply read_numbered_below; [|exact He]. intros; now apply read_numbered4.
Qed.

Lemma read_numbered2 f a :
  has_key st a Subsubtopics ->
  Forall level_numbered (nesting_levels 2 (read_entry (S (S (S f))) st a)).
Proof.
  intros (e & Hl & Hk). pose proof (Hst _ _ Hl) as He.
  pose proof (Hid _ _ Hl) as Hn. rewrite Hk in Hn.
  unfold entry_ok in He. rewrite Hk in He. simpl in He.
  rewrite read_entry_step, Hl, Hk.
  cbn [nesting_levels td_id td_subtopics td_subsubtopics td_subsubsubtopics
       flat_map app].
  rewrite app_nil_r.
  constructor; [exact Hn|].
  eapply read_numbered_below; [|exact He]. intros; now apply read_numbered3.
Qed.

Lemma read_numbered1 f a :
  has_key st a Subtopics ->
  Forall level_numbered (nesting_levels 1 (read_entry (S (S (S (S f)))) st a)).
Proof.
  intros (e & Hl & Hk). pose proof (Hst _ _ Hl) as He.
  pose proof (Hid _ _ Hl) as Hn. rewrite Hk in Hn.
  unfold entry_ok in He. rewrite Hk in He. simpl in He.
  rewrite read_entry_step, Hl, Hk.
  cbn [nesting_levels td_id td_subtopics td_subsubtopics td_subsubsubtopics
       flat_map app].
  rewrite !app_nil_r.
  constructor; [exact Hn|].
  eapply read_numbered_below; [|exact He]. intros; now apply read_numbered2.
Qed.

End NumbersOfStoredTrees.

(** Whatever the text is, the roadmap [parse_roadmap] returns has at most
    four levels, each under its own key: a topic has only [subtopics], these
    only [subsubtopics], these only [subsubsubtopics], and these have no
    children.  The id of a node at nesting level L is the letter T and L
    numbers separated by dots, each as [str(int(...))] writes it, so a
    number of the text loses its leading zeros. *)
Theorem parsed_roadmap_has_four_numbered_levels (roadmap_text : string) :
  Forall level1_shaped (parse_roadmap roadmap_text)
  /\ Forall (fun a => numbered (Z.to_nat (snd a)) (fst a))
            (flat_map (nesting_levels 1) (parse_roadmap roadmap_text)).
Proof.
  split; [apply parse_roadmap_shaped|].
  unfold parse_roadmap, roadmap_of.
  set (p := parse_lines (Py.split nl roadmap_text) parser_init).
  destruct (parse_lines_ok (Py.split nl roadmap_text) parser_init parser_init_ok)
    as (Hst & Htop & _).
  assert (Hid : ids_numbered (store p)).
  { apply parse_lines_numbered. intros a e Hl. simpl in Hl. now rewrite lookup_nil in Hl. }
  fold p in Hst, Htop.
  apply Forall_flat_map, Forall_map.
  eapply Forall_impl; [exact Htop|].
  intros a Ha. now apply read_numbered1.
Qed.

Lemma entry_head_grow st e a :
  (a < length st)%nat -> entry_head (st ++ [e]) a = entry_head st a.
Proof. intros H. unfold entry_head. now rewrite lookup_app_l. Qed.

Lemma entry_head_new st e :
  entry_head (st ++ [e]) (length st) = (e_id e, e_description e).
Proof. unfold entry_head. now rewrite list_lookup_middle. Qed.

Lemma entry_head_append_child st t c a :
  entry_head (append_child st t c) a = entry_head st a.
Proof.
  unfold entry_head, append_child.
  destruct (decide (t = a)) as [->|Hne].
  - rewrite list_lookup_alter_eq. now destruct (st !! a).
  - now rewrite list_lookup_alter_ne.
Qed.

Lemma entry_head_attach st parent e a :
  (a < length st)%nat ->
  entry_head match parent with
             | Some t => append_child (st ++ [e]) t (length st)
             | None => st ++ [e]
             end a
  = entry_head st a.
Proof.
  intros H. destruct parent; [rewrite entry_head_append_child|];
    now apply entry_head_grow.
Qed.

Lemma map_ext_Forall {A B} (f g : A -> B) l :
  Forall (fun x => f x = g x) l -> map f l = map g l.
Proof. induction 1 as [|x l Hx _ IH]; [reflexivity|]. simpl. now rewrite Hx, IH. Qed.

Lemma read_entry_head f st a :
  (td_id (read_entry (S f) st a), td_description (read_entry (S f) st a))
  = entry_head st a.
Proof.
  rewrite read_entry_step. unfold entry_head.
  destruct (st !! a) as [e|]; [|reflexivity]. now destruct (e_key e).
Qed.

(** One line adds a topic at the end of the list of topics when it is a
    line of the first level, and leaves the list as it is otherwise. *)
Lemma parse_step_topics p raw :
  parser_ok p ->
  map (entry_head (store (parse_step p raw))) (topics (parse_step p raw))
  = map (entry_head (store p)) (topics p)
    ++ match main_line (Py.strip raw) with Some x => [x] | None => [] end.
Proof.
  intros (_ & Htop & _).
  assert (Hlt : Forall (fun a => (a < length (store p))%nat) (topics p)).
  { eapply Forall_impl; [exact Htop|]. intros a (e & Hl & _).
    now apply lookup_lt_Some in Hl. }
  unfold parse_step, main_line.
  destruct (Py.strip raw) as [|c line'] eqn:Es; [now rewrite app_nil_r|].
  cbn [Py.truthy]. unfold parse_line.
  destruct (groups2 _) as [[a desc]|].
  { cbn [store topics]. rewrite map_app. cbn [map]. rewrite entry_head_new.
    f_equal. apply map_ext_Forall. eapply Forall_impl; [exact Hlt|].
    intros; now apply entry_head_grow. }
  rewrite app_nil_r.
  destruct (groups3 _) as [[[a b] desc]|].
  { cbn [store topics]. apply map_ext_Forall. eapply Forall_impl; [exact Hlt|].
    intros; now apply entry_head_attach. }
  destruct (groups4 _) as [[[[a b] c0] desc]|].
  { cbn [store topics]. apply map_ext_Forall. eapply Forall_impl; [exact Hlt|].
    intros; now apply entry_head_attach. }
  destruct (groups5 _) as [[[[[a b] c0] d] desc]|].
  { cbn [store topics]. apply map_ext_Forall. eapply Forall_impl; [exact Hlt|].
    intros; now apply entry_head_attach. }
  reflexivity.
Qed.

Lemma parse_lines_topics lines :
  forall p, parser_ok p ->
    map (entry_head (store (parse_lines lines p))) (topics (parse_lines lines p))
    = map (entry_head (store p)) (topics p)
      ++ omap main_line (map Py.strip lines).
Proof.
  induction lines as [|raw lines IH]; intros p Hp.
  - simpl. now rewrite app_nil_r.
  - change (parse_lines (raw :: lines) p)
      with (parse_lines lines (parse_step p raw)).
    assert (Hp1 : parser_ok (parse_step p raw)).
    { unfold parse_step.
      destruct (Py.truthy _); [now apply parse_line_ok | assumption]. }
    rewrite IH, parse_step_topics by assumption.
    rewrite <- app_assoc. f_equal. cbn [map omap list_omap].
    now destruct (main_line (Py.strip raw)).
Qed.

(** The topics of the roadmap are the lines of the first level, in the
    order of the text, each with the id and the description of its line:
    no other line adds, drops or moves a topic. *)
Theorem roadmap_topics_are_the_main_lines (roadmap_text : string) :
  map (fun t => (td_id t, td_description t)) (parse_roadmap roadmap_text)
  = omap main_line (map Py.strip (Py.split nl roadmap_text)).
Proof.
  unfold parse_roadmap, roadmap_of. rewrite map_map.
  rewrite <- (app_nil_l (omap _ _)).
  change [] with (map (entry_head (store parser_init)) (topics parser_init)).
  rewrite <- parse_lines_topics by apply parser_init_ok.
  apply map_ext. intros a. apply read_entry_head.
Qed.

(** ** Lines of the roadmap format *)

Lemma greedy_all {A} cls (k : string -> option A) s rest r :
  all_chars cls s = true ->
  match rest with String c _ => cls c = false | EmptyString => True end ->
  k rest = Some r ->
  Re.greedy cls k (s +:+ rest) = Some r.
Proof.
  intros Hs Hrest Hk. induction s as [|a s IH].
  - change (EmptyString +:+ rest) with rest.
    destruct rest as [|c rest]; simpl; [exact Hk|]. now rewrite Hrest.
  - simpl in Hs. apply andb_true_iff in Hs as [Ha Hs].
    rewrite append_cons. simpl. now rewrite Ha, IH.
Qed.

Lemma greedy_inv {A} cls (k : string -> option A) s r :
  Re.greedy cls k s = Some r ->
  exists s1 s2, s = s1 +:+ s2 /\ all_chars cls s1 = true /\ k s2 = Some r.
Proof.
  induction s as [|a s IH]; simpl.
  - intros H. now exists EmptyString, EmptyString.
  - destruct (cls a) eqn:Ea.
    + destruct (Re.greedy cls k s) as [r'|] eqn:E.
      * intros [= ->]. destruct (IH eq_refl) as (s1 & s2 & -> & H1 & H2).
        exists (String a s1), s2. rewrite append_cons. simpl. now rewrite Ea.
      * intros H. now exists EmptyString, (String a s).
    + intros H. now exists EmptyString, (String a s).
Qed.

(** Two ways of cutting a string after characters of a class, when the
    class ends at [c]. *)
Lemma class_prefix cls s1 s2 ds c rest :
  all_chars cls s1 = true -> all_chars cls ds = true -> cls c = false ->
  s1 +:+ s2 = ds +:+ String c rest ->
  exists s3, ds = s1 +:+ s3 /\ s2 = s3 +:+ String c rest.
Proof.
  intros H1 Hds Hc. revert ds Hds. induction s1 as [|a s1 IH]; intros ds Hds E.
  - exists ds. split; [reflexivity | exact E].
  - simpl in H1. apply andb_true_iff in H1 as [Ha H1].
    destruct ds as [|d ds].
    + change (EmptyString +:+ String c rest) with (String c rest) in E.
      rewrite append_cons in E. injection E as -> _. congruence.
    + rewrite !append_cons in E. injection E as -> E.
      simpl in Hds. apply andb_true_iff in Hds as [_ Hds].
      destruct (IH H1 ds Hds E) as (s3 & -> & ->).
      exists s3. now rewrite append_cons.
Qed.

Lemma take_append s rest :
  Py.take (String.length (s +:+ rest) - String.length rest) (s +:+ rest) = s.
Proof.
  rewrite length_append_string.
  replace (String.length s + String.length rest - String.length rest)%nat
    with (String.length s) by lia.
  induction s as [|a s IH]; [now destruct rest|].
  rewrite append_cons. cbn [String.length Py.take]. now rewrite IH.
Qed.

Lemma take_all s : Py.take (String.length s - 0) s = s.
Proof.
  rewrite Nat.sub_0_r. induction s as [|a s IH]; [reflexivity|].
  simpl. now rewrite IH.
Qed.

Section NumberGroup.

Variable x : ascii.
Hypothesis not_digit : Re.digit x = false.
Variable after : list Re.item.

(** A number followed by [x] matches the number group followed by [x]. *)
Lemma run_group_ok ds rest opens caps r :
  is_number ds = true ->
  Re.run after rest opens (caps ++ [ds]) = Some r ->
  Re.run (number_group ++ Re.Lit x :: after) (ds +:+ String x rest) opens caps
  = Some r.
Proof.
  intros Hn Hr. unfold is_number in Hn. apply andb_true_iff in Hn as [Ht Hd].
  destruct ds as [|d ds]; [discriminate|].
  simpl in Hd. apply andb_true_iff in Hd as [Hd Hds].
  cbn [number_group app Re.run]. rewrite append_cons, Hd.
  apply greedy_all; [exact Hds | exact not_digit |].
  cbn [Re.run]. rewrite <- append_cons, take_append, Ascii.eqb_refl. exact Hr.
Qed.

(** What matches the number group followed by [x] after a number has [x]
    right after the number. *)
Lemma run_group_inv ds c rest opens caps r :
  is_number ds = true -> Re.digit c = false ->
  Re.run (number_group ++ Re.Lit x :: after) (ds +:+ String c rest) opens caps
  = Some r ->
  c = x /\ Re.run after rest opens (caps ++ [ds]) = Some r.
Proof.
  intros Hn Hc. unfold is_number in Hn. apply andb_true_iff in Hn as [Ht Hd].
  destruct ds as [|d ds]; [discriminate|].
  simpl in Hd. apply andb_true_iff in Hd as [Hd Hds].
  cbn [number_group app Re.run]. rewrite append_cons, Hd. intros H.
  apply greedy_inv in H as (s1 & s2 & E & H1 & H2).
  destruct (class_prefix _ _ _ _ _ _ H1 Hds Hc (eq_sym E)) as (s3 & -> & ->).
  cbn [Re.run] in H2. destruct s3 as [|d' s3].
  - change (EmptyString +:+ String c rest) with (String c rest) in H2.
    rewrite append_empty_r in H2.
    destruct (Ascii.eqb x c) eqn:Ex; [|discriminate].
    apply Ascii.eqb_eq in Ex as <-. split; [reflexivity|].
    rewrite append_empty_r.
    rewrite <- !append_cons, take_append in H2. exact H2.
  - rewrite append_cons in H2.
    destruct (Ascii.eqb x d') eqn:Ex; [|discriminate].
    apply Ascii.eqb_eq in Ex as <-.
    assert (Hx : all_chars Re.digit (s1 +:+ String x s3) = true) by exact Hds.
    clear -Hx not_digit. exfalso. induction s1 as [|a s1 IH].
    + simpl in Hx. now rewrite not_digit in Hx.
    + rewrite append_cons in Hx. cbn [all_chars] in Hx.
      apply andb_true_iff in Hx as [_ Hx]. now apply IH.
Qed.

End NumberGroup.

Lemma description_head desc :
  is_description desc ->
  exists c d, desc = String c d /\ Re.space c = false
              /\ Py.rstrip_by Py.isspace desc = desc.
Proof.
  intros (Hne & Hs & _).
  assert (Hl : Py.lstrip desc = desc) by (rewrite <- Hs at 1; rewrite lstrip_strip; exact Hs).
  assert (Hr : Py.rstrip_by Py.isspace desc = desc).
  { unfold Py.strip in Hs. unfold Py.lstrip in Hl. now rewrite Hl in Hs. }
  destruct (lstrip_by_head Py.isspace desc) as [E|(c & d & E & Hc)];
    unfold Py.lstrip in Hl; rewrite Hl in E; [contradiction|].
  exists c, d. now repeat split.
Qed.

Lemma run_tail_ok gap desc opens caps :
  all_chars Re.space gap = true -> is_description desc ->
  Re.run [Re.Star Re.space; Re.Open; Re.Plus Re.dot; Re.Close; Re.Eos]
         (gap +:+ desc) opens caps
  = Some (caps ++ [desc]).
Proof.
  intros Hgap Hdesc. pose proof Hdesc as (_ & _ & Hdot).
  destruct (description_head desc Hdesc) as (c & d & -> & Hc & _).
  cbn [Re.run]. apply greedy_all; [exact Hgap | exact Hc |].
  cbn [Re.run]. simpl in Hdot. apply andb_true_iff in Hdot as [Hd Hdot].
  rewrite Hd. rewrite <- (append_empty_r d) at 1.
  apply greedy_all; [exact Hdot | exact I |].
  cbn [Re.run Re.at_end]. now rewrite take_all.
Qed.

#[local] Abbreviation colon := (ascii_of_nat 58).
#[local] Abbreviation tail_after_colon :=
  [Re.Star Re.space; Re.Open; Re.Plus Re.dot; Re.Close; Re.Eos].

Section LinesOfTheFormat.

Variables gap desc : string.
Hypothesis spaces_gap : all_chars Re.space gap = true.
Hypothesis description_desc : is_description desc.

Lemma last_group_ok a opens caps :
  is_number a = true ->
  Re.run (number_group ++ description_tail) (a +:+ ":" +:+ gap +:+ desc) opens caps
  = Some (caps ++ [a; desc]).
Proof.
  intros Ha.
  apply (run_group_ok colon eq_refl tail_after_colon a (gap +:+ desc));
    [exact Ha|].
  rewrite run_tail_ok by assumption. now rewrite <- app_assoc.
Qed.

Lemma last_group_only a rest opens caps :
  is_number a = true ->
  Re.run (number_group ++ description_tail) (a +:+ "." +:+ rest) opens caps = None.
Proof.
  intros Ha.
  destruct (Re.run _ _ _ _) eqn:E; [|reflexivity].
  apply (run_group_inv colon eq_refl tail_after_colon a "." rest) in E
    as [E _]; [discriminate | exact Ha | reflexivity].
Qed.

Lemma inner_group_ok a rest after opens caps r :
  is_number a = true ->
  Re.run after rest opens (caps ++ [a]) = Some r ->
  Re.run (number_group ++ dot_item :: after) (a +:+ "." +:+ rest) opens caps
  = Some r.
Proof. intros Ha. now apply (run_group_ok (ascii_of_nat 46) eq_refl). Qed.

Lemma inner_group_fails a rest after opens caps :
  is_number a = true ->
  Re.run after rest opens (caps ++ [a]) = None ->
  Re.run (number_group ++ dot_item :: after) (a +:+ "." +:+ rest) opens caps
  = None.
Proof.
  intros Ha Hnone.
  destruct (Re.run (number_group ++ _) _ _ _) eqn:E; [|reflexivity].
  apply (run_group_inv (ascii_of_nat 46) eq_refl after a "." rest) in E
    as [_ E]; [congruence | exact Ha | reflexivity].
Qed.

Lemma inner_group_needs_dot a after opens caps :
  is_number a = true ->
  Re.run (number_group ++ dot_item :: after) (a +:+ ":" +:+ gap +:+ desc)
         opens caps = None.
Proof.
  intros Ha.
  destruct (Re.run _ _ _ _) eqn:E; [|reflexivity].
  apply (run_group_inv (ascii_of_nat 46) eq_refl after a ":" (gap +:+ desc)) in E
    as [E _]; [discriminate | exact Ha | reflexivity].
Qed.

(** A line of the format with one to four numbers matches the pattern of
    its level with its numbers and its description, and no pattern before
    it in the chain. *)
Lemma matches_level1 a :
  is_number a = true ->
  Re.matches main_topic_re (roadmap_line [a] gap desc) = Some [a; desc].
Proof.
  intros Ha. unfold roadmap_line, Re.matches, main_topic_re.
  cbn [String.concat]. apply (last_group_ok a [] [] Ha).
Qed.

Lemma matches_level2 a b :
  is_number a = true -> is_number b = true ->
  Re.matches main_topic_re (roadmap_line [a; b] gap desc) = None
  /\ Re.matches subtopic_re (roadmap_line [a; b] gap desc) = Some [a; b; desc].
Proof.
  intros Ha Hb. unfold roadmap_line, Re.matches, main_topic_re, subtopic_re.
  cbn [String.concat]. rewrite !append_assoc. split.
  - apply (last_group_only a _ [] [] Ha).
  - apply (inner_group_ok a _ _ [] [] _ Ha). apply (last_group_ok b [] [a] Hb).
Qed.

Lemma matches_level3 a b c :
  is_number a = true -> is_number b = true -> is_number c = true ->
  Re.matches main_topic_re (roadmap_line [a; b; c] gap desc) = None
  /\ Re.matches subtopic_re (roadmap_line [a; b; c] gap desc) = None
  /\ Re.matches subsubtopic_re (roadmap_line [a; b; c] gap desc)
     = Some [a; b; c; desc].
Proof.
  intros Ha Hb Hc.
  unfold roadmap_line, Re.matches, main_topic_re, subtopic_re, subsubtopic_re.
  cbn [String.concat]. rewrite !append_assoc. split; [|split].
  - apply (last_group_only a _ [] [] Ha).
  - apply (inner_group_fails a _ _ [] [] Ha). apply (last_group_only b _ [] [a] Hb).
  - apply (inner_group_ok a _ _ [] [] _ Ha).
    apply (inner_group_ok b _ _ [] [a] _ Hb).
    apply (last_group_ok c [] [a; b] Hc).
Qed.

Lemma matches_level4 a b c d :
  is_number a = true -> is_number b = true -> is_number c = true ->
  is_number d = true ->
  Re.matches main_topic_re (roadmap_line [a; b; c; d] gap desc) = None
  /\ Re.matches subtopic_re (roadmap_line [a; b; c; d] gap desc) = None
  /\ Re.matches subsubtopic_re (roadmap_line [a; b; c; d] gap desc) = None
  /\ Re.matches subsubsubtopic_re (roadmap_line [a; b; c; d] gap desc)
     = Some [a; b; c; d; desc].
Proof.
  intros Ha Hb Hc Hd.
  unfold roadmap_line, Re.matches, main_topic_re, subtopic_re, subsubtopic_re,
    subsubsubtopic_re.
  cbn [String.concat]. rewrite !append_assoc. split; [|split; [|split]].
  - apply (last_group_only a _ [] [] Ha).
  - apply (inner_group_fails a _ _ [] [] Ha). apply (last_group_only b _ [] [a] Hb).
  - apply (inner_group_fails a _ _ [] [] Ha).
    apply (inner_group_fails b _ _ [] [a] Hb).
    apply (last_group_only c _ [] [a; b] Hc).
  - apply (inner_group_ok a _ _ [] [] _ Ha).
    apply (inner_group_ok b _ _ [] [a] _ Hb).
    apply (inner_group_ok c _ _ [] [a; b] _ Hc).
    apply (last_group_ok d [] [a; b; c] Hd).
Qed.

End LinesOfTheFormat.

Lemma lstrip_indent indent c r :
  all_chars Re.space indent = true -> Py.isspace c = false ->
  Py.lstrip_by Py.isspace (indent +:+ String c r) = String c r.
Proof.
  intros Hi Hc. induction indent as [|a indent IH].
  - simpl. now rewrite Hc.
  - simpl in Hi. apply andb_true_iff in Hi as [Ha Hi].
    rewrite append_cons. simpl. unfold Re.space in Ha. rewrite Ha. now apply IH.
Qed.

Lemma rstrip_app p s1 s2 :
  s2 <> EmptyString -> Py.rstrip_by p s2 = s2 ->
  Py.rstrip_by p (s1 +:+ s2) = s1 +:+ s2.
Proof.
  intros Hne Hr. induction s1 as [|a s1 IH]; [exact Hr|].
  rewrite append_cons. cbn [Py.rstrip_by]. rewrite IH.
  destruct (s1 +:+ s2) eqn:E; [|reflexivity].
  destruct s1; [destruct (Hne E) | rewrite append_cons in E; discriminate].
Qed.

Lemma strip_roadmap_line indent numbers gap desc :
  all_chars Re.space indent = true -> is_description desc ->
  Py.strip (indent +:+ roadmap_line numbers gap desc)
  = roadmap_line numbers gap desc.
Proof.
  intros Hi Hd. destruct (description_head desc Hd) as (c & d & E & _ & Hr).
  unfold Py.strip, roadmap_line.
  change ("T" +:+ String.concat "." numbers +:+ ":" +:+ gap +:+ desc)
    with (String "T" (String.concat "." numbers +:+ ":" +:+ gap +:+ desc)).
  rewrite lstrip_indent by (assumption || reflexivity).
  change (String "T" (String.concat "." numbers +:+ ":" +:+ gap +:+ desc))
    with ("T" +:+ String.concat "." numbers +:+ ":" +:+ gap +:+ desc).
  rewrite <- !append_assoc. apply rstrip_app; [|exact Hr].
  rewrite E. discriminate.
Qed.

(** A line of the roadmap format, indented or not, with one to four
    numbers is taken at the level of its count of numbers: it matches no
    pattern before its own in the chain, the dictionary built for it has
    the id of its numbers through [int] and the description of the line,
    and it is stored and hung under the tracked dictionary of the level
    above, or added to the topics at the first level.  No warning is
    given. *)
Theorem roadmap_line_is_stored (p : parser) (indent : string)
    (numbers : list string) (gap description : string) :
  (1 <= length numbers <= 4)%nat ->
  forallb is_number numbers = true ->
  all_chars Re.space indent = true ->
  all_chars Re.space gap = true ->
  is_description description ->
  let line := roadmap_line numbers gap description in
  let e := Entry (path_id numbers) description (key_at (length numbers)) [] in
  let p' := parse_step p (indent +:+ line) in
  line_path line = Some numbers
  /\ store p' = match tracked_parent p (length numbers) with
                | Some t => append_child (store p ++ [e]) t (length (store p))
                | None => store p ++ [e]
                end
  /\ topics p' = (if (length numbers =? 1)%nat
                  then topics p ++ [length (store p)] else topics p)
  /\ warnings p' = warnings p.
Proof.
  intros Hlen Hnum Hindent Hgap Hdesc. cbv zeta.
  unfold parse_step. rewrite strip_roadmap_line by assumption.
  replace (Py.truthy (roadmap_line numbers gap description)) with true
    by reflexivity.
  unfold line_path, parse_line.
  destruct numbers as [|a [|b [|c [|d [|]]]]]; simpl in Hlen; try lia;
    cbn [forallb] in Hnum; rewrite ?andb_true_iff in Hnum.
  - destruct Hnum as (Ha & _).
    rewrite (matches_level1 gap description Hgap Hdesc a Ha).
    now repeat split.
  - destruct Hnum as (Ha & Hb & _).
    destruct (matches_level2 gap description Hgap Hdesc a b Ha Hb) as (E1 & E2).
    rewrite E1, E2. now repeat split.
  - destruct Hnum as (Ha & Hb & Hc & _).
    destruct (matches_level3 gap description Hgap Hdesc a b c Ha Hb Hc)
      as (E1 & E2 & E3).
    rewrite E1, E2, E3. now repeat split.
  - destruct Hnum as (Ha & Hb & Hc & Hd & _).
    destruct (matches_level4 gap description Hgap Hdesc a b c d Ha Hb Hc Hd)
      as (E1 & E2 & E3 & E4).
    rewrite E1, E2, E3, E4. now repeat split.
Qed.

Lemma roadmap_line_is_stored_witness :
  let p := parse_lines ["T1: Sets"] parser_init in
  let p' := parse_step p "    T01.002:   Unions of sets" in
  store p'
  = [Entry "T1" "Sets" Subtopics [1%nat];
     Entry "T1.2" "Unions of sets" Subsubtopics []]
  /\ warnings p' = [].
Proof.
  cbv zeta.
  destruct (roadmap_line_is_stored (parse_lines ["T1: Sets"] parser_init) "    "
              ["01"; "002"] "   " "Unions of sets")
    as (_ & Hs & _ & Hw).
  - simpl. lia.
  - reflexivity.
  - reflexivity.
  - reflexivity.
  - split; [discriminate|]. split; reflexivity.
  - split; [|exact Hw]. etrans; [exact Hs|]. vm_compute. reflexivity.
Defined.

(** ** The lesson-plan document *)

Lemma add_content_unfold data level d :
  add_content data level d =
  add_content_list (pn_subsubsubtopics data) (level + 3)
    (add_content_list (pn_subsubtopics data) (level + 2)
       (add_content_list (pn_subtopics data) (level + 1)
          (fold_left add_content_line (Py.split nl (pn_content data))
             (add_block (Heading (pn_id data +:+ ": " +:+ pn_title data) level)
                        d)))).
Proof.
  destruct data as [id title content s ss sss]. simpl.
  assert (Hfix : forall l lv d0,
    (fix in_list (level : Z) (l : list plan_node) (d : document) {struct l}
       : document :=
       match l with
       | [] => d
       | item :: l' => in_list level l' (add_content item level d)
       end) lv l d0 = add_content_list l lv d0).
  { induction l as [|x l IHl]; intros lv d0; [reflexivity|]. simpl. apply IHl. }
  now rewrite !Hfix.
Qed.

Lemma add_content_line_in_range d raw :
  Forall heading_in_range (blocks d) ->
  Forall heading_in_range (blocks (add_content_line d raw)).
Proof.
  intros H. unfold add_content_line.
  repeat (destruct (Py.startswith _ _);
          [simpl; apply Forall_app; split; [exact H|];
           constructor; [simpl; try lia; exact I | constructor]|]).
  destruct (Py.truthy _); [|exact H].
  simpl. apply Forall_app. split; [exact H|]. now repeat constructor.
Qed.

Lemma add_content_lines_in_range lines d :
  Forall heading_in_range (blocks d) ->
  Forall heading_in_range (blocks (fold_left add_content_line lines d)).
Proof.
  revert d. induction lines as [|raw lines IH]; intros d H; [exact H|].
  simpl. apply IH. now apply add_content_line_in_range.
Qed.

Lemma add_content_list_in_range l level :
  Forall (fun data => forall d,
            Forall heading_in_range (blocks d) ->
            Forall heading_in_range (blocks (add_content data level d))) l ->
  forall d, Forall heading_in_range (blocks d) ->
            Forall heading_in_range (blocks (add_content_list l level d)).
Proof.
  induction 1 as [|x l Hx _ IH]; intros d H; [exact H|].
  simpl. apply IH. now apply Hx.
Qed.

Lemma own_heading_in_range data level d :
  1 <= level <= 8 ->
  Forall heading_in_range (blocks d) ->
  Forall heading_in_range
    (blocks (fold_left add_content_line (Py.split nl (pn_content data))
               (add_block (Heading (pn_id data +:+ ": " +:+ pn_title data) level)
                          d))).
Proof.
  intros Hl H. apply add_content_lines_in_range. simpl.
  apply Forall_app. split; [exact H|]. now repeat constructor.
Qed.

Lemma add_content_list_nil level d : add_content_list [] level d = d.
Proof. reflexivity. Qed.

Lemma map_outline_nil l : map outline_of l = [] -> l = [].
Proof. now destruct l. Qed.

Lemma level4_in_range data d :
  level4_shaped (outline_of data) ->
  Forall heading_in_range (blocks d) ->
  Forall heading_in_range (blocks (add_content data 8 d)).
Proof.
  destruct data as [id title content s ss sss].
  intros (H1 & H2 & H3) H. simpl in H1, H2, H3.
  apply map_outline_nil in H1, H2, H3. subst.
  rewrite add_content_unfold. apply own_heading_in_range; [lia | exact H].
Qed.

Lemma level3_in_range data d :
  level3_shaped (outline_of data) ->
  Forall heading_in_range (blocks d) ->
  Forall heading_in_range (blocks (add_content data 5 d)).
Proof.
  destruct data as [id title content s ss sss].
  intros (H1 & H2 & H3) H. simpl in H1, H2, H3.
  apply map_outline_nil in H1, H2. subst. apply (proj1 (Forall_map _ _ _)) in H3.
  rewrite add_content_unfold. cbn [pn_subtopics pn_subsubtopics pn_subsubsubtopics].
  rewrite !add_content_list_nil.
  apply add_content_list_in_range; [|apply own_heading_in_range; [lia | exact H]].
  eapply Forall_impl; [exact H3|]. intros c Hc d0. now apply level4_in_range.
Qed.

Lemma level2_in_range data d :
  level2_shaped (outline_of data) ->
  Forall heading_in_range (blocks d) ->
  Forall heading_in_range (blocks (add_content data 3 d)).
Proof.
  destruct data as [id title content s ss sss].
  intros (H1 & H2 & H3) H. simpl in H1, H2, H3.
  apply map_outline_nil in H1, H2. subst. apply (proj1 (Forall_map _ _ _)) in H3.
  rewrite add_content_unfold. cbn [pn_subtopics pn_subsubtopics pn_subsubsubtopics].
  rewrite !add_content_list_nil.
  apply add_content_list_in_range; [|apply own_heading_in_range; [lia | exact H]].
  eapply Forall_impl; [exact H3|]. intros c Hc d0. now apply level3_in_range.
Qed.

Lemma level1_in_range data d :
  level1_shaped (outline_of data) ->
  Forall heading_in_range (blocks d) ->
  Forall heading_in_range (blocks (add_content data 2 d)).
Proof.
  destruct data as [id title content s ss sss].
  intros (H1 & H2 & H3) H. simpl in H1, H2, H3.
  apply map_outline_nil in H1, H2. subst. apply (proj1 (Forall_map _ _ _)) in H3.
  rewrite add_content_unfold. cbn [pn_subtopics pn_subsubtopics pn_subsubsubtopics].
  rewrite !add_content_list_nil.
  apply add_content_list_in_range; [|apply own_heading_in_range; [lia | exact H]].
  eapply Forall_impl; [exact H3|]. intros c Hc d0. now apply level2_in_range.
Qed.


(** ** The Markdown writer on code blocks *)

Lemma write_opening_fence wr raw :
  in_code_block wr = false -> is_fence raw = true ->
  write_paragraph wr raw
  = Writer (Document (styles_len (doc wr) + 1)
              (blocks (doc wr)
               ++ [Paragraph (Some ("CodeBlock" +:+ Py.str_of_Z (styles_len (doc wr))))
                             None []]))
           (in_list wr) (list_level wr) true (Some (length (blocks (doc wr)))).
Proof.
  intros Hc Hf. unfold write_paragraph. unfold is_fence in Hf.
  now rewrite Hf, Hc.
Qed.

Lemma write_closing_fence wr raw :
  in_code_block wr = true -> is_fence raw = true ->
  write_paragraph wr raw
  = Writer (doc wr) (in_list wr) (list_level wr) false (code_para wr).
Proof.
  intros Hc Hf. unfold write_paragraph. unfold is_fence in Hf.
  now rewrite Hf, Hc.
Qed.

Lemma write_code_line sl bs style runs il ll raw :
  is_fence raw = false ->
  write_paragraph
    (Writer (Document sl (bs ++ [Paragraph style None runs])) il ll true
            (Some (length bs))) raw
  = Writer (Document sl
              (bs ++ [Paragraph style None
                        (runs ++ [Run (Py.strip raw +:+ nl) false false])]))
           il ll true (Some (length bs)).
Proof.
  intros Hf. unfold write_paragraph. unfold is_fence in Hf. rewrite Hf.
  cbn [in_code_block code_para doc in_list list_level]. unfold add_run_at.
  cbn [styles_len blocks]. f_equal. f_equal.
  rewrite <- (Nat.add_0_r (length bs)) at 1. now rewrite alter_app_r.
Qed.

Lemma write_code_lines sl bs style il ll body :
  forall runs,
    Forall (fun raw => is_fence raw = false) body ->
    fold_left write_paragraph body
      (Writer (Document sl (bs ++ [Paragraph style None runs])) il ll true
              (Some (length bs)))
    = Writer (Document sl
                (bs ++ [Paragraph style None
                          (runs ++ map (fun raw => Run (Py.strip raw +:+ nl) false false)
                                       body)]))
             il ll true (Some (length bs)).
Proof.
  induction body as [|raw body IH]; intros runs H.
  - simpl. now rewrite app_nil_r.
  - apply Forall_cons in H as [Hr H]. cbn [fold_left map].
    rewrite write_code_line, IH by assumption. now rewrite <- app_assoc.
Qed.

Lemma add_block_settled i b b' wr il ll :
  block_settled i b wr ->
  block_settled i b (Writer (add_block b' (doc wr)) il ll false (code_para wr)).
Proof.
  intros [Hl _]. split; [|discriminate]. simpl.
  apply lookup_app_l_Some. exact Hl.
Qed.

(** A line leaves a settled block as it is. *)
Lemma write_paragraph_settled i b wr raw :
  block_settled i b wr -> block_settled i b (write_paragraph wr raw).
Proof.
  intros H. pose proof H as [Hl Hc]. unfold write_paragraph.
  destruct (Py.startswith "```" (Py.strip raw)).
  { destruct (in_code_block wr) eqn:E; cbn [negb].
    - split; [exact Hl | discriminate].
    - split; simpl.
      + now apply lookup_app_l_Some.
      + intros _ j [= <-]. now apply lookup_lt_Some in Hl. }
  destruct (in_code_block wr) eqn:E.
  { destruct (code_para wr) as [j|] eqn:Ej; [|exact H].
    split; simpl.
    - rewrite list_lookup_alter_ne; [exact Hl|].
      specialize (Hc eq_refl j eq_refl). lia.
    - intros _ j' [= <-]. now apply Hc. }
  destruct (Py.startswith "#" (Py.strip raw)).
  { now apply add_block_settled. }
  destruct (_ || _).
  { now apply add_block_settled. }
  cbv zeta. destruct (Py.truthy _).
  - destruct (in_list wr); [|now apply add_block_settled].
    apply (add_block_settled i b _ (Writer (doc wr) false 0 false (code_para wr))).
    split; [exact Hl | discriminate].
  - destruct (in_list wr); [|exact H]. split; [exact Hl | discriminate].
Qed.

Lemma write_paragraphs_settled i b lines :
  forall wr, block_settled i b wr ->
             block_settled i b (fold_left write_paragraph lines wr).
Proof.
  induction lines as [|raw lines IH]; intros wr H; [exact H|].
  simpl. apply IH. now apply write_paragraph_settled.
Qed.



(** ** The text of a snapshot *)

Lemma all_chars_app cls a b :
  all_chars cls (a +:+ b) = all_chars cls a && all_chars cls b.
Proof.
  induction a as [|x a IH]; [reflexivity|].
  rewrite append_cons. cbn [all_chars]. now rewrite IH, andb_assoc.
Qed.

Lemma escape_char_ascii c : all_chars plain_ascii (Json.escape_char c) = true.
Proof. destruct c as [[] [] [] [] [] [] [] []]; reflexivity. Qed.

Lemma dump_string_ascii s : all_chars plain_ascii (Json.dump_string s) = true.
Proof.
  unfold Json.dump_string. rewrite !all_chars_app.
  assert (H : all_chars plain_ascii (Json.escape s) = true).
  { induction s as [|c s IH]; [reflexivity|].
    cbn [Json.escape]. now rewrite all_chars_app, escape_char_ascii, IH. }
  now rewrite H.
Qed.

Lemma newline_indent_ascii level :
  all_chars plain_ascii (Json.newline_indent level) = true.
Proof.
  unfold Json.newline_indent. rewrite all_chars_app.
  generalize (4 * level)%nat as n. induction n as [|n IH]; [reflexivity|].
  exact IH.
Qed.

Lemma dump_ascii v : forall level, all_chars plain_ascii (Json.dump level v) = true.
Proof.
  induction v as [t|items Hitems|members Hmembers] using json_induction;
    intros level.
  - apply dump_string_ascii.
  - destruct items as [|x l]; [reflexivity|].
    apply Forall_cons in Hitems as [Hx Hl].
    rewrite dump_array, !all_chars_app, !newline_indent_ascii, Hx.
    assert (H : all_chars plain_ascii (Json.dump_items (S level) l) = true).
    { induction Hl as [|y l Hy _ IH]; [reflexivity|].
      cbn [Json.dump_items].
      now rewrite !all_chars_app, newline_indent_ascii, Hy, IH. }
    now rewrite H.
  - destruct members as [|[k x] l]; [reflexivity|].
    apply Forall_cons in Hmembers as [Hx Hl]. cbn [snd] in Hx.
    rewrite dump_object, !all_chars_app, !newline_indent_ascii, dump_string_ascii, Hx.
    assert (H : all_chars plain_ascii (Json.dump_members (S level) l) = true).
    { induction Hl as [|[k' y] l Hy _ IH]; [reflexivity|]. cbn [snd] in Hy.
      cbn [Json.dump_members].
      now rewrite !all_chars_app, newline_indent_ascii, dump_string_ascii, Hy, IH. }
    now rewrite H.
Qed.




(** ** The Markdown writer on text without markup *)

Lemma index_of_none sub c s :
  Py.index_of sub (String c s) = None ->
  String.prefix sub (String c s) = false /\ Py.index_of sub s = None.
Proof.
  cbn [Py.index_of]. destruct (String.prefix sub (String c s)); [discriminate|].
  destruct (Py.index_of sub s); [discriminate|]. now split.
Qed.

Lemma contains_none sub s :
  Py.contains sub s = false -> Py.index_of sub s = None.
Proof. unfold Py.contains. now destruct (Py.index_of sub s). Qed.

(** Without an occurrence of the separator nothing is split off. *)
Lemma split_from_none sep s cur :
  Py.index_of sep s = None -> Py.split_from sep s 0 cur = [cur +:+ s].
Proof.
  revert cur. induction s as [|c s IH]; intros cur H.
  - simpl. now rewrite append_empty_r.
  - apply index_of_none in H as [Hp Hs]. cbn [Py.split_from]. rewrite Hp.
    rewrite (IH _ Hs), append_assoc. reflexivity.
Qed.

Lemma star_is_not_head c s :
  String.prefix "*" (String c s) = false -> "*"%char <> c.
Proof.
  cbn [String.prefix]. destruct (ascii_dec "*" c); [|auto].
  destruct s; discriminate.
Qed.

(** Without an asterisk there is no pair of asterisks. *)
Lemma no_star_no_pair s :
  Py.index_of "*" s = None -> Py.index_of "**" s = None.
Proof.
  induction s as [|c s IH]; intros H; [reflexivity|].
  apply index_of_none in H as [Hp Hs]. cbn [Py.index_of].
  rewrite (IH Hs). apply star_is_not_head in Hp. cbn [String.prefix].
  destruct (ascii_dec "*" c); [contradiction|reflexivity].
Qed.

Lemma mark_bold_none fuel para :
  Py.index_of "**" para = None -> mark_bold fuel para = para.
Proof.
  intros H. destruct fuel; [reflexivity|]. cbn [mark_bold].
  unfold Py.contains. now rewrite H.
Qed.

Lemma mark_italic_none fuel para :
  Py.index_of "*" para = None -> mark_italic fuel para = para.
Proof.
  intros H. destruct fuel; [reflexivity|]. cbn [mark_italic].
  unfold Py.contains. now rewrite H.
Qed.

Lemma no_star_no_item para :
  Py.index_of "*" para = None -> Py.startswith "* " para = false.
Proof.
  destruct para as [|c s]; [reflexivity|]. intros H.
  apply index_of_none in H as [Hp _]. apply star_is_not_head in Hp.
  unfold Py.startswith. cbn [String.prefix].
  destruct (ascii_dec "*" c); [contradiction|reflexivity].
Qed.

(** One line without markup, outside a code block: a blank line adds
    nothing, another line one paragraph with one plain run. *)
Lemma write_plain_line wr raw :
  in_code_block wr = false -> no_markup (Py.strip raw) = true ->
  in_code_block (write_paragraph wr raw) = false
  /\ blocks (doc (write_paragraph wr raw))
     = blocks (doc wr)
       ++ (if Py.truthy (Py.strip raw)
           then [Paragraph None None [Run (Py.strip raw) false false]] else []).
Proof.
  intros Hout H. unfold no_markup in H.
  repeat (apply andb_true_iff in H as [H ?]).
  repeat match goal with
         | h : negb _ = true |- _ => apply negb_true_iff in h
         end.
  match goal with h : Py.contains "*" _ = false |- _ =>
    apply contains_none in h; rename h into Hstar end.
  match goal with h : Py.contains "<<" _ = false |- _ =>
    apply contains_none in h; rename h into Hopen end.
  unfold write_paragraph. rewrite H, Hout.
  match goal with h : Py.startswith "#" _ = false |- _ => rewrite h end.
  match goal with h : Py.startswith "- " _ = false |- _ => rewrite h end.
  rewrite (no_star_no_item _ Hstar). cbn [orb]. cbv zeta.
  rewrite (mark_bold_none _ _ (no_star_no_pair _ Hstar)).
  rewrite (mark_italic_none _ _ Hstar).
  destruct (Py.truthy (Py.strip raw)).
  - unfold paragraph_runs, Py.split. rewrite (split_from_none _ _ _ Hopen).
    cbn [map]. unfold segment_run.
    change (EmptyString +:+ Py.strip raw) with (Py.strip raw).
    match goal with h : Py.startswith "BOLD>>" _ = false |- _ => rewrite h end.
    match goal with h : Py.startswith "ITALIC>>" _ = false |- _ => rewrite h end.
    destruct (in_list wr); split; reflexivity.
  - rewrite app_nil_r. destruct (in_list wr); split; (reflexivity || exact Hout).
Qed.

Lemma write_plain_lines lines : forall wr,
  in_code_block wr = false ->
  Forall (fun raw => no_markup (Py.strip raw) = true) lines ->
  blocks (doc (fold_left write_paragraph lines wr))
  = blocks (doc wr)
    ++ map (fun para => Paragraph None None [Run para false false])
           (List.filter Py.truthy (map Py.strip lines)).
Proof.
  induction lines as [|raw lines IH]; intros wr Hout H.
  - simpl. now rewrite app_nil_r.
  - apply Forall_cons in H as [Hraw H].
    destruct (write_plain_line wr raw Hout Hraw) as [Hout' Hb].
    cbn [fold_left map List.filter]. rewrite (IH _ Hout' H), Hb, <- app_assoc.
    f_equal. now destruct (Py.truthy (Py.strip raw)).
Qed.



(** ** The Markdown writer on headings *)

Lemma count_hash_head s : Py.count "#" (String "#" s) = 1 + Py.count "#" s.
Proof.
  unfold Py.count. cbn [Py.count_from String.prefix String.length Nat.sub].
  destruct (ascii_dec "#" "#"); [|contradiction]. now destruct s.
Qed.

Lemma count_hash_space s : Py.count "#" (String " " s) = Py.count "#" s.
Proof. reflexivity. Qed.

Lemma count_hashes k s :
  Py.count "#" (hashes k +:+ s) = Z.of_nat k + Py.count "#" s.
Proof.
  induction k as [|k IH]; [reflexivity|].
  cbn [hashes]. rewrite append_cons, count_hash_head, IH. lia.
Qed.

Lemma count_spaces gap s :
  all_chars (Ascii.eqb " ") gap = true ->
  Py.count "#" (gap +:+ s) = Py.count "#" s.
Proof.
  induction gap as [|c gap IH]; intros H; [reflexivity|].
  cbn [all_chars] in H. apply andb_true_iff in H as [Hc H].
  apply Ascii.eqb_eq in Hc. subst c.
  rewrite append_cons, count_hash_space. now apply IH.
Qed.

Lemma lstrip_hashes k s :
  Py.lstrip_chars "# " (hashes k +:+ s) = Py.lstrip_chars "# " s.
Proof. induction k as [|k IH]; [reflexivity|exact IH]. Qed.

Lemma lstrip_spaces gap s :
  all_chars (Ascii.eqb " ") gap = true ->
  Py.lstrip_chars "# " (gap +:+ s) = Py.lstrip_chars "# " s.
Proof.
  induction gap as [|c gap IH]; intros H; [reflexivity|].
  cbn [all_chars] in H. apply andb_true_iff in H as [Hc H].
  apply Ascii.eqb_eq in Hc. subst c. exact (IH H).
Qed.

(** A stripped title that does not start with a hash sign is left alone by
    [lstrip('# ')]. *)
Lemma lstrip_title title :
  Py.strip title = title -> Py.startswith "#" title = false ->
  Py.lstrip_chars "# " title = title.
Proof.
  intros Hs Hh. destruct title as [|c t]; [reflexivity|].
  assert (Hc : Py.isspace c = false).
  { assert (Hl : Py.lstrip (String c t) = String c t)
      by (rewrite <- Hs at 1; rewrite lstrip_strip; exact Hs).
    unfold Py.lstrip in Hl. cbn [Py.lstrip_by] in Hl.
    destruct (Py.isspace c) eqn:E; [|reflexivity].
    exfalso. destruct (lstrip_by_head Py.isspace t) as [E'|(a & r & E' & Ha)];
      rewrite Hl in E'; [discriminate|].
    injection E' as -> _. congruence. }
  unfold Py.lstrip_chars, Py.mem_char. cbn [Py.lstrip_by list_ascii_of_string existsb].
  unfold Py.startswith in Hh. cbn [String.prefix] in Hh.
  destruct (Ascii.eqb c "#") eqn:E1.
  { apply Ascii.eqb_eq in E1. subst c.
    destruct (ascii_dec "#" "#"); [destruct t; discriminate|contradiction]. }
  destruct (Ascii.eqb c " ") eqn:E2; [|reflexivity].
  apply Ascii.eqb_eq in E2. subst c. discriminate.
Qed.


